(** * FixFlow: the marker scanner, the storage engine and the debt service

    A shallow embedding of [src/services/scanner-service.ts],
    [src/services/storage-service.ts], [src/services/debt-service.ts] and of
    [validateDebtEntry] from the utilities, with the properties the
    specification states about them; then the rest of these services,
    [parseDebtMarkers] and [getContextLines] of the utilities,
    [src/services/config-service.ts] and the command that converts a marker
    comment into an entry, with the properties the code itself shows.

    Conventions of the embedding:
    - a JavaScript string is a [string] of code units below 128 (ASCII);
      the case mapping and the white space test leave other code units alone;
    - a JavaScript number is a rational [Q]: every finite double is one, and
      the only operations the code applies to numbers are comparisons with
      small integer constants; [NaN] and the infinities are not represented;
    - [throw new Error(msg)] is the left injection of the message. *)

From Stdlib Require Import ZArith QArith String Ascii List Lia
  DecimalString Decimal.
From stdpp Require Import base option list strings gmap.

Local Open Scope string_scope.
Local Open Scope list_scope.

(** ** Strings *)

Module Str.

Definition code (c : ascii) : nat := nat_of_ascii c.

Definition in_range (lo hi : nat) (c : ascii) : bool :=
  (lo <=? code c)%nat && (code c <=? hi)%nat.

(** [String.prototype.toUpperCase] and [toLowerCase] on one code unit. *)
Definition upper (c : ascii) : ascii :=
  if in_range 97 122 c then ascii_of_nat (code c - 32) else c.

Definition lower (c : ascii) : ascii :=
  if in_range 65 90 c then ascii_of_nat (code c + 32) else c.

(** White space and line terminators, as [trim] and the class [\s] see
    them: TAB, LF, VT, FF, CR, SPACE and NBSP. *)
Definition is_space (c : ascii) : bool :=
  in_range 9 13 c || (code c =? 32)%nat || (code c =? 160)%nat.

Definition is_digit (c : ascii) : bool := in_range 48 57 c.

(** The characters of the class [\w]. *)
Definition is_word (c : ascii) : bool :=
  in_range 97 122 c || in_range 65 90 c || is_digit c || (code c =? 95)%nat.

(** Line terminators, which [.] refuses. *)
Definition is_line_terminator (c : ascii) : bool :=
  (code c =? 10)%nat || (code c =? 13)%nat.

Definition chars (s : string) : list ascii := list_ascii_of_string s.
Definition of_chars (l : list ascii) : string := string_of_list_ascii l.

Definition toUpperCase (s : string) : string :=
  of_chars (map upper (chars s)).

Fixpoint drop_space (l : list ascii) : list ascii :=
  match l with
  | c :: l' => if is_space c then drop_space l' else l
  | [] => []
  end.

(** [String.prototype.trim]. *)
Definition trim (s : string) : string :=
  of_chars (rev (drop_space (rev (drop_space (chars s))))).

(** [s.slice(0, n)]. *)
Definition slice0 (n : nat) (s : string) : string :=
  of_chars (take n (chars s)).

(** [s.substring(i, j)] for [i <= j]. *)
Definition substring (i j : nat) (s : string) : string :=
  of_chars (take (j - i) (drop i (chars s))).

(** The decimal numeral of an integer, as a template literal prints it. *)
Definition decimal (z : Z) : string := NilZero.string_of_int (Z.to_int z).

Definition LF : ascii := ascii_of_nat 10.
Definition CR : ascii := ascii_of_nat 13.
Definition BS : ascii := ascii_of_nat 8.

(** [content.split(/\r?\n/)]: the pieces between line feeds, each without
    the carriage return that precedes its line feed. *)
Fixpoint split_lines_aux (cur : list ascii) (l : list ascii)
  : list (list ascii) :=
  match l with
  | [] => [rev cur]
  | c :: l' =>
      if (code c =? 10)%nat then
        match cur with
        | p :: cur' =>
            if (code p =? 13)%nat then rev cur' :: split_lines_aux [] l'
            else rev cur :: split_lines_aux [] l'
        | [] => [] :: split_lines_aux [] l'
        end
      else split_lines_aux (c :: cur) l'
  end.

Definition split_lines (s : string) : list string :=
  map of_chars (split_lines_aux [] (chars s)).

(** [parts.join(sep)]. *)
Fixpoint join (sep : string) (parts : list string) : string :=
  match parts with
  | [] => ""
  | [p] => p
  | p :: rest => p +:+ sep +:+ join sep rest
  end.

End Str.

(** ** Regular expressions

    The subset of ECMAScript patterns the scanner builds, with the
    backtracking semantics of the language: alternatives are tried left to
    right, quantifiers are greedy, and the first start position that matches
    wins. *)

Module RegExp.

Inductive citem : Type :=
| CChar (c : ascii)
| CRange (lo hi : ascii)
| CWord
| CSpace
| CDigit.

Inductive regex : Type :=
| REmpty
| RChar (c : ascii)
| RAny
| RSet (negated : bool) (items : list citem)
| RBol
| REol
| RWordB (negated : bool)
| RSeq (r1 r2 : regex)
| RAlt (r1 r2 : regex)
| RStar (r : regex)
| RPlus (r : regex)
| ROpt (r : regex)
| RGroup (n : nat) (r : regex).

(** *** Parsing a pattern *)

Definition presult : Type := option (regex * list ascii * nat).

(** An escape inside or outside a class: a class escape, a control
    escape, or an identity escape of a punctuation character. *)
Definition escape_item (c : ascii) : option citem :=
  if bool_decide (c = "w"%char) then Some CWord
  else if bool_decide (c = "s"%char) then Some CSpace
  else if bool_decide (c = "d"%char) then Some CDigit
  else if bool_decide (c = "n"%char) then Some (CChar Str.LF)
  else if bool_decide (c = "r"%char) then Some (CChar Str.CR)
  else if bool_decide (c = "t"%char) then Some (CChar (ascii_of_nat 9))
  else if Str.is_word c then None
  else Some (CChar c).

Fixpoint parse_class (fuel : nat) (cs : list ascii) (acc : list citem)
  : option (list citem * list ascii) :=
  match fuel with
  | O => None
  | S fuel' =>
      match cs with
      | [] => None
      | "]"%char :: cs' => Some (rev acc, cs')
      | "\"%char :: "b"%char :: cs' =>
          parse_class fuel' cs' (CChar Str.BS :: acc)
      | "\"%char :: c :: cs' =>
          match escape_item c with
          | Some it => parse_class fuel' cs' (it :: acc)
          | None => None
          end
      | lo :: "-"%char :: hi :: cs' =>
          if bool_decide (hi = "]"%char)
          then parse_class fuel' ("-"%char :: hi :: cs') (CChar lo :: acc)
          else if bool_decide (hi = "\"%char) then None
          else parse_class fuel' cs' (CRange lo hi :: acc)
      | c :: cs' => parse_class fuel' cs' (CChar c :: acc)
      end
  end.

(** A quantifier after an atom; lazy and counted quantifiers are outside
    the subset. *)
Definition quantified (a : regex) (cs : list ascii) (g : nat) : presult :=
  let lazy_next (cs' : list ascii) :=
    match cs' with
    | "?"%char :: _ => true
    | _ => false
    end in
  match cs with
  | "*"%char :: cs' => if lazy_next cs' then None else Some (RStar a, cs', g)
  | "+"%char :: cs' => if lazy_next cs' then None else Some (RPlus a, cs', g)
  | "?"%char :: cs' => if lazy_next cs' then None else Some (ROpt a, cs', g)
  | "{"%char :: _ => None
  | _ => Some (a, cs, g)
  end.

Definition close_paren (wrap : regex -> regex) (p : presult) : presult :=
  match p with
  | Some (r, ")"%char :: cs', g) => Some (wrap r, cs', g)
  | _ => None
  end.

(** Disjunction, alternative and term of the grammar; [g] counts the
    capturing parentheses opened so far. *)
Fixpoint parse_disj (fuel : nat) (cs : list ascii) (g : nat) : presult :=
  match fuel with
  | O => None
  | S fuel' =>
      match parse_alt fuel' cs g with
      | Some (r1, "|"%char :: cs1, g1) =>
          match parse_disj fuel' cs1 g1 with
          | Some (r2, cs2, g2) => Some (RAlt r1 r2, cs2, g2)
          | None => None
          end
      | other => other
      end
  end
with parse_alt (fuel : nat) (cs : list ascii) (g : nat) : presult :=
  match fuel with
  | O => None
  | S fuel' =>
      match cs with
      | [] => Some (REmpty, cs, g)
      | "|"%char :: _ => Some (REmpty, cs, g)
      | ")"%char :: _ => Some (REmpty, cs, g)
      | _ =>
          match parse_term fuel' cs g with
          | Some (t, cs1, g1) =>
              match parse_alt fuel' cs1 g1 with
              | Some (REmpty, cs2, g2) => Some (t, cs2, g2)
              | Some (r, cs2, g2) => Some (RSeq t r, cs2, g2)
              | None => None
              end
          | None => None
          end
      end
  end
with parse_term (fuel : nat) (cs : list ascii) (g : nat) : presult :=
  match fuel with
  | O => None
  | S fuel' =>
      match cs with
      | "^"%char :: cs' => Some (RBol, cs', g)
      | "$"%char :: cs' => Some (REol, cs', g)
      | "\"%char :: "b"%char :: cs' => Some (RWordB false, cs', g)
      | "\"%char :: "B"%char :: cs' => Some (RWordB true, cs', g)
      | "\"%char :: c :: cs' =>
          match escape_item c with
          | Some (CChar x) => quantified (RChar x) cs' g
          | Some it => quantified (RSet false [it]) cs' g
          | None => None
          end
      | "."%char :: cs' => quantified RAny cs' g
      | "("%char :: "?"%char :: ":"%char :: cs' =>
          match close_paren (fun r => r) (parse_disj fuel' cs' g) with
          | Some (r, cs1, g1) => quantified r cs1 g1
          | None => None
          end
      | "("%char :: "?"%char :: _ => None
      | "("%char :: cs' =>
          match close_paren (RGroup (S g)) (parse_disj fuel' cs' (S g)) with
          | Some (r, cs1, g1) => quantified r cs1 g1
          | None => None
          end
      | "["%char :: "^"%char :: cs' =>
          match parse_class fuel' cs' [] with
          | Some (items, cs1) => quantified (RSet true items) cs1 g
          | None => None
          end
      | "["%char :: cs' =>
          match parse_class fuel' cs' [] with
          | Some (items, cs1) => quantified (RSet false items) cs1 g
          | None => None
          end
      | c :: cs' =>
          if bool_decide (c ∈ Str.chars "*+?)|{\") then None
          else quantified (RChar c) cs' g
      | [] => None
      end
  end.

(** [new RegExp(pattern, flags)]: [None] when the constructor throws (or
    the pattern leaves the subset). *)
Definition compile (pattern : string) : option regex :=
  let cs := Str.chars pattern in
  match parse_disj (3 * S (length cs)) cs 0 with
  | Some (r, [], _) => Some r
  | _ => None
  end.

(** *** Matching *)

(** A position in the subject: the characters before it (nearest first),
    the characters from it on, and the captures recorded so far. *)
Record mstate : Type := MState {
  before : list ascii;
  rest : list ascii;
  caps : list (nat * string)
}.

(** [Canonicalize] under the flag [i]. *)
Definition canon (ignoreCase : bool) (c : ascii) : ascii :=
  if ignoreCase then Str.upper c else c.

Definition item_matches (ignoreCase : bool) (c : ascii) (it : citem)
  : bool :=
  match it with
  | CChar x => bool_decide (canon ignoreCase x = canon ignoreCase c)
  | CRange lo hi =>
      let within (x : ascii) :=
        Str.in_range (Str.code lo) (Str.code hi) x in
      if ignoreCase
      then within c || within (Str.upper c) || within (Str.lower c)
      else within c
  | CWord => Str.is_word c
  | CSpace => Str.is_space c
  | CDigit => Str.is_digit c
  end.

Definition is_word_at (o : option ascii) : bool :=
  match o with
  | Some c => Str.is_word c
  | None => false
  end.

(** Consume one character that satisfies [p]. *)
Definition step (p : ascii -> bool) (st : mstate)
  (k : mstate -> option mstate) : option mstate :=
  match rest st with
  | c :: tl =>
      if p c then k (MState (c :: before st) tl (caps st)) else None
  | [] => None
  end.

Definition guard (b : bool) (st : mstate) (k : mstate -> option mstate)
  : option mstate :=
  if b then k st else None.

(** The text consumed between two positions of one run. *)
Definition consumed (from to : mstate) : string :=
  Str.of_chars
    (rev (take (length (before to) - length (before from)) (before to))).

Fixpoint rmatch (ic : bool) (r : regex) (st : mstate)
  (k : mstate -> option mstate) {struct r} : option mstate :=
  match r with
  | REmpty => k st
  | RChar x => step (fun c => bool_decide (canon ic x = canon ic c)) st k
  | RAny => step (fun c => negb (Str.is_line_terminator c)) st k
  | RSet neg items =>
      step (fun c => xorb neg (existsb (item_matches ic c) items)) st k
  | RBol => guard (bool_decide (before st = [])) st k
  | REol => guard (bool_decide (rest st = [])) st k
  | RWordB neg =>
      guard (xorb neg (xorb (is_word_at (head (before st)))
                            (is_word_at (head (rest st))))) st k
  | RSeq r1 r2 => rmatch ic r1 st (fun st1 => rmatch ic r2 st1 k)
  | RAlt r1 r2 =>
      match rmatch ic r1 st k with
      | Some res => Some res
      | None => rmatch ic r2 st k
      end
  | RStar r1 =>
      (fix loop (fuel : nat) (cur : mstate) : option mstate :=
         match fuel with
         | O => k cur
         | S fuel' =>
             match rmatch ic r1 cur (fun nxt =>
                     if (length (rest nxt) <? length (rest cur))%nat
                     then loop fuel' nxt else None) with
             | Some res => Some res
             | None => k cur
             end
         end) (length (rest st)) st
  | RPlus r1 =>
      rmatch ic r1 st (fun st1 =>
        (fix loop (fuel : nat) (cur : mstate) : option mstate :=
           match fuel with
           | O => k cur
           | S fuel' =>
               match rmatch ic r1 cur (fun nxt =>
                       if (length (rest nxt) <? length (rest cur))%nat
                       then loop fuel' nxt else None) with
               | Some res => Some res
               | None => k cur
               end
           end) (length (rest st1)) st1)
  | ROpt r1 =>
      match rmatch ic r1 st k with
      | Some res => Some res
      | None => k st
      end
  | RGroup n r1 =>
      rmatch ic r1 st (fun st1 =>
        k (MState (before st1) (rest st1)
             ((n, consumed st st1) :: caps st1)))
  end.

(** Try the start positions from left to right. *)
Fixpoint search (ic : bool) (r : regex) (bef : list ascii)
  (l : list ascii) : option (mstate * mstate) :=
  let st := MState bef l [] in
  match rmatch ic r st Some with
  | Some res => Some (st, res)
  | None =>
      match l with
      | c :: tl => search ic r (c :: bef) tl
      | [] => None
      end
  end.

Definition capture (n : nat) (res : mstate) : option string :=
  snd <$> find (fun p => (fst p =? n)%nat) (caps res).

(** [subject.match(re)] for a regular expression without the flag [g]:
    the whole match followed by the captures of groups 1 and 2, or
    [None] for [null]. *)
Definition exec2 (ic : bool) (r : regex) (subject : string)
  : option (string * option string * option string) :=
  match search ic r [] (Str.chars subject) with
  | Some (st, res) => Some (consumed st res, capture 1 res, capture 2 res)
  | None => None
  end.

End RegExp.

(** ** The enumerations of [src/types/index.ts] *)

Inductive DebtSeverity : Type := SevLow | SevMedium | SevHigh | SevCritical.

Inductive DebtCategory : Type :=
| CatCodeQuality | CatPerformance | CatSecurity | CatTesting
| CatDocumentation | CatArchitecture | CatRefactoring | CatOther.

Inductive DebtStatus : Type :=
| OPEN | IN_PROGRESS | REVIEW | RESOLVED | CLOSED.

Inductive DebtPriority : Type := PrioLow | PrioNormal | PrioHigh | PrioUrgent.

#[global] Instance DebtStatus_eq_dec : EqDecision DebtStatus.
Proof. solve_decision. Defined.

(** The string tokens of the enumerations. *)
Definition severity_token (s : DebtSeverity) : string :=
  match s with
  | SevLow => "low" | SevMedium => "medium"
  | SevHigh => "high" | SevCritical => "critical"
  end.

Definition category_token (c : DebtCategory) : string :=
  match c with
  | CatCodeQuality => "code-quality" | CatPerformance => "performance"
  | CatSecurity => "security" | CatTesting => "testing"
  | CatDocumentation => "documentation" | CatArchitecture => "architecture"
  | CatRefactoring => "refactoring" | CatOther => "other"
  end.

Definition status_token (s : DebtStatus) : string :=
  match s with
  | OPEN => "open" | IN_PROGRESS => "in-progress" | REVIEW => "review"
  | RESOLVED => "resolved" | CLOSED => "closed"
  end.

Definition priority_token (p : DebtPriority) : string :=
  match p with
  | PrioLow => "low" | PrioNormal => "normal"
  | PrioHigh => "high" | PrioUrgent => "urgent"
  end.

(** ** The scanner service *)

Module Scanner.

(** [DEFAULTS.DEBT_MARKERS]. *)
Definition DEBT_MARKERS : list string :=
  ["TODO"; "FIXME"; "HACK"; "BUG"; "NOTE"].

(** The part of [ProjectConfig] the extraction reads. *)
Record ProjectConfig : Type := { debtMarkers : list string }.

Record SuggestedDebt : Type := {
  sd_title : string;
  sd_description : string;
  sd_filePath : string;
  sd_lineNumber : nat;
  sd_severity : DebtSeverity;
  sd_category : DebtCategory;
  sd_status : DebtStatus;
  sd_priority : DebtPriority;
  sd_tags : list string
}.

Record ScanResult : Type := {
  filePath : string;
  lineNumber : nat;
  marker : string;
  content : string;
  suggestedDebt : SuggestedDebt
}.

(** The cooked value of the text of a template literal: a backslash
    followed by one of [b f n r t v] is the control character, followed by
    any other character that starts no longer escape it is that character
    itself. *)
Definition single_escape (c : ascii) : option ascii :=
  if bool_decide (c = "b"%char) then Some Str.BS
  else if bool_decide (c = "t"%char) then Some (ascii_of_nat 9)
  else if bool_decide (c = "n"%char) then Some Str.LF
  else if bool_decide (c = "v"%char) then Some (ascii_of_nat 11)
  else if bool_decide (c = "f"%char) then Some (ascii_of_nat 12)
  else if bool_decide (c = "r"%char) then Some Str.CR
  else None.

Fixpoint cook_chars (cs : list ascii) : option (list ascii) :=
  match cs with
  | [] => Some []
  | "\"%char :: c :: cs' =>
      match single_escape c with
      | Some x => cons x <$> cook_chars cs'
      | None =>
          if Str.is_digit c || bool_decide (c = "x"%char)
             || bool_decide (c = "u"%char)
          then None
          else cons c <$> cook_chars cs'
      end
  | c :: cs' => cons c <$> cook_chars cs'
  end.

Definition cook (raw : string) : option string :=
  Str.of_chars <$> cook_chars (Str.chars raw).

(** [value.replace(/[.*+?^${}()|[\]\\]/g, '\\$&')]. *)
Definition escapeRegExp (value : string) : string :=
  Str.of_chars
    (flat_map (fun c =>
       if bool_decide (c ∈ Str.chars ".*+?^${}()|[]\")
       then ["\"%char; c] else [c]) (Str.chars value)).

(** The two literal parts of the template in [extractScanResults], as
    they stand in the source file. *)
Definition template_head : string := "(?:^|[^\w])(".
Definition template_tail : string := ")(?:\b)\s*[:\-]\s*(.+)$".

(** The same template as the command that converts one marker line
    writes it, every backslash doubled. *)
Definition convert_template_head : string := "(?:^|[^\\w])(".
Definition convert_template_tail : string := ")(?:\\b)\\s*[:\-]\\s*(.+)$".

Definition pattern_of (head tail : string) (markers : list string)
  : option string :=
  h ← cook head;
  t ← cook tail;
  Some (h +:+ Str.join "|" (map escapeRegExp markers) +:+ t).

Definition regex_of (head tail : string) (markers : list string)
  : option RegExp.regex :=
  pattern_of head tail markers ≫= RegExp.compile.

Section Extract.

(** [getRelativePath], which depends on the workspace of the host. *)
Variable getRelativePath : string -> string.

Definition buildSuggestedDebt (path : string) (line : nat)
  (mk description : string) : SuggestedDebt :=
  {| sd_title := Str.slice0 100 (mk +:+ ": " +:+ description);
     sd_description := description;
     sd_filePath := getRelativePath path;
     sd_lineNumber := line;
     sd_severity := SevLow;
     sd_category := CatCodeQuality;
     sd_status := OPEN;
     sd_priority := PrioNormal;
     sd_tags := [mk] |}.

(** The loop over the lines; [index] is the index of the first line of
    [lines]. *)
Fixpoint scan_lines (re : RegExp.regex) (path : string) (index : nat)
  (lines : list string) : list ScanResult :=
  match lines with
  | [] => []
  | line :: more =>
      match RegExp.exec2 true re line with
      | None => scan_lines re path (S index) more
      | Some (_, m1, m2) =>
          let mk := Str.toUpperCase (default "" m1) in
          let description := Str.trim (default "" m2) in
          let lineNumberOneBased := (index + 1)%nat in
          {| filePath := getRelativePath path;
             lineNumber := lineNumberOneBased;
             marker := mk;
             content := line;
             suggestedDebt :=
               buildSuggestedDebt path lineNumberOneBased mk description |}
          :: scan_lines re path (S index) more
      end
  end.

Definition extract_with (head tail : string) (path text : string)
  (config : ProjectConfig) : option (list ScanResult) :=
  let markers :=
    match debtMarkers config with
    | [] => DEBT_MARKERS
    | ms => ms
    end in
  re ← regex_of head tail markers;
  Some (scan_lines re path 0 (Str.split_lines text)).

(** [ScannerService.extractScanResults]; [None] stands for the
    exception of the [RegExp] constructor. *)
Definition extractScanResults : string -> string -> ProjectConfig
  -> option (list ScanResult) :=
  extract_with template_head template_tail.

(** The extraction with the pattern of the conversion command. *)
Definition extractWithConvertPattern : string -> string -> ProjectConfig
  -> option (list ScanResult) :=
  extract_with convert_template_head convert_template_tail.

End Extract.

Definition defaultConfig : ProjectConfig := {| debtMarkers := [] |}.

End Scanner.


(** ** JavaScript values

    The values that reach the storage file or come back from it.  A property
    whose value is [undefined] is not represented: reading a missing property
    gives [None].  Own properties added to an array or to a [Date] are not
    represented either; [JSON.stringify] does not emit them. *)

#[local] Unset Elimination Schemes.

Inductive jsval : Type :=
| JNull
| JBool (b : bool)
| JNum (q : Q)
| JStr (s : string)
| JDate (ms : Z)
| JArr (items : list jsval)
| JObj (props : list (string * jsval)).

#[local] Set Elimination Schemes.

(** Induction through the lists of an array and of an object. *)
Definition jsval_ind (P : jsval -> Prop)
  (HNull : P JNull) (HBool : forall b, P (JBool b))
  (HNum : forall q, P (JNum q)) (HStr : forall s, P (JStr s))
  (HDate : forall ms, P (JDate ms))
  (HArr : forall items, Forall P items -> P (JArr items))
  (HObj : forall props, Forall (fun p => P (snd p)) props -> P (JObj props))
  : forall v, P v :=
  fix go (v : jsval) : P v :=
    match v with
    | JNull => HNull
    | JBool b => HBool b
    | JNum q => HNum q
    | JStr s => HStr s
    | JDate ms => HDate ms
    | JArr items =>
        HArr items
          ((fix all (l : list jsval) : Forall P l :=
              match l with
              | [] => @List.Forall_nil _ P
              | x :: l' => @List.Forall_cons _ P x l' (go x) (all l')
              end) items)
    | JObj props =>
        HObj props
          ((fix all (l : list (string * jsval))
              : Forall (fun p => P (snd p)) l :=
              match l with
              | [] => @List.Forall_nil _ _
              | x :: l' => @List.Forall_cons _ _ x l' (go (snd x)) (all l')
              end) props)
    end.

Module Js.

(** [!!v]. *)
Definition truthy (v : jsval) : bool :=
  match v with
  | JNull => false
  | JBool b => b
  | JNum q => negb (Qeq_bool q 0)
  | JStr s => negb (bool_decide (s = ""))
  | JDate _ | JArr _ | JObj _ => true
  end.

Inductive jstype : Type := TObject | TBoolean | TNumber | TString.

Definition typeof (v : jsval) : jstype :=
  match v with
  | JNull | JDate _ | JArr _ | JObj _ => TObject
  | JBool _ => TBoolean
  | JNum _ => TNumber
  | JStr _ => TString
  end.

Definition is_object_type (v : jsval) : bool :=
  match typeof v with
  | TObject => true
  | _ => false
  end.

Definition lookup (k : string) (props : list (string * jsval))
  : option jsval :=
  snd <$> find (fun p => bool_decide (fst p = k)) props.

(** [v.k] where [v] is an object, an array or a date; [None] is
    [undefined]. *)
Definition get (v : jsval) (k : string) : option jsval :=
  match v with
  | JObj props => lookup k props
  | _ => None
  end.

(** [!o] for the result of a property read. *)
Definition falsy (o : option jsval) : bool :=
  match o with
  | Some v => negb (truthy v)
  | None => true
  end.

(** [props[k] = v]: an existing property keeps its place. *)
Fixpoint set (k : string) (v : jsval) (props : list (string * jsval))
  : list (string * jsval) :=
  match props with
  | [] => [(k, v)]
  | (k', v') :: more =>
      if bool_decide (k' = k) then (k, v) :: more
      else (k', v') :: set k v more
  end.

(** [{...a, ...b}] on the property lists. *)
Definition spread (a b : list (string * jsval)) : list (string * jsval) :=
  foldl (fun acc p => set (fst p) (snd p) acc) a b.

(** [v.k = x]. *)
Definition assign (v : jsval) (k : string) (x : jsval) : jsval :=
  match v with
  | JObj props => JObj (set k x props)
  | _ => v
  end.

(** The own enumerable properties a spread copies. *)
Definition own (v : jsval) : list (string * jsval) :=
  match v with
  | JObj props => props
  | _ => []
  end.

(** [Date.prototype.toISOString]: the civil date of a count of
    milliseconds since the epoch. *)
Definition pad (width : nat) (z : Z) : string :=
  let d := Str.chars (Str.decimal z) in
  Str.of_chars (replicate (width - length d) "0"%char ++ d).

Definition civil (days : Z) : Z * Z * Z :=
  let z := (days + 719468)%Z in
  let era := (z / 146097)%Z in
  let doe := (z - era * 146097)%Z in
  let yoe := ((doe - doe / 1460 + doe / 36524 - doe / 146096) / 365)%Z in
  let doy := (doe - (365 * yoe + yoe / 4 - yoe / 100))%Z in
  let mp := ((5 * doy + 2) / 153)%Z in
  let d := (doy - (153 * mp + 2) / 5 + 1)%Z in
  let m := (if (mp <? 10)%Z then mp + 3 else mp - 9)%Z in
  let y := (yoe + era * 400 + (if (m <=? 2)%Z then 1 else 0))%Z in
  (y, m, d).

Definition toISOString (ms : Z) : string :=
  let '(y, m, d) := civil (ms / 86400000) in
  let t := (ms mod 86400000)%Z in
  let year :=
    if ((0 <=? y) && (y <=? 9999))%Z then pad 4 y
    else (if (y <? 0)%Z then "-" else "+") +:+ pad 6 (Z.abs y) in
  year +:+ "-" +:+ pad 2 m +:+ "-" +:+ pad 2 d +:+ "T"
    +:+ pad 2 (t / 3600000) +:+ ":" +:+ pad 2 (t / 60000 mod 60) +:+ ":"
    +:+ pad 2 (t / 1000 mod 60) +:+ "." +:+ pad 3 (t mod 1000) +:+ "Z".

(** [JSON.parse(JSON.stringify(v))]: dates come back as their ISO
    strings, everything else as it was. *)
Fixpoint jsonify (v : jsval) : jsval :=
  match v with
  | JDate ms => JStr (toISOString ms)
  | JArr items => JArr (map jsonify items)
  | JObj props => JObj (map (fun p => (fst p, jsonify (snd p))) props)
  | _ => v
  end.

(** Values that hold no [Date]. *)
Fixpoint plain (v : jsval) : bool :=
  match v with
  | JDate _ => false
  | JArr items => forallb plain items
  | JObj props => forallb (fun p => plain (snd p)) props
  | _ => true
  end.

End Js.


(** ** The host of the storage service

    What the code reads from its environment: the clock ([Date.now()] and
    [new Date()] take the next reading), [Math.random().toString(36)], and
    the process id. *)

Record Host : Type := {
  clock : nat -> Z;
  random : nat -> string;
  pid : Z
}.

(** The text of a file: either the text [JSON.stringify] gives for a value,
    or a text that is no JSON text. *)
Inductive content : Type :=
| JsonText (v : jsval)
| OtherText (s : string).

Record file : Type := File { data : content; mtime : Z }.

(** The storage directory ([None] while it does not exist) with its files
    by name, the [isLocked] field of the service, and how many readings of
    the clock and of the random source were taken. *)
Record state : Type := State {
  dir : option (gmap string file);
  isLocked : bool;
  tick : nat;
  draws : nat
}.

Definition result (A : Type) : Type := (string + A)%type.

(** Computations that read and write the state and may throw; the state
    survives a throw. *)
Definition M (A : Type) : Type := state -> result A * state.

Module Eff.

Definition ret {A} (a : A) : M A := fun s => (inr a, s).

Definition throw {A} (msg : string) : M A := fun s => (inl msg, s).

Definition bind {A B} (m : M A) (f : A -> M B) : M B :=
  fun s =>
    match m s with
    | (inr a, s') => f a s'
    | (inl e, s') => (inl e, s')
    end.

(** [try { m } catch (error) { h error.message }]. *)
Definition catch {A} (m : M A) (h : string -> M A) : M A :=
  fun s =>
    match m s with
    | (inl e, s') => h e s'
    | done => done
    end.

(** [try { m } finally { f }]. *)
Definition finally {A} (m : M A) (f : M unit) : M A :=
  fun s =>
    match m s with
    | (r, s') =>
        match f s' with
        | (inl e, s'') => (inl e, s'')
        | (inr _, s'') => (r, s'')
        end
    end.

Definition lift {A} (r : result A) : M A := fun s => (r, s).

Definition gets {A} (f : state -> A) : M A := fun s => (inr (f s), s).

Definition modify (f : state -> state) : M unit := fun s => (inr tt, f s).

End Eff.

Notation "'do' x <- m ; k" := (Eff.bind m (fun x => k))
  (at level 10, x name, m at level 100, k at level 200,
   format "'[v' 'do'  x  <-  m ; '/' k ']'").
Notation "'do_' m ; k" := (Eff.bind m (fun _ => k))
  (at level 10, m at level 100, k at level 200,
   format "'[v' 'do_'  m ; '/' k ']'").

(** Pure code that may throw. *)
Module Res.

Definition bind {A B} (r : result A) (f : A -> result B) : result B :=
  match r with
  | inr a => f a
  | inl e => inl e
  end.

Definition require (b : bool) (msg : string) : result unit :=
  if b then inr tt else inl msg.

End Res.

Notation "'ensure' r ; k" := (Res.bind r (fun _ => k))
  (at level 10, r at level 100, k at level 200,
   format "'[v' 'ensure'  r ; '/' k ']'").

(** ** The storage service *)

Module Storage.

(** The files of the storage directory, by their names in it. *)
Definition storageFile : string := "debts.json".
Definition lockFile : string := ".lock".

Definition ENOENT : string := "ENOENT: no such file or directory".

Definition files (s : state) : gmap string file := default ∅ (dir s).

Definition set_dir (d : option (gmap string file)) (s : state) : state :=
  State d (isLocked s) (tick s) (draws s).

Definition set_isLocked (b : bool) (s : state) : state :=
  State (dir s) b (tick s) (draws s).

Section Host.

Variable host : Host.

(** *** The host functions *)

Definition Date_now : M Z :=
  fun s => (inr (clock host (tick s)),
            State (dir s) (isLocked s) (S (tick s)) (draws s)).

Definition Math_random_base36 : M string :=
  fun s => (inr (random host (draws s)),
            State (dir s) (isLocked s) (tick s) (S (draws s))).

Definition existsSync (name : string) : M bool :=
  Eff.gets (fun s => bool_decide (is_Some (files s !! name))).

Definition dirExistsSync : M bool :=
  Eff.gets (fun s => bool_decide (is_Some (dir s))).

Definition mkdirSync : M unit :=
  Eff.modify (fun s => set_dir (Some (files s)) s).

Definition readFileSync (name : string) : M content :=
  fun s =>
    match files s !! name with
    | Some f => (inr (data f), s)
    | None => (inl ENOENT, s)
    end.

Definition statSync_mtime (name : string) : M Z :=
  fun s =>
    match files s !! name with
    | Some f => (inr (mtime f), s)
    | None => (inl ENOENT, s)
    end.

(** A write stamps the file with the time of the clock. *)
Definition writeFileSync (name : string) (c : content) : M unit :=
  fun s =>
    match dir s with
    | Some m =>
        (inr tt,
         set_dir (Some (<[name := File c (clock host (tick s))]> m)) s)
    | None => (inl ENOENT, s)
    end.

Definition unlinkSync (name : string) : M unit :=
  fun s =>
    match dir s with
    | Some m =>
        match m !! name with
        | Some _ => (inr tt, set_dir (Some (delete name m)) s)
        | None => (inl ENOENT, s)
        end
    | None => (inl ENOENT, s)
    end.

Definition copyFileSync (src dst : string) : M unit :=
  do c <- readFileSync src;
  writeFileSync dst c.

(** [JSON.parse] and [JSON.stringify(data, null, 2)]. *)
Definition JSON_parse (c : content) : result jsval :=
  match c with
  | JsonText v => inr (Js.jsonify v)
  | OtherText _ => inl "Unexpected token in JSON"
  end.

Definition JSON_stringify (v : jsval) : content := JsonText v.

(** *** Locking *)

Definition acquireLock : M unit :=
  do locked <- Eff.gets isLocked;
  if locked then Eff.throw "Storage is already locked"
  else
    Eff.catch
      (do present <- existsSync lockFile;
       do_ (if present then
              do lockMtime <- statSync_mtime lockFile;
              do now <- Date_now;
              let lockAge := (now - lockMtime)%Z in
              if (lockAge <? 30000)%Z
              then Eff.throw "Storage is locked by another process"
              else unlinkSync lockFile
            else Eff.ret tt);
       do_ writeFileSync lockFile (JSON_stringify (JNum (inject_Z (pid host))));
       Eff.modify (set_isLocked true))
      (fun e => Eff.throw ("Failed to acquire lock: " +:+ e)).

Definition releaseLock : M unit :=
  do locked <- Eff.gets isLocked;
  if negb locked then Eff.ret tt
  else
    Eff.catch
      (do present <- existsSync lockFile;
       do_ (if present then unlinkSync lockFile else Eff.ret tt);
       Eff.modify (set_isLocked false))
      (fun _ => Eff.modify (set_isLocked false)).

(** *** Structural validation *)

Definition requiredFields : list string :=
  ["id"; "title"; "description"; "filePath"; "lineNumber"; "severity";
   "category"; "status"; "priority"].

(** [field in debt]; a primitive on the right is a [TypeError]. *)
Definition has_field (debt : jsval) (field : string) : result bool :=
  match debt with
  | JObj props => inr (bool_decide (is_Some (Js.lookup field props)))
  | JArr _ => inr (bool_decide (field = "length"))
  | JDate _ => inr false
  | _ => inl ("Cannot use 'in' operator to search for '" +:+ field +:+ "'")
  end.

Fixpoint check_required (debt : jsval) (fields : list string)
  : result unit :=
  match fields with
  | [] => inr tt
  | field :: more =>
      Res.bind (has_field debt field) (fun present =>
        if present then check_required debt more
        else inl ("Invalid debt structure: missing required field '"
                  +:+ field +:+ "'"))
  end.

(** [typeof x !== 'string' || x.trim() === ''], negated. *)
Definition nonblank_string (o : option jsval) : bool :=
  match o with
  | Some (JStr s) => negb (bool_decide (Str.trim s = ""))
  | _ => false
  end.

(** [a < b] on numbers. *)
Definition num_lt (a b : Q) : bool := negb (Qle_bool b a).

(** [typeof x !== 'number' || x < 1], negated. *)
Definition positive_number (o : option jsval) : bool :=
  match o with
  | Some (JNum q) => negb (num_lt q 1)
  | _ => false
  end.

Definition validateDebtStructure (debt : jsval) : result unit :=
  ensure check_required debt requiredFields;
  ensure Res.require (nonblank_string (Js.get debt "id"))
    "Invalid debt structure: id must be a non-empty string";
  ensure Res.require (nonblank_string (Js.get debt "title"))
    "Invalid debt structure: title must be a non-empty string";
  ensure Res.require (nonblank_string (Js.get debt "filePath"))
    "Invalid debt structure: filePath must be a non-empty string";
  Res.require (positive_number (Js.get debt "lineNumber"))
    "Invalid debt structure: lineNumber must be a positive number".

Fixpoint validate_each (debts : list jsval) : result unit :=
  match debts with
  | [] => inr tt
  | debt :: more =>
      ensure validateDebtStructure debt;
      validate_each more
  end.

(** [!x || typeof x !== 'object'], negated. *)
Definition is_object (o : option jsval) : bool :=
  match o with
  | Some v => Js.truthy v && Js.is_object_type v
  | None => false
  end.

Definition validateDataStructure (data : jsval) : result unit :=
  ensure Res.require (is_object (Some data))
    "Invalid data structure: data must be an object";
  match Js.get data "debts" with
  | Some (JArr debts) =>
      ensure Res.require (is_object (Js.get data "metadata"))
        "Invalid data structure: metadata must be an object";
      ensure Res.require (is_object (Js.get data "settings"))
        "Invalid data structure: settings must be an object";
      validate_each debts
  | _ => inl "Invalid data structure: debts must be an array"
  end.

(** [data.debts] of a validated document. *)
Definition debts_of (data : jsval) : list jsval :=
  match Js.get data "debts" with
  | Some (JArr debts) => debts
  | _ => []
  end.

Definition with_debts (data : jsval) (debts : list jsval) : jsval :=
  Js.assign data "debts" (JArr debts).

(** *** Reading and writing the document *)

Definition readData : M jsval :=
  Eff.finally
    (Eff.catch
       (do_ acquireLock;
        do present <- existsSync storageFile;
        if negb present then Eff.throw "Storage file not found"
        else
          do fileContent <- readFileSync storageFile;
          do parsed <- Eff.lift (JSON_parse fileContent);
          do_ Eff.lift (validateDataStructure parsed);
          Eff.ret parsed)
       (fun e => Eff.throw ("Failed to read storage data: " +:+ e)))
    releaseLock.

(** The two assignments to [data.metadata] before the write. *)
Definition stamp (now : Z) (data : jsval) : jsval :=
  match Js.get data "metadata" with
  | Some metadata =>
      let m1 := Js.assign metadata "lastUpdated"
                  (JStr (Js.toISOString now)) in
      let m2 := Js.assign m1 "totalDebts"
                  (JNum (inject_Z (Z.of_nat (length (debts_of data))))) in
      Js.assign data "metadata" m2
  | None => data
  end.

Definition writeData (data : jsval) : M unit :=
  Eff.finally
    (Eff.catch
       (do_ acquireLock;
        do_ Eff.lift (validateDataStructure data);
        do now <- Date_now;
        let stamped := stamp now data in
        do there <- dirExistsSync;
        do_ (if negb there then mkdirSync else Eff.ret tt);
        writeFileSync storageFile (JSON_stringify stamped))
       (fun e => Eff.throw ("Failed to write storage data: " +:+ e)))
    releaseLock.

(** [backupCorruptedFile]; the warning shown to the user is left out. *)
Definition backupCorruptedFile : M unit :=
  Eff.catch
    (do present <- existsSync storageFile;
     if present then
       do now <- Date_now;
       let backupPath := storageFile +:+ ".backup." +:+ Str.decimal now in
       copyFileSync storageFile backupPath
     else Eff.ret tt)
    (fun _ => Eff.ret tt).

Definition validateStorageFile : M unit :=
  Eff.catch
    (do present <- existsSync storageFile;
     if negb present then Eff.ret tt
     else
       do fileContent <- readFileSync storageFile;
       do parsed <- Eff.lift (JSON_parse fileContent);
       Eff.lift (validateDataStructure parsed))
    (fun _ =>
       do_ backupCorruptedFile;
       Eff.throw "Storage file is corrupted and has been backed up").

(** *** The entries *)

(** [Omit<TechnicalDebt, 'id' | 'createdAt' | 'updatedAt'>]. *)
Record DebtInput : Type := {
  in_title : string;
  in_description : string;
  in_filePath : string;
  in_lineNumber : Q;
  in_severity : DebtSeverity;
  in_category : DebtCategory;
  in_status : DebtStatus;
  in_priority : DebtPriority;
  in_dueDate : option Z;
  in_tags : list string;
  in_context : option string;
  in_assignee : option string;
  in_estimatedEffort : option string;
  in_notes : option string
}.

(** [Partial<Omit<TechnicalDebt, 'id' | 'createdAt'>>]: [None] for a
    property the caller left out. *)
Record DebtUpdates : Type := {
  up_title : option string;
  up_description : option string;
  up_filePath : option string;
  up_lineNumber : option Q;
  up_severity : option DebtSeverity;
  up_category : option DebtCategory;
  up_status : option DebtStatus;
  up_priority : option DebtPriority;
  up_updatedAt : option Z;
  up_dueDate : option Z;
  up_tags : option (list string);
  up_context : option string;
  up_assignee : option string;
  up_estimatedEffort : option string;
  up_notes : option string
}.

Definition prop_opt (k : string) (o : option jsval)
  : list (string * jsval) :=
  match o with
  | Some v => [(k, v)]
  | None => []
  end.

Definition tags_value (tags : list string) : jsval := JArr (map JStr tags).

(** The object a caller passes for a [DebtInput]. *)
Definition input_props (d : DebtInput) : list (string * jsval) :=
  [("title", JStr (in_title d));
   ("description", JStr (in_description d));
   ("filePath", JStr (in_filePath d));
   ("lineNumber", JNum (in_lineNumber d));
   ("severity", JStr (severity_token (in_severity d)));
   ("category", JStr (category_token (in_category d)));
   ("status", JStr (status_token (in_status d)));
   ("priority", JStr (priority_token (in_priority d)))]
  ++ prop_opt "dueDate" (JDate <$> in_dueDate d)
  ++ [("tags", tags_value (in_tags d))]
  ++ prop_opt "context" (JStr <$> in_context d)
  ++ prop_opt "assignee" (JStr <$> in_assignee d)
  ++ prop_opt "estimatedEffort" (JStr <$> in_estimatedEffort d)
  ++ prop_opt "notes" (JStr <$> in_notes d).

(** The object a caller passes for a [DebtUpdates]. *)
Definition update_props (u : DebtUpdates) : list (string * jsval) :=
  prop_opt "title" (JStr <$> up_title u)
  ++ prop_opt "description" (JStr <$> up_description u)
  ++ prop_opt "filePath" (JStr <$> up_filePath u)
  ++ prop_opt "lineNumber" (JNum <$> up_lineNumber u)
  ++ prop_opt "severity" (JStr ∘ severity_token <$> up_severity u)
  ++ prop_opt "category" (JStr ∘ category_token <$> up_category u)
  ++ prop_opt "status" (JStr ∘ status_token <$> up_status u)
  ++ prop_opt "priority" (JStr ∘ priority_token <$> up_priority u)
  ++ prop_opt "updatedAt" (JDate <$> up_updatedAt u)
  ++ prop_opt "dueDate" (JDate <$> up_dueDate u)
  ++ prop_opt "tags" (tags_value <$> up_tags u)
  ++ prop_opt "context" (JStr <$> up_context u)
  ++ prop_opt "assignee" (JStr <$> up_assignee u)
  ++ prop_opt "estimatedEffort" (JStr <$> up_estimatedEffort u)
  ++ prop_opt "notes" (JStr <$> up_notes u).

(** [DEFAULTS.DEBT_ID_PREFIX]. *)
Definition DEBT_ID_PREFIX : string := "debt".

Definition generateDebtId : M string :=
  do timestamp <- Date_now;
  do base36 <- Math_random_base36;
  let suffix := Str.substring 2 8 base36 in
  Eff.ret (DEBT_ID_PREFIX +:+ "-" +:+ Str.decimal timestamp
           +:+ "-" +:+ suffix).

(** [debt.id === id]. *)
Definition has_id (id : string) (debt : jsval) : bool :=
  match Js.get debt "id" with
  | Some (JStr s) => bool_decide (s = id)
  | _ => false
  end.

(** [debts.findIndex(p)]; [None] for [-1]. *)
Fixpoint findIndex (p : jsval -> bool) (debts : list jsval)
  : option nat :=
  match debts with
  | [] => None
  | debt :: more => if p debt then Some 0%nat else S <$> findIndex p more
  end.

Definition addDebt (debt : DebtInput) : M jsval :=
  Eff.catch
    (do stored <- readData;
     do id <- generateDebtId;
     do createdAt <- Date_now;
     do updatedAt <- Date_now;
     let newDebt :=
       JObj (Js.set "updatedAt" (JDate updatedAt)
               (Js.set "createdAt" (JDate createdAt)
                  (Js.set "id" (JStr id) (input_props debt)))) in
     do_ writeData (with_debts stored (debts_of stored ++ [newDebt]));
     Eff.ret newDebt)
    (fun e => Eff.throw ("Failed to add debt: " +:+ e)).

Definition updateDebt (id : string) (updates : DebtUpdates) : M jsval :=
  Eff.catch
    (do stored <- readData;
     match findIndex (has_id id) (debts_of stored) with
     | None => Eff.throw ("Debt with id " +:+ id +:+ " not found")
     | Some debtIndex =>
         do updatedAt <- Date_now;
         let current := default JNull (debts_of stored !! debtIndex) in
         let updatedDebt :=
           JObj (Js.set "updatedAt" (JDate updatedAt)
                   (Js.spread (Js.own current) (update_props updates))) in
         do_ writeData
               (with_debts stored
                  (<[debtIndex := updatedDebt]> (debts_of stored)));
         Eff.ret updatedDebt
     end)
    (fun e => Eff.throw ("Failed to update debt: " +:+ e)).

Definition deleteDebt (id : string) : M unit :=
  Eff.catch
    (do stored <- readData;
     match findIndex (has_id id) (debts_of stored) with
     | None => Eff.throw ("Debt with id " +:+ id +:+ " not found")
     | Some debtIndex =>
         writeData (with_debts stored (delete debtIndex (debts_of stored)))
     end)
    (fun e => Eff.throw ("Failed to delete debt: " +:+ e)).

(** [None] is [null]. *)
Definition getDebt (id : string) : M (option jsval) :=
  Eff.catch
    (do stored <- readData;
     Eff.ret (find (has_id id) (debts_of stored)))
    (fun e => Eff.throw ("Failed to get debt: " +:+ e)).

Definition getAllDebts : M (list jsval) :=
  Eff.catch
    (do stored <- readData;
     Eff.ret (debts_of stored))
    (fun e => Eff.throw ("Failed to get all debts: " +:+ e)).

End Host.

End Storage.

(** ** The debt service *)

Module DebtService.

Import Storage.

(** [DebtService.allowedStatusTransitions]. *)
Definition allowedStatusTransitions (from : DebtStatus) : list DebtStatus :=
  match from with
  | OPEN => [IN_PROGRESS; REVIEW; RESOLVED; CLOSED]
  | IN_PROGRESS => [REVIEW; RESOLVED; OPEN]
  | REVIEW => [RESOLVED; IN_PROGRESS; OPEN]
  | RESOLVED => [CLOSED; OPEN]
  | CLOSED => [OPEN]
  end.

Definition all_statuses : list DebtStatus :=
  [OPEN; IN_PROGRESS; REVIEW; RESOLVED; CLOSED].

Definition status_of_token (s : string) : option DebtStatus :=
  find (fun st => bool_decide (status_token st = s)) all_statuses.

(** The names every object inherits from [Object.prototype]. *)
Definition inherited_names : list string :=
  ["constructor"; "toString"; "toLocaleString"; "valueOf";
   "hasOwnProperty"; "isPrototypeOf"; "propertyIsEnumerable"; "__proto__";
   "__defineGetter__"; "__defineSetter__"; "__lookupGetter__";
   "__lookupSetter__"].

(** What [allowedStatusTransitions[status]] evaluates to: a row of the
    table, an inherited member that is no array, or [undefined]. *)
Inductive row : Type :=
| Row (allowed : list DebtStatus)
| Inherited
| NoRow.

(** Only string keys are looked up; a status of another kind is taken to
    name no row. *)
Definition transitions_row (status : option jsval) : row :=
  match status with
  | Some (JStr s) =>
      match status_of_token s with
      | Some st => Row (allowedStatusTransitions st)
      | None =>
          if bool_decide (s ∈ inherited_names) then Inherited else NoRow
      end
  | _ => NoRow
  end.

(** The text of a status inside a template literal. *)
Definition status_text (status : option jsval) : string :=
  match status with
  | Some (JStr s) => s
  | Some JNull => "null"
  | Some (JBool true) => "true"
  | Some (JBool false) => "false"
  | None => "undefined"
  | _ => "[object]"
  end.

(** *** [validateDebtEntry] *)

(** [!x || x.trim().length === 0]; [trim] exists on strings only. *)
Definition blank (o : option jsval) : result bool :=
  if Js.falsy o then inr true
  else
    match o with
    | Some (JStr s) => inr (String.length (Str.trim s) =? 0)%nat
    | _ => inl "trim is not a function"
    end.

(** [x && x.length > n]; reached with a string or a falsy value only,
    since [blank] threw on anything else. *)
Definition longer_than (n : nat) (o : option jsval) : bool :=
  match o with
  | Some (JStr s) => (n <? String.length s)%nat
  | _ => false
  end.

(** [x === undefined || x < 0]; the comparison of a string, an array or
    an object with [0] is not modelled: the callers pass a number. *)
Definition missing_or_negative (o : option jsval) : bool :=
  match o with
  | None => true
  | Some (JNum q) => num_lt q 0
  | Some (JDate ms) => (ms <? 0)%Z
  | Some _ => false
  end.

Definition validateDebtEntry (debt : jsval) : result (list string) :=
  Res.bind (blank (Js.get debt "title")) (fun noTitle =>
  Res.bind (blank (Js.get debt "description")) (fun noDescription =>
    inr
      ((if noTitle then ["Title is required"] else [])
       ++ (if noDescription then ["Description is required"] else [])
       ++ (if Js.falsy (Js.get debt "filePath")
           then ["File path is required"] else [])
       ++ (if missing_or_negative (Js.get debt "lineNumber")
           then ["Valid line number is required"] else [])
       ++ (if longer_than 100 (Js.get debt "title")
           then ["Title must be 100 characters or less"] else [])
       ++ (if longer_than 500 (Js.get debt "description")
           then ["Description must be 500 characters or less"] else [])))).

Section Host.

Variable host : Host.

Definition createDebt (debt : DebtInput) : M jsval :=
  do validationErrors <-
    Eff.lift (validateDebtEntry (JObj (input_props debt)));
  if (0 <? length validationErrors)%nat
  then Eff.throw ("Invalid debt entry: "
                  +:+ Str.join "; " validationErrors)
  else addDebt host debt.

Definition getDebt (id : string) : M (option jsval) :=
  Storage.getDebt host id.

Definition getAllDebts : M (list jsval) := Storage.getAllDebts host.

Definition updateDebt (id : string) (updates : DebtUpdates) : M jsval :=
  do existing <- Storage.getDebt host id;
  match existing with
  | None => Eff.throw ("Debt with id " +:+ id +:+ " not found")
  | Some current =>
      let merged :=
        JObj (Js.spread (Js.own current) (update_props updates)) in
      do validationErrors <- Eff.lift (validateDebtEntry merged);
      if (0 <? length validationErrors)%nat
      then Eff.throw ("Invalid update: "
                      +:+ Str.join "; " validationErrors)
      else Storage.updateDebt host id updates
  end.

Definition deleteDebt (id : string) : M unit :=
  Storage.deleteDebt host id.

(** [{ status: newStatus }]. *)
Definition status_update (newStatus : DebtStatus) : DebtUpdates :=
  {| up_title := None; up_description := None; up_filePath := None;
     up_lineNumber := None; up_severity := None; up_category := None;
     up_status := Some newStatus; up_priority := None;
     up_updatedAt := None; up_dueDate := None; up_tags := None;
     up_context := None; up_assignee := None;
     up_estimatedEffort := None; up_notes := None |}.

Definition transitionStatus (id : string) (newStatus : DebtStatus)
  : M jsval :=
  do found <- Storage.getDebt host id;
  match found with
  | None => Eff.throw ("Debt with id " +:+ id +:+ " not found")
  | Some debt =>
      let status := Js.get debt "status" in
      let invalid : M jsval :=
        Eff.throw ("Invalid status transition from '"
                   +:+ status_text status +:+ "' to '"
                   +:+ status_token newStatus +:+ "'") in
      match transitions_row status with
      | Row allowed =>
          if bool_decide (newStatus ∈ allowed)
          then Storage.updateDebt host id (status_update newStatus)
          else invalid
      | NoRow => invalid
      | Inherited => Eff.throw "allowed.includes is not a function"
      end
  end.

End Host.

End DebtService.

(** ** The vocabulary of the properties *)

(** The shape of the documents the structural validation accepts. *)
Module Shape.

Import Js Storage.

(** An entry the validation accepts: an object that has the nine required
    properties, whose [id], [title] and [filePath] are strings with a
    character that is no white space, and whose [lineNumber] is a number
    not below one. *)
Definition entry_wf (debt : jsval) : Prop :=
  exists props,
    debt = JObj props
    /\ Forall (fun field => is_Some (lookup field props)) requiredFields
    /\ nonblank_string (lookup "id" props) = true
    /\ nonblank_string (lookup "title" props) = true
    /\ nonblank_string (lookup "filePath" props) = true
    /\ positive_number (lookup "lineNumber" props) = true.

(** A document the validation accepts. *)
Definition doc_wf (data : jsval) : Prop :=
  exists props debts,
    data = JObj props
    /\ lookup "debts" props = Some (JArr debts)
    /\ is_object (lookup "metadata" props) = true
    /\ is_object (lookup "settings" props) = true
    /\ Forall entry_wf debts.

(** The kinds of value [is_object] accepts and a JSON text can hold. *)
Definition structured (o : option jsval) : bool :=
  match o with
  | Some (JObj _) | Some (JArr _) => true
  | _ => false
  end.

End Shape.

(** The states and values the operations go through. *)
Module Trace.

Import Js Storage.

Section Host.

Variable host : Host.

(** The text of the lock file. *)
Definition lockText : content := JsonText (JNum (inject_Z (pid host))).

(** The outcome of [readData] once the lock is taken. *)
Definition read_outcome (m : gmap string file) : result jsval :=
  match m !! storageFile with
  | None => inl "Failed to read storage data: Storage file not found"
  | Some f =>
      match JSON_parse (data f) with
      | inl e => inl ("Failed to read storage data: " +:+ e)
      | inr parsed =>
          match validateDataStructure parsed with
          | inl e => inl ("Failed to read storage data: " +:+ e)
          | inr _ => inr parsed
          end
      end
  end.

(** The directory after a write of [d] at the reading [t] of the clock. *)
Definition written (m : gmap string file) (t : nat) (d : jsval)
  : gmap string file :=
  <[storageFile :=
      File (JsonText (stamp (clock host t) d)) (clock host (S t))]> m.

(** The identifier and the entry [addDebt] builds from the readings
    [t], [t + 1], [t + 2] of the clock and the draw [r]. *)
Definition debt_id (t r : nat) : string :=
  "debt-" +:+ Str.decimal (clock host t) +:+ "-"
    +:+ Str.substring 2 8 (random host r).

Definition new_entry (t r : nat) (debt : DebtInput) : jsval :=
  JObj (set "updatedAt" (JDate (clock host (S (S t))))
          (set "createdAt" (JDate (clock host (S t)))
             (set "id" (JStr (debt_id t r)) (input_props debt)))).

Definition updated_entry (t : nat) (current : jsval) (u : DebtUpdates)
  : jsval :=
  JObj (set "updatedAt" (JDate (clock host t))
          (spread (own current) (update_props u))).

End Host.

End Trace.

(** The inputs and the errors of the operations. *)
Module Outcome.

Import Js Storage.

(** The message of a refused acquisition, as the caller receives it. *)
Definition contention : string :=
  "Failed to acquire lock: Storage is locked by another process".

(** A text that is empty once trimmed. *)
Definition blank_text (s : string) : bool := bool_decide (Str.trim s = "").

(** What [validateDebtEntry] refuses in an input. *)
Definition entry_rejected (d : DebtInput) : bool :=
  blank_text (in_title d) || blank_text (in_description d)
  || bool_decide (in_filePath d = "") || num_lt (in_lineNumber d) 0
  || (100 <? String.length (in_title d))%nat
  || (500 <? String.length (in_description d))%nat.

(** What [validateDebtStructure] refuses in the entry built from it. *)
Definition structure_rejected (d : DebtInput) : bool :=
  blank_text (in_title d) || blank_text (in_filePath d)
  || num_lt (in_lineNumber d) 1.

(** The inputs [createDebt] refuses. *)
Definition rejected (d : DebtInput) : bool :=
  blank_text (in_title d) || blank_text (in_description d)
  || blank_text (in_filePath d)
  || (100 <? String.length (in_title d))%nat
  || (500 <? String.length (in_description d))%nat
  || num_lt (in_lineNumber d) 1.

(** The inputs the specification says it refuses. *)
Definition rejected_as_specified (d : DebtInput) : bool :=
  bool_decide (in_title d = "") || bool_decide (in_description d = "")
  || bool_decide (in_filePath d = "")
  || (100 <? String.length (in_title d))%nat
  || (500 <? String.length (in_description d))%nat
  || num_lt (in_lineNumber d) 1.

End Outcome.

(** ** Sample data *)

Module Sample.

Import Storage.

Definition host : Host :=
  {| clock := fun n => (1700000000000 + 7 * Z.of_nat n)%Z;
     random := fun n => "0.k3x9q0zb" +:+ Str.decimal (Z.of_nat n);
     pid := 4242 |}.

(** A host whose clock and random source stand still. *)
Definition frozenHost : Host :=
  {| clock := fun _ => 1700000000000%Z;
     random := fun _ => "0.k3x9q0zb";
     pid := 4242 |}.

Definition input : DebtInput :=
  {| in_title := "Test Debt";
     in_description := "Test description";
     in_filePath := "test.ts";
     in_lineNumber := 10;
     in_severity := SevMedium;
     in_category := CatCodeQuality;
     in_status := OPEN;
     in_priority := PrioNormal;
     in_dueDate := None;
     in_tags := ["test"];
     in_context := None;
     in_assignee := None;
     in_estimatedEffort := None;
     in_notes := None |}.

(** The same input with a title of one space. *)
Definition blankTitleInput : DebtInput :=
  {| in_title := " ";
     in_description := "Test description";
     in_filePath := "test.ts";
     in_lineNumber := 10;
     in_severity := SevMedium;
     in_category := CatCodeQuality;
     in_status := OPEN;
     in_priority := PrioNormal;
     in_dueDate := None;
     in_tags := ["test"];
     in_context := None;
     in_assignee := None;
     in_estimatedEffort := None;
     in_notes := None |}.

Definition metadata : jsval :=
  JObj [("version", JStr "1.0.0");
        ("lastUpdated", JStr "2023-11-14T22:13:20.000Z");
        ("totalDebts", JNum 0);
        ("projectName", JStr "demo")].

Definition settings : jsval :=
  JObj [("githubIntegration", JBool false);
        ("autoCommit", JBool false);
        ("autoPush", JBool false);
        ("commitMessageTemplate",
         JStr "fix: update technical debt - {count} items")].

Definition document (debts : list jsval) : jsval :=
  JObj [("debts", JArr debts); ("metadata", metadata);
        ("settings", settings)].

(** The document [initialize] seeds. *)
Definition emptyDocument : jsval := document [].

(** A stored entry, with its timestamps as the file holds them. *)
Definition entry (id : string) (status : DebtStatus) : jsval :=
  JObj [("title", JStr "Test Debt");
        ("description", JStr "Test description");
        ("filePath", JStr "test.ts");
        ("lineNumber", JNum 10);
        ("severity", JStr "medium");
        ("category", JStr "code-quality");
        ("status", JStr (status_token status));
        ("priority", JStr "normal");
        ("tags", JArr [JStr "test"]);
        ("id", JStr id);
        ("createdAt", JStr "2023-11-14T22:13:20.000Z");
        ("updatedAt", JStr "2023-11-14T22:13:20.000Z")].



(** The storage directory with the storage file only. *)
Definition store_with (c : content) : state :=
  State (Some {[ storageFile := File c 0 ]}) false 0 0.

Definition store (debts : list jsval) : state :=
  store_with (JsonText (document debts)).

Definition fresh : state := store [].

Definition corrupt : state := store_with (OtherText "invalid json content").


(** Another process left a lock file [age] milliseconds ago. *)
Definition lockedByOther (age : Z) : state :=
  State (Some {[ lockFile := File (JsonText (JNum 77))
                                (1700000000000 - age)%Z;
                 storageFile := File (JsonText emptyDocument) 0 ]})
    false 0 0.

(** [{ title: 'Renamed' }]. *)
Definition retitle : DebtUpdates :=
  {| up_title := Some "Renamed"; up_description := None;
     up_filePath := None; up_lineNumber := None; up_severity := None;
     up_category := None; up_status := None; up_priority := None;
     up_updatedAt := None; up_dueDate := None; up_tags := None;
     up_context := None; up_assignee := None;
     up_estimatedEffort := None; up_notes := None |}.

End Sample.

(** ** The rest of the storage service

    [initialize], the queries by file and by status, the settings, the
    metadata, [isAccessible] and [dispose] of
    [src/services/storage-service.ts]. *)

Module StorageApi.

Import Storage.




(** [debt.filePath === filePath] and [debt.status === status]. *)
Definition has_text (key text : string) (debt : jsval) : bool :=
  match Js.get debt key with
  | Some (JStr s) => bool_decide (s = text)
  | _ => false
  end.

Section Host.

Variable host : Host.

(** [path.basename(this.workspaceRoot)]. *)
Variable projectName : string.

(** The document [initialize] writes when there is no storage file. *)
Definition initialData (now : Z) : jsval :=
  JObj [("debts", JArr []);
        ("metadata",
         JObj [("version", JStr "1.0.0");
               ("lastUpdated", JStr (Js.toISOString now));
               ("totalDebts", JNum 0);
               ("projectName", JStr projectName)]);
        ("settings",
         JObj [("githubIntegration", JBool false);
               ("autoCommit", JBool false);
               ("autoPush", JBool false);
               ("commitMessageTemplate",
                JStr "fix: update technical debt - {count} items")])].

Definition initialize : M unit :=
  Eff.catch
    (do there <- dirExistsSync;
     do_ (if negb there then mkdirSync else Eff.ret tt);
     do present <- existsSync storageFile;
     do_ (if negb present then
            do now <- Date_now host;
            writeData host (initialData now)
          else Eff.ret tt);
     validateStorageFile host)
    (fun e => Eff.throw ("Failed to initialize storage: " +:+ e)).

Definition getDebtsByFile (filePath : string) : M (list jsval) :=
  Eff.catch
    (do stored <- readData host;
     Eff.ret (List.filter (has_text "filePath" filePath) (debts_of stored)))
    (fun e => Eff.throw ("Failed to get debts by file: " +:+ e)).



(** [None] is [undefined]. *)
Definition getSettings : M (option jsval) :=
  Eff.catch
    (do stored <- readData host;
     Eff.ret (Js.get stored "settings"))
    (fun e => Eff.throw ("Failed to get settings: " +:+ e)).

Definition getMetadata : M (option jsval) :=
  Eff.catch
    (do stored <- readData host;
     Eff.ret (Js.get stored "metadata"))
    (fun e => Eff.throw ("Failed to get metadata: " +:+ e)).

Definition isAccessible : M bool :=
  Eff.catch
    (do_ readData host;
     Eff.ret true)
    (fun _ => Eff.ret false).

(** [releaseLock] has no [await] in it: the call in [dispose] runs to its
    end before [dispose] returns. *)
Definition dispose : M unit :=
  do locked <- Eff.gets isLocked;
  if locked then releaseLock else Eff.ret tt.

End Host.

End StorageApi.

(** The two methods of the debt service that only forward. *)
Module DebtApi.

Definition initialize (host : Host) (projectName : string) : M unit :=
  StorageApi.initialize host projectName.

Definition getDebtsByFile (host : Host) (filePath : string)
  : M (list jsval) :=
  StorageApi.getDebtsByFile host filePath.

End DebtApi.

(** The terms the properties of the storage service are stated in. *)
Module Notions.

Import Storage.

(** A lock file younger than thirty seconds at the next reading of the
    clock. *)
Definition fresh_lock (host : Host) (s : state) : bool :=
  match files s !! lockFile with
  | Some f => (clock host (tick s) - mtime f <? 30000)%Z
  | None => false
  end.

(** The storage file parses and passes the validation. *)
Definition readable (host : Host) (s : state) : bool :=
  match Trace.read_outcome (files s) with
  | inr _ => true
  | inl _ => false
  end.

(** The name of the backup made at the time [now]. *)
Definition backupName (now : Z) : string :=
  storageFile +:+ ".backup." +:+ Str.decimal now.

(** The settings [initialize] seeds. *)
Definition defaultSettings : jsval :=
  JObj [("githubIntegration", JBool false);
        ("autoCommit", JBool false);
        ("autoPush", JBool false);
        ("commitMessageTemplate",
         JStr "fix: update technical debt - {count} items")].


End Notions.

(** ** Patterns made of literal words

    The shape [new RegExp] gives to an alternation of words, and the
    numbers of the capturing groups of a pattern. *)

Module Literal.

Import RegExp.

(** The pattern of a word, character by character. *)
Fixpoint lit (w : list ascii) : regex :=
  match w with
  | [] => REmpty
  | [c] => RChar c
  | c :: w' => RSeq (RChar c) (lit w')
  end.

(** The alternation [w1|w2|...]. *)
Fixpoint alts (ws : list (list ascii)) : regex :=
  match ws with
  | [] => REmpty
  | [w] => lit w
  | w :: ws' => RAlt (lit w) (alts ws')
  end.

Definition words (ws : list string) : regex := alts (map Str.chars ws).

Fixpoint groups (r : regex) : list nat :=
  match r with
  | RSeq r1 r2 | RAlt r1 r2 => groups r1 ++ groups r2
  | RStar r1 | RPlus r1 | ROpt r1 => groups r1
  | RGroup n r1 => n :: groups r1
  | _ => []
  end.

(** What [escapeRegExp] makes of the characters of a word. *)
Definition escaped (w : list ascii) : list ascii :=
  flat_map (fun c =>
    if bool_decide (c ∈ Str.chars ".*+?^${}()|[]\")
    then ["\"%char; c] else [c]) w.

(** Where a word or the alternation ends inside the group. *)
Definition ends (stop : list ascii) : Prop :=
  exists rest, stop = "|"%char :: rest \/ stop = ")"%char :: rest.

End Literal.

(** ** The utilities

    [parseDebtMarkers] and [getContextLines] of [src/utils/index.ts], with
    [PATTERNS.DEBT_MARKER] of [src/constants/index.ts]. *)

Module Utils.

(** [content.split(sep)] for a separator of one character. *)
Fixpoint split_aux (sep : ascii) (cur : list ascii) (l : list ascii)
  : list (list ascii) :=
  match l with
  | [] => [rev cur]
  | c :: l' =>
      if bool_decide (c = sep) then rev cur :: split_aux sep [] l'
      else split_aux sep (c :: cur) l'
  end.

Definition split_on (sep : ascii) (s : string) : list string :=
  map Str.of_chars (split_aux sep [] (Str.chars s)).

(** [Array.prototype.slice(start, end)] with integer arguments: a
    negative argument counts from the end, and both are clamped to the
    array. *)
Definition slice {A} (start finish : Z) (l : list A) : list A :=
  let len := Z.of_nat (length l) in
  let relative (i : Z) :=
    if (i <? 0)%Z then Z.max (len + i) 0 else Z.min i len in
  let k := relative start in
  let final := relative finish in
  take (Z.to_nat (final - k)) (drop (Z.to_nat k) l).

(** [DEFAULTS.MAX_CONTEXT_LINES]. *)
Definition MAX_CONTEXT_LINES : Z := 5.

(** [PATTERNS.DEBT_MARKER], a literal with the flag [i]. *)
Definition DEBT_MARKER : string :=
  "(TODO|FIXME|HACK|BUG|NOTE|XXX|HACK|WARN|PERF|OPTIMIZE):\s*(.+)".

Definition DEBT_MARKER_regex : RegExp.regex :=
  Eval vm_compute in default RegExp.REmpty (RegExp.compile DEBT_MARKER).

Record Marker : Type := {
  marker : string;
  description : string;
  line : Z
}.

(** The [forEach] over the lines; [index] is the index of the first
    line of [lines]. *)
Fixpoint markers_from (lineNumber : Z) (index : nat) (lines : list string)
  : list Marker :=
  match lines with
  | [] => []
  | text :: more =>
      match RegExp.exec2 true DEBT_MARKER_regex text with
      | Some (_, m1, m2) =>
          {| marker := Str.toUpperCase (default "" m1);
             description := Str.trim (default "" m2);
             line := (lineNumber + Z.of_nat index)%Z |}
          :: markers_from lineNumber (S index) more
      | None => markers_from lineNumber (S index) more
      end
  end.

Definition parseDebtMarkers (content : string) (lineNumber : Z)
  : list Marker :=
  markers_from lineNumber 0 (split_on Str.LF content).

Section Files.

(** [fs.readFileSync(filePath, 'utf8')]; [None] when it throws. *)
Variable readFileSync : string -> option string.

(** The line number and the number of context lines are integers, as
    every caller passes them. *)
Definition getContextLines (filePath : string)
  (lineNumber contextLines : Z) : list string :=
  match readFileSync filePath with
  | Some content =>
      let lines := split_on Str.LF content in
      let start := Z.max 0 (lineNumber - contextLines) in
      let finish :=
        Z.min (Z.of_nat (length lines)) (lineNumber + contextLines + 1) in
      slice start finish lines
  | None => []
  end.

End Files.

(** The keywords of [PATTERNS.DEBT_MARKER], in upper case. *)
Definition KEYWORDS : list string :=
  ["TODO"; "FIXME"; "HACK"; "BUG"; "NOTE"; "XXX"; "WARN"; "PERF";
   "OPTIMIZE"].

End Utils.

(** ** The command that converts a marker comment

    The pure parts of [registerConvertTodoCommand] and of
    [replaceCommentWithId] in [src/commands/convert-todo.ts]: the values
    the form is filled with, and the text the comment line is replaced
    by. *)

Module Convert.

Import Scanner.

(** The pattern the command builds from [DEFAULTS.DEBT_MARKERS]; its
    template doubles the backslashes. *)
Definition markerRegex : RegExp.regex :=
  Eval vm_compute in
    default RegExp.REmpty
      (regex_of convert_template_head convert_template_tail DEBT_MARKERS).

(** The pattern of [replaceCommentWithId], a literal with the flag [i]. *)
Definition TAG_PATTERN : string :=
  "((?:^|[^\w])(?:TODO|FIXME|HACK|BUG|NOTE)(?:\b)\s*[:\-]\s*)(.+)$".

Definition tagRegex : RegExp.regex :=
  Eval vm_compute in default RegExp.REmpty (RegExp.compile TAG_PATTERN).

(** The optional [marker] and [description] of [ConvertTodoArgs]. *)
Record ConvertTodoArgs : Type := {
  arg_marker : option string;
  arg_description : option string
}.

(** The [defaults] handed to the form. *)
Record Defaults : Type := {
  df_title : string;
  df_description : string;
  df_filePath : string;
  df_lineNumber : nat;
  df_severity : DebtSeverity;
  df_category : DebtCategory;
  df_priority : DebtPriority;
  df_tags : list string;
  df_context : string
}.

Section Host.

Variable getRelativePath : string -> string.
Variable readFileSync : string -> option string.

(** The defaults for the line [lineText] at the index [lineIndex] of the
    file [absPath]; [None] when the line has no marker and the command
    stops with its message. *)
Definition defaults_for (args : ConvertTodoArgs) (absPath : string)
  (lineIndex : nat) (lineText : string) : option Defaults :=
  match RegExp.exec2 true markerRegex lineText with
  | None => None
  | Some (_, m1, m2) =>
      let marker :=
        Str.toUpperCase (default (default "" m1) (arg_marker args)) in
      let description :=
        Str.trim (default (default "" m2) (arg_description args)) in
      let lineNumberOneBased := (lineIndex + 1)%nat in
      let contextLines :=
        Str.join (String Str.LF "")
          (Utils.getContextLines readFileSync absPath (Z.of_nat lineIndex)
             Utils.MAX_CONTEXT_LINES) in
      Some {| df_title := Str.slice0 100 (marker +:+ ": " +:+ description);
              df_description := description;
              df_filePath := getRelativePath absPath;
              df_lineNumber := lineNumberOneBased;
              df_severity := SevLow;
              df_category := CatCodeQuality;
              df_priority := PrioNormal;
              df_tags := [marker];
              df_context := contextLines |}
  end.

End Host.

(** [String.prototype.includes]. *)
Fixpoint starts_with (needle hay : list ascii) : bool :=
  match needle, hay with
  | [], _ => true
  | n :: needle', h :: hay' => bool_decide (n = h) && starts_with needle' hay'
  | _ :: _, [] => false
  end.

Fixpoint includes_chars (needle hay : list ascii) : bool :=
  starts_with needle hay
  || match hay with
     | [] => false
     | _ :: hay' => includes_chars needle hay'
     end.

Definition includes (needle text : string) : bool :=
  includes_chars (Str.chars needle) (Str.chars text).

(** [text.replace(re, fn)] for a pattern without the flag [g]: the first
    match is replaced by what [fn] makes of its two groups. *)
Definition replace_first (re : RegExp.regex) (fn : string -> string -> string)
  (text : string) : string :=
  match RegExp.search true re [] (Str.chars text) with
  | None => text
  | Some (st, res) =>
      Str.of_chars (rev (RegExp.before st))
      +:+ fn (default "" (RegExp.capture 1 res))
             (default "" (RegExp.capture 2 res))
      +:+ Str.of_chars (RegExp.rest res)
  end.

(** The text [replaceCommentWithId] puts in the place of the line, [None]
    when it leaves the line alone. *)
Definition replaceCommentWithId (id text : string) : option string :=
  let replacementSuffix := " [FixFlow:" +:+ id +:+ "]" in
  if includes "[FixFlow:" text then None
  else
    let updated :=
      replace_first tagRegex
        (fun prefix desc =>
           let baseDesc := Str.trim desc in
           prefix +:+ baseDesc +:+ replacementSuffix)
        text in
    if bool_decide (updated = text) then None else Some updated.

End Convert.

(** ** Scanning files and the workspace

    [scanFile], [scanFileUri] and [scanWorkspace] of
    [src/services/scanner-service.ts].  A [Uri] is the string of its
    path. *)

Module Workspace.

Import Scanner.

(** [DEFAULTS.SCAN_PATTERNS] and [DEFAULTS.EXCLUDE_PATTERNS]. *)
Definition SCAN_PATTERNS : list string :=
  ["**/*.{js,jsx,ts,tsx,py,java,cpp,c,cs,php,rb,go,rs}"].

Definition EXCLUDE_PATTERNS : list string :=
  ["**/node_modules/**"; "**/dist/**"; "**/build/**"; "**/.git/**"].

(** The parts of [ProjectConfig] a scan reads. *)
Record ScanConfig : Type := {
  project : ProjectConfig;
  scanPatterns : list string;
  excludePatterns : list string
}.

Section Host.

Variable getRelativePath : string -> string.

(** [vscode.workspace.workspaceFolders]; [None] is [undefined]. *)
Variable workspaceFolders : option (list string).

(** [vscode.workspace.findFiles(include, exclude, undefined, token)]. *)
Variable findFiles : string -> option string -> list string.

(** [vscode.workspace.fs.readFile] and the decoding of the bytes; [None]
    when the read is rejected. *)
Variable readFile : string -> option string.

(** [token?.isCancellationRequested] at its n-th test. *)
Variable cancelled : nat -> bool.

(** Whatever is thrown inside, the pattern included, is caught. *)
Definition scanFileUri (uri : string) (config : ProjectConfig)
  : list ScanResult :=
  match readFile uri with
  | Some text =>
      default [] (extractScanResults getRelativePath uri text config)
  | None => []
  end.

Definition scanFile (config : ProjectConfig) (filePath : string)
  : list ScanResult :=
  scanFileUri filePath config.

(** The inner loop over the uris one pattern gives: [uriSet] and
    [fileUris]. *)
Definition add_uris (acc : gset string * list string) (uris : list string)
  : gset string * list string :=
  foldl (fun '(uriSet, fileUris) uri =>
           if bool_decide (uri ∈ uriSet) then (uriSet, fileUris)
           else ({[ uri ]} ∪ uriSet, fileUris ++ [uri]))
    acc uris.

Definition gather (includePatterns : list string)
  (excludeGlob : option string) : gset string * list string :=
  foldl (fun acc include => add_uris acc (findFiles include excludeGlob))
    (∅, []) includePatterns.

(** The loop over the files; [n] counts the tests of the token. *)
Fixpoint scan_all (n : nat) (fileUris : list string) (config : ProjectConfig)
  : list ScanResult :=
  match fileUris with
  | [] => []
  | uri :: more =>
      if cancelled n then []
      else scanFileUri uri config ++ scan_all (S n) more config
  end.

Definition excludeGlob_of (excludePatterns : list string) : option string :=
  if (0 <? length excludePatterns)%nat
  then Some ("{" +:+ Str.join "," excludePatterns +:+ "}")
  else None.

Definition files_to_scan (config : ScanConfig) : list string :=
  let includePatterns :=
    if (0 <? length (scanPatterns config))%nat then scanPatterns config
    else SCAN_PATTERNS in
  let excludePatterns :=
    if (0 <? length (excludePatterns config))%nat
    then excludePatterns config
    else EXCLUDE_PATTERNS in
  snd (gather includePatterns (excludeGlob_of excludePatterns)).

Definition scanWorkspace (config : ScanConfig) : list ScanResult :=
  match workspaceFolders with
  | None | Some [] => []
  | Some (_ :: _) => scan_all 0 (files_to_scan config) (project config)
  end.

End Host.

End Workspace.

(** ** The configuration service

    [getProjectConfig], [validateConfigValue], [isConfigValueValid],
    [validateConfiguration], [hasModifiedDefaults] and
    [getConfigDifferences] of [src/services/config-service.ts].  The
    settings of the workspace are a function from keys to values, [None]
    where a key is not set. *)

Module Config.

(** [CONFIG_KEYS] and the two keys the service spells out. *)
Definition ENABLED : string := "fixflow.enabled".
Definition AUTO_SCAN : string := "fixflow.autoScan".
Definition DEBT_MARKERS : string := "fixflow.debtMarkers".
Definition STORAGE_PATH : string := "fixflow.storagePath".
Definition NOTIFICATIONS : string := "fixflow.notifications".
Definition SCAN_PATTERNS : string := "fixflow.scanPatterns".
Definition EXCLUDE_PATTERNS : string := "fixflow.excludePatterns".

Definition strings (l : list string) : jsval := JArr (map JStr l).

(** [typeof value === 'boolean'] and [typeof value === 'string']. *)
Definition is_boolean (v : jsval) : bool :=
  match Js.typeof v with
  | Js.TBoolean => true
  | _ => false
  end.

Definition is_string (v : jsval) : bool :=
  match Js.typeof v with
  | Js.TString => true
  | _ => false
  end.

(** [Array.isArray(value) && value.every(item => typeof item ===
    'string')]. *)
Definition is_string_array (v : jsval) : bool :=
  match v with
  | JArr items => forallb is_string items
  | _ => false
  end.

Definition array_length (v : jsval) : nat :=
  match v with
  | JArr items => length items
  | _ => 0
  end.

(** The characters the storage path may not hold: the angle brackets, the
    colon, the double quote, the bar, the question mark and the star. *)
Definition invalid_path_chars : list ascii :=
  Str.chars "<>:" ++ [ascii_of_nat 34] ++ Str.chars "|?*".

(** [typeof value !== 'string' || value.trim() === ''], negated. *)
Definition nonblank (v : jsval) : bool :=
  match v with
  | JStr s => negb (bool_decide (Str.trim s = ""))
  | _ => false
  end.

(** The test of the value against the class of those characters. *)
Definition has_invalid_char (v : jsval) : bool :=
  match v with
  | JStr s =>
      existsb (fun c => bool_decide (c ∈ invalid_path_chars)) (Str.chars s)
  | _ => false
  end.

(** The [default] case warns on the console and accepts. *)
Definition validateConfigValue (key : string) (value : jsval)
  : result unit :=
  if bool_decide (key = ENABLED) then
    Res.require (is_boolean value) "enabled must be a boolean value"
  else if bool_decide (key = AUTO_SCAN) then
    Res.require (is_boolean value) "autoScan must be a boolean value"
  else if bool_decide (key = DEBT_MARKERS) then
    ensure Res.require (is_string_array value)
      "debtMarkers must be an array of strings";
    Res.require (negb (array_length value =? 0)%nat)
      "debtMarkers cannot be empty"
  else if bool_decide (key = STORAGE_PATH) then
    ensure Res.require (nonblank value)
      "storagePath must be a non-empty string";
    Res.require (negb (has_invalid_char value))
      "storagePath contains invalid characters"
  else if bool_decide (key = NOTIFICATIONS) then
    Res.require (is_boolean value) "notifications must be a boolean value"
  else if bool_decide (key = SCAN_PATTERNS) then
    ensure Res.require (is_string_array value)
      "scanPatterns must be an array of strings";
    Res.require (negb (array_length value =? 0)%nat)
      "scanPatterns cannot be empty"
  else if bool_decide (key = EXCLUDE_PATTERNS) then
    Res.require (is_string_array value)
      "excludePatterns must be an array of strings"
  else inr tt.

Definition isConfigValueValid (key : string) (value : jsval) : bool :=
  match validateConfigValue key value with
  | inr _ => true
  | inl _ => false
  end.

(** [getDefaultConfigValues], in the order of its keys. *)
Definition getDefaultConfigValues : list (string * jsval) :=
  [(ENABLED, JBool true);
   (AUTO_SCAN, JBool false);
   (DEBT_MARKERS, strings Scanner.DEBT_MARKERS);
   (STORAGE_PATH, JStr ".fixflow");
   (NOTIFICATIONS, JBool true);
   (SCAN_PATTERNS, strings Workspace.SCAN_PATTERNS);
   (EXCLUDE_PATTERNS, strings Workspace.EXCLUDE_PATTERNS)].

(** [[...value]]: the elements of an array, the characters of a string;
    anything else is not iterable. *)
Definition spread_elements (v : jsval) : result (list jsval) :=
  match v with
  | JArr items => inr items
  | JStr s => inr (map (fun c => JStr (String c "")) (Str.chars s))
  | _ => inl "value is not iterable"
  end.

(** Whether two values have the same JSON text. *)
Fixpoint same_json (a b : jsval) : bool :=
  match a, b with
  | JNull, JNull => true
  | JBool x, JBool y => Bool.eqb x y
  | JNum x, JNum y => Qeq_bool x y
  | JStr x, JStr y => bool_decide (x = y)
  | JArr xs, JArr ys =>
      (fix all (xs ys : list jsval) : bool :=
         match xs, ys with
         | [], [] => true
         | x :: xs', y :: ys' => same_json x y && all xs' ys'
         | _, _ => false
         end) xs ys
  | JObj ps, JObj qs =>
      (fix all (ps qs : list (string * jsval)) : bool :=
         match ps, qs with
         | [], [] => true
         | p :: ps', q :: qs' =>
             bool_decide (fst p = fst q) && same_json (snd p) (snd q)
             && all ps' qs'
         | _, _ => false
         end) ps qs
  | _, _ => false
  end.

(** [JSON.stringify(a) !== JSON.stringify(b)]; the text of [undefined]
    is [undefined]. *)
Definition texts_differ (a b : option jsval) : bool :=
  match a, b with
  | None, None => false
  | Some x, Some y => negb (same_json (Js.jsonify x) (Js.jsonify y))
  | _, _ => true
  end.

(** [config.storagePath.includes('..')]: on a string, on an array, and a
    [TypeError] on anything else. *)
Definition includes_dots (v : option jsval) : result bool :=
  match v with
  | Some (JStr s) => inr (Convert.includes ".." s)
  | Some (JArr items) =>
      inr (existsb (fun x => match x with
                             | JStr s => bool_decide (s = "..")
                             | _ => false
                             end) items)
  | _ => inl "config.storagePath.includes is not a function"
  end.

Record Verdict : Type := { isValid : bool; errors : list string }.

Record Difference : Type := {
  key : string;
  current : option jsval;
  default_value : jsval
}.

Section Settings.

(** [this.workspaceConfig.get(key)]. *)
Variable workspaceConfig : string -> option jsval.

Definition getConfigValue (key : string) (defaultValue : jsval) : jsval :=
  default defaultValue (workspaceConfig key).

Definition getProjectConfig : result jsval :=
  let enabled := getConfigValue ENABLED (JBool true) in
  let autoScan := getConfigValue AUTO_SCAN (JBool false) in
  Res.bind (spread_elements
              (getConfigValue DEBT_MARKERS (strings Scanner.DEBT_MARKERS)))
    (fun debtMarkers =>
  let storagePath := getConfigValue STORAGE_PATH (JStr ".fixflow") in
  let notifications := getConfigValue NOTIFICATIONS (JBool true) in
  Res.bind (spread_elements
              (getConfigValue SCAN_PATTERNS
                 (strings Workspace.SCAN_PATTERNS)))
    (fun scanPatterns =>
  Res.bind (spread_elements
              (getConfigValue EXCLUDE_PATTERNS
                 (strings Workspace.EXCLUDE_PATTERNS)))
    (fun excludePatterns =>
  inr (JObj [("enabled", enabled);
             ("autoScan", autoScan);
             ("debtMarkers", JArr debtMarkers);
             ("storagePath", storagePath);
             ("notifications", notifications);
             ("scanPatterns", JArr scanPatterns);
             ("excludePatterns", JArr excludePatterns)])))).

(** The loop over [Object.entries(config)]. *)
Fixpoint validate_entries (entries : list (string * jsval)) : result unit :=
  match entries with
  | [] => inr tt
  | (key, value) :: more =>
      ensure validateConfigValue key value;
      validate_entries more
  end.

Definition AUTO_SCAN_ERROR : string :=
  "Auto-scan is enabled but no scan patterns are defined".

Definition TRAVERSAL_ERROR : string :=
  "Storage path cannot contain relative path traversal".

(** The first error the body pushes. *)
Definition auto_scan_errors (config : jsval) : list string :=
  let truthy (k : string) := negb (Js.falsy (Js.get config k)) in
  if truthy "enabled" && truthy "autoScan"
     && (array_length (default JNull (Js.get config "scanPatterns")) =? 0)%nat
  then [AUTO_SCAN_ERROR] else [].

(** [getProjectConfig] is called before the [try]; what the [try] throws
    ends in [errors] behind what was pushed before. *)
Definition validateConfiguration : result Verdict :=
  Res.bind getProjectConfig (fun config =>
    match validate_entries (Js.own config) with
    | inl message => inr {| isValid := false; errors := [message] |}
    | inr _ =>
        let errors1 := auto_scan_errors config in
        match includes_dots (Js.get config "storagePath") with
        | inl message =>
            inr {| isValid := false; errors := errors1 ++ [message] |}
        | inr dots =>
            let errors2 :=
              errors1 ++ (if dots then [TRAVERSAL_ERROR] else []) in
            inr {| isValid := (length errors2 =? 0)%nat;
                   errors := errors2 |}
        end
    end).

Fixpoint any_differs (currentConfig : jsval)
  (defaults : list (string * jsval)) : bool :=
  match defaults with
  | [] => false
  | (key, defaultValue) :: more =>
      if texts_differ (Js.get currentConfig key) (Some defaultValue)
      then true
      else any_differs currentConfig more
  end.

Definition hasModifiedDefaults : result bool :=
  Res.bind getProjectConfig (fun currentConfig =>
    inr (any_differs currentConfig getDefaultConfigValues)).

Fixpoint differences (currentConfig : jsval)
  (defaults : list (string * jsval)) : list Difference :=
  match defaults with
  | [] => []
  | (key, defaultValue) :: more =>
      let currentValue := Js.get currentConfig key in
      if texts_differ currentValue (Some defaultValue)
      then {| key := key; current := currentValue;
              default_value := defaultValue |}
           :: differences currentConfig more
      else differences currentConfig more
  end.

Definition getConfigDifferences : result (list Difference) :=
  Res.bind getProjectConfig (fun currentConfig =>
    inr (differences currentConfig getDefaultConfigValues)).

End Settings.

End Config.

(** * Properties *)

(** ** Objects and the JSON image *)

Module JsFacts.

Import Js.

Lemma lookup_set_eq k v props : lookup k (set k v props) = Some v.
Proof.
  unfold lookup. induction props as [|[k' v'] props IH]; cbn.
  - rewrite bool_decide_eq_true_2; done.
  - destruct (bool_decide (k' = k)) eqn:E; cbn.
    + rewrite bool_decide_eq_true_2; done.
    + rewrite E. exact IH.
Qed.

Lemma lookup_set_ne k k' v props :
  k ≠ k' -> lookup k' (set k v props) = lookup k' props.
Proof.
  intros Hne. unfold lookup.
  induction props as [|[k0 v0] props IH]; cbn.
  - rewrite bool_decide_eq_false_2; done.
  - destruct (bool_decide (k0 = k)) eqn:E; cbn.
    + apply bool_decide_eq_true_1 in E. subst k0.
      rewrite !bool_decide_eq_false_2; done.
    + destruct (bool_decide (k0 = k')); [done | exact IH].
Qed.

Lemma lookup_set k k' v props :
  lookup k' (set k v props)
  = if bool_decide (k = k') then Some v else lookup k' props.
Proof.
  case_bool_decide as E.
  - subst. apply lookup_set_eq.
  - by apply lookup_set_ne.
Qed.


Lemma set_is_Some k k' v props :
  is_Some (lookup k' props) -> is_Some (lookup k' (set k v props)).
Proof.
  intros H. rewrite lookup_set. case_bool_decide; [by eexists | done].
Qed.

Lemma lookup_app k a b :
  lookup k (a ++ b)
  = match lookup k a with Some v => Some v | None => lookup k b end.
Proof.
  unfold lookup. induction a as [|[k0 v0] a IH]; cbn; [done|].
  destruct (bool_decide (k0 = k)); [done | exact IH].
Qed.

Lemma lookup_jsonify k props :
  lookup k (map (fun p => (fst p, jsonify (snd p))) props)
  = jsonify <$> lookup k props.
Proof.
  unfold lookup. induction props as [|[k0 v0] props IH]; cbn; [done|].
  destruct (bool_decide (k0 = k)); [done | exact IH].
Qed.


Lemma jsonify_plain v : plain (jsonify v) = true.
Proof.
  induction v as [| | | | |items IH|props IH] using jsval_ind; cbn; try done.
  - induction IH as [|x l Hx _ IHl]; cbn; [done|].
    by rewrite Hx, IHl.
  - induction IH as [|x l Hx _ IHl]; cbn; [done|].
    by rewrite Hx, IHl.
Qed.


Lemma plain_lookup k props v :
  forallb (fun p => plain (snd p)) props = true ->
  lookup k props = Some v -> plain v = true.
Proof.
  unfold lookup. induction props as [|[k0 v0] props IH]; cbn; [done|].
  intros [H1 H2]%andb_prop.
  destruct (bool_decide (k0 = k)); cbn; [by intros [= <-] | by apply IH].
Qed.

Lemma plain_get v k x : plain v = true -> get v k = Some x -> plain x = true.
Proof. destruct v; cbn; try done. apply plain_lookup. Qed.


End JsFacts.

(** ** What structural validation accepts *)

Module Valid.

Import Js Storage Shape.

Lemma check_required_obj props fields :
  check_required (JObj props) fields = inr tt
  <-> Forall (fun field => is_Some (lookup field props)) fields.
Proof.
  induction fields as [|f fields IH]; cbn.
  - split; [constructor | done].
  - rewrite Forall_cons. case_bool_decide as E.
    + rewrite IH. tauto.
    + split; [done | tauto].
Qed.

Lemma check_required_is_obj debt :
  check_required debt requiredFields = inr tt -> exists props, debt = JObj props.
Proof. destruct debt; cbn; try done. by eexists. Qed.

Lemma require_true b msg : Res.require b msg = inr tt <-> b = true.
Proof. destruct b; cbn; split; done. Qed.

Lemma bind_unit_inr (r : result unit) (k : unit -> result unit) :
  Res.bind r k = inr tt <-> r = inr tt /\ k tt = inr tt.
Proof.
  destruct r as [e|[]]; cbn; split; try done; tauto.
Qed.

Lemma validateDebtStructure_iff debt :
  validateDebtStructure debt = inr tt <-> entry_wf debt.
Proof.
  unfold validateDebtStructure, entry_wf.
  rewrite !bind_unit_inr, !require_true. split.
  - intros (Hreq & Hid & Hti & Hfp & Hln).
    destruct (check_required_is_obj _ Hreq) as [props ->].
    exists props. rewrite check_required_obj in Hreq. done.
  - intros (props & -> & Hreq & Hid & Hti & Hfp & Hln).
    rewrite check_required_obj. done.
Qed.

Lemma validate_each_iff debts :
  validate_each debts = inr tt <-> Forall entry_wf debts.
Proof.
  induction debts as [|d debts IH]; cbn.
  - split; [constructor | done].
  - rewrite bind_unit_inr, validateDebtStructure_iff, IH, Forall_cons.
    done.
Qed.

Lemma validateDataStructure_iff data :
  validateDataStructure data = inr tt <-> doc_wf data.
Proof.
  unfold validateDataStructure, doc_wf. rewrite bind_unit_inr, require_true.
  split.
  - intros [Hobj H].
    destruct (get data "debts") as [[| | | | |debts|]|] eqn:E; try done.
    rewrite !bind_unit_inr, !require_true, validate_each_iff in H.
    destruct H as (Hm & Hs & Hd).
    destruct data; try done. cbn in E, Hm, Hs.
    eexists _, _. done.
  - intros (props & debts & -> & E & Hm & Hs & Hd). cbn.
    rewrite E. rewrite !bind_unit_inr, !require_true, validate_each_iff.
    done.
Qed.

(** *** The JSON image of a valid document *)

Lemma nonblank_string_jsonify o :
  nonblank_string o = true -> nonblank_string (jsonify <$> o) = true.
Proof. destruct o as [[]|]; done. Qed.

Lemma positive_number_jsonify o :
  positive_number o = true -> positive_number (jsonify <$> o) = true.
Proof. destruct o as [[]|]; done. Qed.

Lemma entry_wf_jsonify debt : entry_wf debt -> entry_wf (jsonify debt).
Proof.
  intros (props & -> & Hreq & Hid & Hti & Hfp & Hln). cbn.
  eexists. split; [done|]. rewrite !JsFacts.lookup_jsonify.
  split_and!; auto using nonblank_string_jsonify, positive_number_jsonify.
  eapply Forall_impl; [exact Hreq|]. cbn. intros f Hf.
  rewrite JsFacts.lookup_jsonify. by apply fmap_is_Some.
Qed.

Lemma structured_is_object o : structured o = true -> is_object o = true.
Proof. destruct o as [[]|]; done. Qed.

Lemma structured_jsonify o :
  structured o = true -> structured (jsonify <$> o) = true.
Proof. destruct o as [[]|]; done. Qed.

Lemma is_object_plain o :
  is_object o = true -> (forall v, o = Some v -> plain v = true) ->
  structured o = true.
Proof.
  destruct o as [[]|]; cbn; rewrite ?andb_false_r; try done.
  intros _ H. specialize (H _ eq_refl). done.
Qed.

Lemma doc_wf_jsonify data :
  doc_wf data ->
  structured (get data "metadata") = true ->
  structured (get data "settings") = true ->
  doc_wf (jsonify data).
Proof.
  intros (props & debts & -> & E & Hm & Hs & Hd) Sm Ss. cbn in Sm, Ss.
  cbn. eexists _, (map jsonify debts). split; [done|].
  rewrite !JsFacts.lookup_jsonify, E. cbn.
  split_and!; auto using structured_is_object, structured_jsonify.
  rewrite Forall_map. eapply Forall_impl; [exact Hd|].
  apply entry_wf_jsonify.
Qed.

Lemma doc_wf_entries data : doc_wf data -> Forall entry_wf (debts_of data).
Proof.
  intros (props & debts & -> & E & _ & _ & Hd). unfold debts_of. cbn.
  by rewrite E.
Qed.

Lemma doc_wf_with_debts data debts :
  doc_wf data -> Forall entry_wf debts -> doc_wf (with_debts data debts).
Proof.
  intros (props & debts0 & -> & E & Hm & Hs & Hd) Hnew.
  unfold with_debts. cbn. eexists _, debts. split; [done|].
  rewrite JsFacts.lookup_set_eq, !JsFacts.lookup_set_ne by done. done.
Qed.

Lemma debts_of_with_debts data debts :
  doc_wf data -> debts_of (with_debts data debts) = debts.
Proof.
  intros (props & debts0 & -> & _). unfold debts_of, with_debts. cbn.
  by rewrite JsFacts.lookup_set_eq.
Qed.

Lemma get_with_debts data debts k :
  k ≠ "debts" -> get (with_debts data debts) k = get data k.
Proof.
  intros Hk. unfold with_debts. destruct data; cbn; try done.
  by apply JsFacts.lookup_set_ne.
Qed.

Lemma get_stamp now data k :
  k ≠ "metadata" -> get (stamp now data) k = get data k.
Proof.
  intros Hk. unfold stamp. destruct (get data "metadata"); [|done].
  destruct data; cbn; try done. by apply JsFacts.lookup_set_ne.
Qed.


Lemma doc_wf_stamp now data :
  doc_wf data -> doc_wf (stamp now data).
Proof.
  intros (props & debts & -> & E & Hm & Hs & Hd).
  unfold stamp. cbn.
  destruct (lookup "metadata" props) as [meta|] eqn:Em; [|done].
  cbn. eexists _, debts. split; [done|].
  rewrite JsFacts.lookup_set_eq, !JsFacts.lookup_set_ne by done.
  split_and!; try done.
  destruct meta; done.
Qed.

Lemma structured_stamp_metadata now data :
  structured (get data "metadata") = true ->
  structured (get (stamp now data) "metadata") = true.
Proof.
  unfold stamp. destruct (get data "metadata") as [meta|] eqn:E; [|done].
  intros Hm. destruct data; cbn in *; try done.
  rewrite JsFacts.lookup_set_eq. destruct meta; done.
Qed.

End Valid.

(** ** The storage operations, step by step *)

Module Run.

Import Js Storage Shape Trace.

#[local] Arguments releaseLock : simpl never.
#[local] Arguments acquireLock : simpl never.

Section Host.

Variable host : Host.

Lemma acquireLock_quiet m t r :
  m !! lockFile = None ->
  acquireLock host (State (Some m) false t r)
  = (inr tt,
     State (Some (<[lockFile := File (lockText host) (clock host t)]> m))
       true t r).
Proof.
  intros Hm.
  unfold acquireLock, Eff.bind, Eff.catch, Eff.gets, existsSync,
    writeFileSync, Eff.modify, files. cbn.
  rewrite Hm. done.
Qed.

Lemma releaseLock_locked m t r :
  releaseLock (State (Some m) true t r)
  = (inr tt, State (Some (delete lockFile m)) false t r).
Proof.
  unfold releaseLock, Eff.bind, Eff.catch, Eff.gets, existsSync,
    unlinkSync, Eff.modify, files. cbn.
  destruct (m !! lockFile) as [f|] eqn:E; cbn.
  - rewrite E. done.
  - by rewrite delete_id.
Qed.

Lemma releaseLock_unlocked m t r :
  releaseLock (State m false t r) = (inr tt, State m false t r).
Proof. done. Qed.

(** A successful acquisition leaves the directory with the lock file
    of this process, whatever lock file was there before. *)
Lemma acquireLock_inv s s1 :
  acquireLock host s = (inr tt, s1) ->
  isLocked s = false
  /\ exists m t',
       dir s = Some m
       /\ s1 = State (Some (<[lockFile := File (lockText host) (clock host t')]> m))
                 true t' (draws s).
Proof.
  destruct s as [d l t r].
  unfold acquireLock, Eff.bind, Eff.catch, Eff.gets, existsSync,
    writeFileSync, unlinkSync, statSync_mtime, Date_now, Eff.modify,
    Eff.throw, Eff.ret, files.
  cbn. destruct l; [done|]. cbn.
  destruct d as [m|]; cbn; [|rewrite lookup_empty; cbn; intros [=]].
  destruct (m !! lockFile) as [f|] eqn:E; cbn.
  - rewrite E. cbn.
    destruct (clock host t - mtime f <? 30000)%Z; cbn; [intros [=]|].
    rewrite E. cbn. intros [= <-]. split; [done|].
    eexists m, (S t). rewrite insert_delete_eq. done.
  - intros [= <-]. split; [done|]. by eexists m, t.
Qed.

(** With no lock file in the way, a read leaves the state as it was. *)
Lemma readData_quiet m t r :
  m !! lockFile = None ->
  readData host (State (Some m) false t r)
  = (read_outcome m, State (Some m) false t r).
Proof.
  intros Hm. unfold readData, Eff.finally, Eff.catch.
  unfold Eff.bind at 1. rewrite acquireLock_quiet by done.
  unfold read_outcome, Eff.bind, existsSync, readFileSync, Eff.gets,
    Eff.lift, Eff.throw, Eff.ret, files. cbn.
  rewrite lookup_insert_ne by done.
  destruct (m !! storageFile) as [f|] eqn:E; cbn;
    rewrite ?releaseLock_locked, ?delete_insert_id by done; [|done].
  rewrite lookup_insert_ne by done. rewrite E.
  destruct (JSON_parse (data f)) as [e|parsed]; cbn;
    rewrite ?releaseLock_locked, ?delete_insert_id by done; [done|].
  destruct (validateDataStructure parsed) as [e|[]]; cbn;
    rewrite ?releaseLock_locked, ?delete_insert_id by done; done.
Qed.

Lemma releaseLock_result s : exists s', releaseLock s = (inr tt, s').
Proof.
  destruct s as [[m|] [] t r]; eauto using releaseLock_locked,
    releaseLock_unlocked.
Qed.

(** A read that succeeds found the directory unlocked by this service,
    and leaves it without a lock file. *)
Lemma readData_inv s v s' :
  readData host s = (inr v, s') ->
  isLocked s = false
  /\ exists m t',
       dir s = Some m
       /\ s' = State (Some (delete lockFile m)) false t' (draws s)
       /\ read_outcome (delete lockFile m) = inr v.
Proof.
  unfold readData, Eff.finally, Eff.catch. unfold Eff.bind at 1.
  destruct (acquireLock host s) as [[e|[]] s1] eqn:EA.
  - unfold Eff.throw. destruct (releaseLock_result s1) as [s2 ->].
    intros [=].
  - apply acquireLock_inv in EA as (Hl & m & t' & Hd & ->).
    intros H. split; [done|]. exists m, t'. split; [done|].
    revert H.
    unfold read_outcome, Eff.bind, existsSync, readFileSync, Eff.gets,
      Eff.lift, Eff.throw, Eff.ret, files. cbn.
    rewrite lookup_insert_ne, lookup_delete_ne by done.
    destruct (m !! storageFile) as [f|] eqn:E; cbn;
      rewrite ?releaseLock_locked, ?delete_insert_eq by done;
      [|intros [=]].
    rewrite lookup_insert_ne by done. rewrite E.
    destruct (JSON_parse (data f)) as [e|parsed]; cbn;
      rewrite ?releaseLock_locked, ?delete_insert_eq by done;
      [intros [=]|].
    destruct (validateDataStructure parsed) as [e|[]]; cbn;
      rewrite ?releaseLock_locked, ?delete_insert_eq by done;
      [intros [=]|].
    by intros [= -> <-].
Qed.

(** The state a successful read leaves is quiet: reading again gives
    the same document and changes nothing. *)
Lemma readData_again s v s' :
  readData host s = (inr v, s') -> readData host s' = (inr v, s').
Proof.
  intros (_ & m & t' & _ & -> & Ho)%readData_inv.
  rewrite readData_quiet by apply lookup_delete_eq. by rewrite Ho.
Qed.

Lemma read_outcome_inv m v :
  read_outcome m = inr v ->
  exists f, m !! storageFile = Some f
            /\ JSON_parse (data f) = inr v
            /\ validateDataStructure v = inr tt.
Proof.
  unfold read_outcome. destruct (m !! storageFile) as [f|]; [|done].
  destruct (JSON_parse (data f)) as [e|parsed] eqn:EP; [done|].
  destruct (validateDataStructure parsed) as [e|[]] eqn:EV; [done|].
  intros [= <-]. eauto.
Qed.

(** What a parsed document looks like. *)
Lemma JSON_parse_plain c v : JSON_parse c = inr v -> plain v = true.
Proof.
  destruct c; cbn; [|done]. intros [= <-]. apply JsFacts.jsonify_plain.
Qed.

(** *** Writing *)

Lemma writeData_quiet m t r d :
  m !! lockFile = None ->
  writeData host d (State (Some m) false t r)
  = match validateDataStructure d with
    | inr _ => (inr tt, State (Some (written host m t d)) false (S t) r)
    | inl e => (inl ("Failed to write storage data: " +:+ e),
                State (Some m) false t r)
    end.
Proof.
  intros Hm. unfold writeData, Eff.finally, Eff.catch.
  unfold Eff.bind at 1. rewrite acquireLock_quiet by done.
  unfold Eff.bind, Eff.lift, Eff.throw, Eff.ret, Date_now,
    dirExistsSync, writeFileSync, Eff.gets. cbn.
  destruct (validateDataStructure d) as [e|[]]; cbn;
    rewrite ?releaseLock_locked, ?delete_insert_id by done; [done|].
  unfold set_dir. cbn. rewrite releaseLock_locked.
  rewrite delete_insert_ne, delete_insert_id by done. done.
Qed.


Lemma readData_validates s v s' :
  readData host s = (inr v, s') -> validateDataStructure v = inr tt.
Proof.
  intros (_ & m & t' & _ & _ & Ho)%readData_inv.
  apply read_outcome_inv in Ho as (f & _ & _ & Hv). exact Hv.
Qed.

(** *** The operations after their first read *)

Lemma after_read {A} (k : jsval -> M A) (h : string -> M A) s v s' :
  readData host s = (inr v, s') ->
  Eff.catch (Eff.bind (readData host) k) h s = Eff.catch (k v) h s'.
Proof. intros E. unfold Eff.catch, Eff.bind. by rewrite E. Qed.

Lemma read_failed {A} (k : jsval -> M A) (h : string -> M A) s e s' :
  readData host s = (inl e, s') ->
  Eff.catch (Eff.bind (readData host) k) h s = h e s'.
Proof. intros E. unfold Eff.catch, Eff.bind. by rewrite E. Qed.

(** An operation that starts with a read behaves from the state the
    read leaves as it does from the state before. *)
Lemma from_quiet {A} (k : jsval -> M A) (h : string -> M A) s v s' :
  readData host s = (inr v, s') ->
  Eff.catch (Eff.bind (readData host) k) h s
  = Eff.catch (Eff.bind (readData host) k) h s'.
Proof.
  intros E. rewrite (after_read k h _ _ _ E).
  by rewrite (after_read k h _ _ _ (readData_again _ _ _ E)).
Qed.

Lemma getAllDebts_read s v s' :
  readData host s = (inr v, s') ->
  getAllDebts host s = (inr (debts_of v), s').
Proof. intros E. unfold getAllDebts. by rewrite (after_read _ _ _ _ _ E). Qed.

Lemma getDebt_read id s v s' :
  readData host s = (inr v, s') ->
  getDebt host id s = (inr (find (has_id id) (debts_of v)), s').
Proof. intros E. unfold getDebt. by rewrite (after_read _ _ _ _ _ E). Qed.

Lemma getDebt_inv id s o s' :
  getDebt host id s = (inr o, s') ->
  exists v, readData host s = (inr v, s')
            /\ o = find (has_id id) (debts_of v).
Proof.
  unfold getDebt. destruct (readData host s) as [[e|v] s1] eqn:E.
  - rewrite (read_failed _ _ _ _ _ E). intros [=].
  - rewrite (after_read _ _ _ _ _ E). intros [= <- <-]. eauto.
Qed.

Lemma addDebt_quiet m t r v debt :
  m !! lockFile = None ->
  read_outcome m = inr v ->
  addDebt host debt (State (Some m) false t r)
  = let doc := with_debts v (debts_of v ++ [new_entry host t r debt]) in
    match validateDataStructure doc with
    | inr _ =>
        (inr (new_entry host t r debt),
         State (Some (written host m (S (S (S t))) doc)) false
           (S (S (S (S t)))) (S r))
    | inl e =>
        (inl ("Failed to add debt: Failed to write storage data: " +:+ e),
         State (Some m) false (S (S (S t))) (S r))
    end.
Proof.
  intros Hm Ho. unfold addDebt.
  assert (E : readData host (State (Some m) false t r)
              = (inr v, State (Some m) false t r)).
  { rewrite readData_quiet by done. by rewrite Ho. }
  rewrite (after_read _ _ _ _ _ E).
  unfold Eff.catch, generateDebtId, Eff.bind at 1 2 3 4 5.
  unfold Date_now, Math_random_base36, Eff.ret. cbn.
  unfold Eff.bind. rewrite writeData_quiet by done.
  fold (debt_id host t r). fold (new_entry host t r debt).
  destruct (validateDataStructure _) as [e|[]]; done.
Qed.

Lemma updateDebt_quiet m t r v id u :
  m !! lockFile = None ->
  read_outcome m = inr v ->
  updateDebt host id u (State (Some m) false t r)
  = match findIndex (has_id id) (debts_of v) with
    | None =>
        (inl ("Failed to update debt: Debt with id " +:+ id
              +:+ " not found"),
         State (Some m) false t r)
    | Some i =>
        let current := default JNull (debts_of v !! i) in
        let doc :=
          with_debts v (<[i := updated_entry host t current u]> (debts_of v)) in
        match validateDataStructure doc with
        | inr _ =>
            (inr (updated_entry host t current u),
             State (Some (written host m (S t) doc)) false (S (S t)) r)
        | inl e =>
            (inl ("Failed to update debt: Failed to write storage data: "
                  +:+ e),
             State (Some m) false (S t) r)
        end
    end.
Proof.
  intros Hm Ho. unfold updateDebt.
  assert (E : readData host (State (Some m) false t r)
              = (inr v, State (Some m) false t r)).
  { rewrite readData_quiet by done. by rewrite Ho. }
  rewrite (after_read _ _ _ _ _ E).
  destruct (findIndex (has_id id) (debts_of v)) as [i|]; [|done].
  unfold Eff.catch. unfold Eff.bind at 1. unfold Date_now. cbn.
  unfold Eff.bind. rewrite writeData_quiet by done. cbn.
  fold (updated_entry host t (default JNull (debts_of v !! i)) u).
  destruct (validateDataStructure _) as [e|[]]; done.
Qed.

Lemma deleteDebt_quiet m t r v id :
  m !! lockFile = None ->
  read_outcome m = inr v ->
  deleteDebt host id (State (Some m) false t r)
  = match findIndex (has_id id) (debts_of v) with
    | None =>
        (inl ("Failed to delete debt: Debt with id " +:+ id
              +:+ " not found"),
         State (Some m) false t r)
    | Some i =>
        let doc := with_debts v (delete i (debts_of v)) in
        match validateDataStructure doc with
        | inr _ => (inr tt, State (Some (written host m t doc)) false (S t) r)
        | inl e =>
            (inl ("Failed to delete debt: Failed to write storage data: "
                  +:+ e),
             State (Some m) false t r)
        end
    end.
Proof.
  intros Hm Ho. unfold deleteDebt.
  assert (E : readData host (State (Some m) false t r)
              = (inr v, State (Some m) false t r)).
  { rewrite readData_quiet by done. by rewrite Ho. }
  rewrite (after_read _ _ _ _ _ E).
  destruct (findIndex (has_id id) (debts_of v)) as [i|]; [|done].
  unfold Eff.catch. rewrite writeData_quiet by done.
  destruct (validateDataStructure _) as [e|[]]; done.
Qed.

(** What a read finds after a write. *)
Lemma read_outcome_after_write m t d :
  Shape.doc_wf (jsonify (stamp (clock host t) d)) ->
  read_outcome (written host m t d) = inr (jsonify (stamp (clock host t) d)).
Proof.
  intros Hwf%Valid.validateDataStructure_iff.
  unfold read_outcome, written. rewrite lookup_insert_eq. cbn.
  by rewrite Hwf.
Qed.

Lemma no_lock_after_write m t d :
  m !! lockFile = None -> written host m t d !! lockFile = None.
Proof. intros Hm. unfold written. by rewrite lookup_insert_ne. Qed.

End Host.

End Run.

(** ** Finding, replacing and removing an entry *)

Module Entries.

Import Js Storage.


Lemma find_findIndex p (l : list jsval) e :
  find p l = Some e -> exists i, findIndex p l = Some i /\ l !! i = Some e.
Proof.
  induction l as [|x l IH]; cbn; [done|].
  destruct (p x) eqn:E.
  - intros [= <-]. by exists 0%nat.
  - intros (i & -> & Hi)%IH. by exists (S i).
Qed.





(** *** The JSON image of the entries *)





(** *** The properties an update leaves alone *)

Lemma lookup_prop_opt_ne k k' o :
  k <> k' -> lookup k' (prop_opt k o) = None.
Proof.
  intros Hk. destruct o; [|done]. unfold lookup. cbn.
  by rewrite bool_decide_eq_false_2.
Qed.


Section Host.

Variable host : Host.




(** What a successful read tells about the document. *)
Lemma readData_facts s v s0 :
  readData host s = (inr v, s0) ->
  exists m,
    s0 = State (Some m) false (tick s0) (draws s0)
    /\ m !! lockFile = None
    /\ Trace.read_outcome m = inr v
    /\ plain v = true
    /\ Shape.doc_wf v.
Proof.
  intros ER.
  pose proof (Run.readData_validates host _ _ _ ER) as Hv.
  apply Valid.validateDataStructure_iff in Hv.
  apply Run.readData_inv in ER as (_ & m & t' & _ & -> & Ho).
  exists (delete lockFile m). split_and!; try done.
  - apply lookup_delete_eq.
  - apply Run.read_outcome_inv in Ho as (f & _ & Hp & _).
    by apply Run.JSON_parse_plain in Hp.
Qed.

End Host.

End Entries.

(** ** The scanner *)

Module MatchFacts.

Import RegExp.

(** A match runs its continuation at a position at or after the one it
    started from. *)
Lemma rmatch_reaches ic r :
  forall st k res,
    rmatch ic r st k = Some res ->
    exists st', k st' = Some res /\ rest st' `suffix_of` rest st.
Proof.
  assert (Hstep : forall p st k res,
    step p st k = Some res ->
    exists st', k st' = Some res /\ rest st' `suffix_of` rest st).
  { intros p [bef [|c tl] cs] k res; unfold step; cbn; [done|].
    destruct (p c); [|done]. intros H. eexists. split; [exact H|].
    cbn. by apply suffix_cons_r. }
  assert (Hguard : forall b st k res,
    guard b st k = Some res ->
    exists st', k st' = Some res /\ rest st' `suffix_of` rest st).
  { intros [] st k res; unfold guard; [|done]. intros H. by exists st. }
  assert (Hloop : forall r1,
    (forall st k res,
       rmatch ic r1 st k = Some res ->
       exists st', k st' = Some res /\ rest st' `suffix_of` rest st) ->
    forall k res fuel cur,
      (fix loop (fuel : nat) (cur : mstate) : option mstate :=
         match fuel with
         | O => k cur
         | S fuel' =>
             match rmatch ic r1 cur (fun nxt =>
                     if (length (rest nxt) <? length (rest cur))%nat
                     then loop fuel' nxt else None) with
             | Some res => Some res
             | None => k cur
             end
         end) fuel cur = Some res ->
      exists st', k st' = Some res /\ rest st' `suffix_of` rest cur).
  { intros r1 IH k res fuel.
    induction fuel as [|fuel IHf]; intros cur; [by exists cur|].
    destruct (rmatch ic r1 cur _) as [res'|] eqn:E; [|by exists cur].
    intros [= ->]. apply IH in E as (nxt & Hn & Hs).
    destruct (length (rest nxt) <? length (rest cur))%nat; [|done].
    apply IHf in Hn as (st' & Hk & Hs'). exists st'. split; [done|].
    by etrans. }
  induction r as [|x| |neg items| | |neg|r1 IH1 r2 IH2|r1 IH1 r2 IH2
                  |r1 IH1|r1 IH1|r1 IH1|n r1 IH1];
    intros st k res; cbn [rmatch].
  - intros H. by exists st.
  - apply Hstep.
  - apply Hstep.
  - apply Hstep.
  - apply Hguard.
  - apply Hguard.
  - apply Hguard.
  - intros H. apply IH1 in H as (st1 & H & Hs1).
    apply IH2 in H as (st2 & H & Hs2). exists st2. split; [done|].
    by etrans.
  - destruct (rmatch ic r1 st k) as [res'|] eqn:E; [|by apply IH2].
    intros [= ->]. by apply IH1.
  - by apply Hloop.
  - intros H. apply IH1 in H as (st1 & H & Hs1).
    apply Hloop in H as (st2 & H & Hs2); [|done].
    exists st2. split; [done|]. by etrans.
  - destruct (rmatch ic r1 st k) as [res'|] eqn:E; [|by exists st].
    intros [= ->]. by apply IH1.
  - intros H. apply IH1 in H as (st1 & H & Hs1). eexists. split; [exact H|].
    done.
Qed.

Lemma upper_backspace c : Str.upper c = Str.BS -> c = Str.BS.
Proof.
  destruct c as [[] [] [] [] [] [] [] []]; vm_compute; congruence.
Qed.

(** A pattern that asks for a backspace after two parts matches only
    where a backspace follows. *)
Lemma backspace_needed r1 r2 r3 st k res :
  rmatch true (RSeq r1 (RSeq r2 (RSeq (RChar Str.BS) r3))) st k = Some res ->
  Str.BS ∈ rest st.
Proof.
  cbn [rmatch]. intros H.
  apply rmatch_reaches in H as (st1 & H & Hs1).
  apply rmatch_reaches in H as (st2 & H & Hs2).
  unfold step in H. destruct (rest st2) as [|c tl] eqn:E; [done|].
  case_bool_decide as Hc; [|done]. cbn in Hc. symmetry in Hc.
  apply upper_backspace in Hc. subst c.
  destruct Hs2 as [l2 Hl2]. destruct Hs1 as [l1 Hl1].
  rewrite Hl1, Hl2. rewrite !elem_of_app. right. right. left.
Qed.

Lemma search_needs_backspace r1 r2 r3 bef l :
  Str.BS ∉ l ->
  search true (RSeq r1 (RSeq r2 (RSeq (RChar Str.BS) r3))) bef l = None.
Proof.
  revert bef. induction l as [|c l IH]; intros bef Hn; cbn [search].
  - destruct (rmatch _ _ _ _) eqn:E; [|done].
    apply backspace_needed in E. done.
  - destruct (rmatch _ _ _ _) eqn:E.
    + apply backspace_needed in E. done.
    + apply IH. intros Hl. apply Hn. by right.
Qed.

Lemma elem_of_rev (c : ascii) l : c ∈ rev l <-> c ∈ l.
Proof. rewrite !list_elem_of_In. symmetry. apply in_rev. Qed.

(** The pieces of a text hold characters of the text only. *)
Lemma split_lines_chars cur l piece c :
  piece ∈ Str.split_lines_aux cur l -> c ∈ piece -> c ∈ cur \/ c ∈ l.
Proof.
  revert cur. induction l as [|x l IH]; intros cur; cbn.
  - intros ->%list_elem_of_singleton Hc. left. by apply elem_of_rev.
  - assert (Hrest : forall cur0 : list ascii,
      piece ∈ Str.split_lines_aux [] l -> c ∈ piece ->
      c ∈ cur0 \/ c ∈ x :: l).
    { intros cur0 H Hc. destruct (IH _ H Hc) as [Hnil|Hl].
      - by apply elem_of_nil in Hnil.
      - right. by right. }
    destruct (Str.code x =? 10)%nat.
    + destruct cur as [|p cur'].
      * intros [->|H]%elem_of_cons Hc; [by apply elem_of_nil in Hc|].
        by apply Hrest.
      * destruct (Str.code p =? 13)%nat.
        -- intros [->|H]%elem_of_cons Hc; [|by apply Hrest].
           left. right. by apply elem_of_rev.
        -- intros [->|H]%elem_of_cons Hc; [|by apply Hrest].
           left. by apply (elem_of_rev c (p :: cur')).
    + intros H Hc. destruct (IH _ H Hc) as [Hx|Hl]; [|right; by right].
      apply elem_of_cons in Hx as [->|Hx]; [right; left | by left].
Qed.

Lemma chars_of_chars l : Str.chars (Str.of_chars l) = l.
Proof. apply list_ascii_of_string_of_list_ascii. Qed.

End MatchFacts.

(** ** The lock *)

Module LockProps.

Import Storage Outcome.

#[local] Arguments releaseLock : simpl never.




End LockProps.

(** ** Reading a corrupted storage file *)

Module CorruptProps.

Import Storage.

(** C3 at its failing input.  The storage file holds text that is no
    JSON; [readData] throws its read error and leaves the directory as it
    found it, with no backup file beside the storage file. *)
Theorem readData_corrupt_makes_no_backup :
  readData Sample.host Sample.corrupt
  = (inl "Failed to read storage data: Unexpected token in JSON",
     Sample.corrupt)
  /\ dom (files Sample.corrupt) = {[ storageFile ]}.
Proof. split; [vm_compute; reflexivity | vm_compute; reflexivity]. Qed.

(** The same holds for every unreadable storage file of a quiet
    directory: the state after the failed read is the state before. *)
Lemma readData_failure_changes_nothing (host : Host) m t r e :
  m !! lockFile = None ->
  Trace.read_outcome m = inl e ->
  readData host (State (Some m) false t r) = (inl e, State (Some m) false t r).
Proof. intros Hm He. rewrite Run.readData_quiet by done. by rewrite He. Qed.

(** The check [initialize] runs on the same file does what the read
    leaves out: it copies the file to a backup named after the time, and
    its error says so. *)
Lemma validateStorageFile_corrupt_backs_up :
  exists s',
    validateStorageFile Sample.host Sample.corrupt
    = (inl "Storage file is corrupted and has been backed up", s')
    /\ data <$> files s' !! "debts.json.backup.1700000000000"
       = Some (OtherText "invalid json content")
    /\ data <$> files s' !! storageFile
       = Some (OtherText "invalid json content").
Proof.
  eexists. split; [vm_compute; reflexivity|].
  split; vm_compute; reflexivity.
Qed.

End CorruptProps.

(** ** Structural validation *)

Module ValidationProps.

Import Js Storage.






End ValidationProps.

(** ** The scanner on the line of the specification *)

Module ScannerProps.

Import Scanner.

(** The pattern [extractScanResults] hands to [RegExp]: the cooked
    template has lost its backslashes, so [\w] is the letter [w], [\s]
    the letter [s], and [\b] the backspace character. *)
Lemma cooked_pattern :
  pattern_of template_head template_tail DEBT_MARKERS
  = Some ("(?:^|[^w])(TODO|FIXME|HACK|BUG|NOTE)(?:"
          +:+ String Str.BS "" +:+ ")s*[:-]s*(.+)$").
Proof. vm_compute. reflexivity. Qed.

(** The pattern of the conversion command keeps its escapes. *)
Lemma convert_pattern :
  pattern_of convert_template_head convert_template_tail DEBT_MARKERS
  = Some "(?:^|[^\w])(TODO|FIXME|HACK|BUG|NOTE)(?:\b)\s*[:-]\s*(.+)$".
Proof. vm_compute. reflexivity. Qed.

(** C1 at its failing input: the scan of the one line
    ["// TODO: fix null check"] with the default markers yields no
    match. *)
Theorem scan_of_spec_line_is_empty (getRelativePath : string -> string)
  (path : string) :
  extractScanResults getRelativePath path "// TODO: fix null check"
    defaultConfig
  = Some [].
Proof. vm_compute. reflexivity. Qed.

(** The file of the scanner's own test yields no match either. *)
Lemma scan_of_test_file_is_empty (getRelativePath : string -> string)
  (path : string) :
  extractScanResults getRelativePath path
    (Str.join (String Str.LF "")
       ["// This is a file"; "// TODO: Refactor this function";
        "function demo() {"; "  // FIXME: handle edge cases";
        "  return 1;"; "}"])
    defaultConfig
  = Some [].
Proof. vm_compute. reflexivity. Qed.

Lemma scan_lines_none (getRelativePath : string -> string) re path index
  lines :
  Forall (fun line => RegExp.exec2 true re line = None) lines ->
  scan_lines getRelativePath re path index lines = [].
Proof.
  intros Hall. revert index.
  induction Hall as [|line lines Hline _ IH]; intros index; cbn; [done|].
  by rewrite Hline.
Qed.

(** No text without a backspace character yields a match under the
    default markers: the cooked pattern asks for one after the marker. *)
Lemma scan_without_backspace_is_empty (getRelativePath : string -> string)
  (path text : string) :
  Str.BS ∉ Str.chars text ->
  extractScanResults getRelativePath path text defaultConfig = Some [].
Proof.
  intros Hn. unfold extractScanResults, extract_with.
  cbn [debtMarkers defaultConfig].
  destruct (regex_of template_head template_tail DEBT_MARKERS) as [re|]
    eqn:Ere; vm_compute in Ere; [|discriminate].
  injection Ere as <-. cbn [mbind option_bind]. f_equal.
  apply scan_lines_none. apply Forall_forall. intros line Hline.
  unfold RegExp.exec2. rewrite MatchFacts.search_needs_backspace; [done|].
  intros Hbs. apply Hn. unfold Str.split_lines in Hline.
  apply list_elem_of_fmap in Hline as (piece & -> & Hpiece).
  rewrite MatchFacts.chars_of_chars in Hbs.
  destruct (MatchFacts.split_lines_chars _ _ _ _ Hpiece Hbs) as [H|H];
    [by apply elem_of_nil in H | done].
Qed.

(** With the pattern of the conversion command the same line gives the
    match the specification describes. *)
Lemma convert_pattern_on_spec_line (getRelativePath : string -> string)
  (path : string) :
  extractWithConvertPattern getRelativePath path "// TODO: fix null check"
    defaultConfig
  = Some
      [{| filePath := getRelativePath path;
          lineNumber := 1;
          marker := "TODO";
          content := "// TODO: fix null check";
          suggestedDebt :=
            {| sd_title := "TODO: fix null check";
               sd_description := "fix null check";
               sd_filePath := getRelativePath path;
               sd_lineNumber := 1;
               sd_severity := SevLow;
               sd_category := CatCodeQuality;
               sd_status := OPEN;
               sd_priority := PrioNormal;
               sd_tags := ["TODO"] |} |}].
Proof. vm_compute. reflexivity. Qed.

(** The cooked pattern does match a line whose marker is followed by a
    backspace. *)
Lemma cooked_pattern_wants_backspace (getRelativePath : string -> string)
  (path : string) :
  (fun rs => map marker rs)
    <$> extractScanResults getRelativePath path
          ("// TODO" +:+ String Str.BS "" +:+ ": fix null check")
          defaultConfig
  = Some ["TODO"].
Proof. vm_compute. reflexivity. Qed.

End ScannerProps.

(** ** A status change through [updateDebt] *)

Module UpdateStatusProps.

Import Storage.

(** C2 at its failing input.  The only entry is closed; the whitelist
    allows [open] alone from there.  [updateDebt] with the status
    [review] succeeds, and the entry read back has the status
    [review]. *)
Theorem updateDebt_ignores_whitelist :
  (REVIEW ∉ DebtService.allowedStatusTransitions CLOSED)
  /\ exists updated s1 stored,
       DebtService.updateDebt Sample.host "debt-1"
         (DebtService.status_update REVIEW)
         (Sample.store [Sample.entry "debt-1" CLOSED])
       = (inr updated, s1)
       /\ Js.get updated "status" = Some (JStr "review")
       /\ DebtService.getDebt Sample.host "debt-1" s1
          = (inr (Some stored), s1)
       /\ Js.get stored "status" = Some (JStr "review").
Proof.
  split.
  - cbn. intros H%list_elem_of_singleton. discriminate.
  - eexists _, _, _.
    split; [vm_compute; reflexivity|].
    split; [vm_compute; reflexivity|].
    split; [vm_compute; reflexivity|].
    vm_compute; reflexivity.
Qed.

(** [transitionStatus] refuses the same change. *)
Lemma transitionStatus_refuses_the_same :
  DebtService.transitionStatus Sample.host "debt-1" REVIEW
    (Sample.store [Sample.entry "debt-1" CLOSED])
  = (inl "Invalid status transition from 'closed' to 'review'",
     Sample.store [Sample.entry "debt-1" CLOSED]).
Proof. vm_compute. reflexivity. Qed.

End UpdateStatusProps.

(** ** A write followed by a read *)

Module RoundTripProps.

Import Js Storage.





End RoundTripProps.

(** ** Creating an entry *)

Module CreateProps.

Import Js Storage Outcome.

#[local] Arguments DebtService.blank : simpl never.

(** *** Trimming *)

Lemma of_chars_nil l : Str.of_chars l = "" -> l = [].
Proof. destruct l; [done | intros [=]]. Qed.

Lemma drop_space_keeps l c :
  Str.is_space c = false -> Str.drop_space (l ++ [c]) <> [].
Proof.
  intros Hc. induction l as [|x l IH]; cbn.
  - by rewrite Hc.
  - destruct (Str.is_space x); [exact IH | done].
Qed.

(** A string that starts with a character other than white space does
    not trim to the empty string. *)
Lemma trim_nonblank c s :
  Str.is_space c = false -> Str.trim (String c s) <> "".
Proof.
  intros Hc Ht. unfold Str.trim in Ht. apply of_chars_nil in Ht.
  cbn in Ht. rewrite Hc in Ht. cbn in Ht.
  apply (f_equal (@rev ascii)) in Ht. rewrite rev_involutive in Ht.
  cbn in Ht. by apply drop_space_keeps in Ht.
Qed.

Lemma length_zero s : (String.length s =? 0)%nat = bool_decide (s = "").
Proof. destruct s; done. Qed.

(** *** The two layers of checks *)

Lemma blank_text_empty s : s = "" -> blank_text s = true.
Proof. intros ->. done. Qed.

Lemma num_lt_0_1 q : num_lt q 0 = true -> num_lt q 1 = true.
Proof.
  unfold num_lt. rewrite !negb_true_iff.
  intros H0. destruct (Qle_bool 1 q) eqn:H1; [|done].
  apply Qle_bool_iff in H1.
  assert (Hle : (0 <= q)%Q) by (apply (Qle_trans _ 1); [done | exact H1]).
  apply Qle_bool_iff in Hle. congruence.
Qed.

Lemma rejected_layers d :
  rejected d = entry_rejected d || structure_rejected d.
Proof.
  unfold rejected, entry_rejected, structure_rejected.
  pose proof (blank_text_empty (in_filePath d)).
  pose proof (num_lt_0_1 (in_lineNumber d)).
  destruct (blank_text (in_title d)), (blank_text (in_description d)),
    (blank_text (in_filePath d)),
    (100 <? String.length (in_title d))%nat,
    (500 <? String.length (in_description d))%nat,
    (num_lt (in_lineNumber d) 1),
    (num_lt (in_lineNumber d) 0); cbn; try done;
    case_bool_decide; cbn; try done; naive_solver.
Qed.

Lemma blank_input s :
  DebtService.blank (Some (JStr s)) = inr (blank_text s).
Proof.
  unfold DebtService.blank, blank_text. cbn.
  case_bool_decide as E; cbn.
  - subst. done.
  - by rewrite length_zero.
Qed.

(** The properties of the object of an input. *)
Lemma input_title d :
  lookup "title" (input_props d) = Some (JStr (in_title d)).
Proof. reflexivity. Qed.

Lemma input_description d :
  lookup "description" (input_props d) = Some (JStr (in_description d)).
Proof. reflexivity. Qed.

Lemma input_filePath d :
  lookup "filePath" (input_props d) = Some (JStr (in_filePath d)).
Proof. reflexivity. Qed.

Lemma input_lineNumber d :
  lookup "lineNumber" (input_props d) = Some (JNum (in_lineNumber d)).
Proof. reflexivity. Qed.

Lemma input_required d :
  Forall (fun field => field = "id" \/ is_Some (lookup field (input_props d)))
    requiredFields.
Proof.
  unfold requiredFields.
  repeat (apply Forall_cons; split;
          [first [by left | right; eexists; reflexivity]|]).
  constructor.
Qed.

Lemma validateDebtEntry_input d :
  exists errors,
    DebtService.validateDebtEntry (JObj (input_props d)) = inr errors
    /\ (0 <? length errors)%nat = entry_rejected d.
Proof.
  unfold DebtService.validateDebtEntry. cbn [get].
  rewrite input_title, input_description, input_filePath, input_lineNumber.
  rewrite !blank_input. cbn [Res.bind]. eexists. split; [done|].
  unfold entry_rejected.
  change (falsy (Some (JStr (in_filePath d))))
    with (negb (negb (bool_decide (in_filePath d = "")))).
  change (DebtService.missing_or_negative (Some (JNum (in_lineNumber d))))
    with (num_lt (in_lineNumber d) 0).
  change (DebtService.longer_than 100 (Some (JStr (in_title d))))
    with (100 <? String.length (in_title d))%nat.
  change (DebtService.longer_than 500 (Some (JStr (in_description d))))
    with (500 <? String.length (in_description d))%nat.
  generalize (blank_text (in_title d)), (blank_text (in_description d)),
    (bool_decide (in_filePath d = "")), (num_lt (in_lineNumber d) 0),
    (100 <? String.length (in_title d))%nat,
    (500 <? String.length (in_description d))%nat.
  by intros [] [] [] [] [] [].
Qed.

Section Host.

Variable host : Host.

Lemma lookup_new_entry t r d k :
  k <> "id" -> k <> "createdAt" -> k <> "updatedAt" ->
  get (Trace.new_entry host t r d) k = lookup k (input_props d).
Proof.
  intros H1 H2 H3. unfold Trace.new_entry. cbn [get].
  by rewrite !JsFacts.lookup_set_ne.
Qed.

Lemma new_entry_id t r d :
  get (Trace.new_entry host t r d) "id" = Some (JStr (Trace.debt_id host t r)).
Proof.
  unfold Trace.new_entry. cbn [get].
  rewrite 2!JsFacts.lookup_set_ne by done. apply JsFacts.lookup_set_eq.
Qed.

Lemma new_entry_createdAt t r d :
  get (Trace.new_entry host t r d) "createdAt"
  = Some (JDate (clock host (S t))).
Proof.
  unfold Trace.new_entry. cbn [get].
  rewrite JsFacts.lookup_set_ne by done. apply JsFacts.lookup_set_eq.
Qed.

Lemma new_entry_updatedAt t r d :
  get (Trace.new_entry host t r d) "updatedAt"
  = Some (JDate (clock host (S (S t)))).
Proof.
  unfold Trace.new_entry. cbn [get]. by rewrite JsFacts.lookup_set_eq.
Qed.

Lemma new_entry_wf t r d :
  Shape.entry_wf (Trace.new_entry host t r d)
  <-> structure_rejected d = false.
Proof.
  unfold Shape.entry_wf, structure_rejected. split.
  - intros (props & E & _ & _ & Hti & Hfp & Hln).
    assert (G : forall k, get (Trace.new_entry host t r d) k = lookup k props)
      by (by rewrite E).
    rewrite <- G, lookup_new_entry in Hti, Hfp, Hln by done.
    rewrite ?input_title, ?input_filePath, ?input_lineNumber
      in Hti, Hfp, Hln.
    cbn in Hti, Hfp, Hln. unfold blank_text.
    apply negb_true_iff in Hti, Hfp, Hln. by rewrite Hti, Hfp, Hln.
  - intros H. apply orb_false_elim in H as [H Hln].
    apply orb_false_elim in H as [Hti Hfp].
    unfold blank_text in Hti, Hfp.
    eexists. split; [reflexivity|].
    change (lookup ?k (set "updatedAt" ?a (set "createdAt" ?b
              (set "id" ?c (input_props d)))))
      with (get (Trace.new_entry host t r d) k).
    split_and!.
    + eapply Forall_impl; [apply (input_required d)|].
      cbn beta. intros field [->|Hf].
      * rewrite new_entry_id. by eexists.
      * destruct (decide (field = "id")) as [->|N1];
          [rewrite new_entry_id; by eexists|].
        unfold Trace.new_entry. cbn [get].
        by do 3 apply JsFacts.set_is_Some.
    + rewrite new_entry_id. cbn. apply negb_true_iff.
      apply bool_decide_eq_false_2. apply trim_nonblank. done.
    + rewrite lookup_new_entry, input_title by done. cbn.
      by rewrite Hti.
    + rewrite lookup_new_entry, input_filePath by done. cbn.
      by rewrite Hfp.
    + rewrite lookup_new_entry, input_lineNumber by done. cbn.
      by rewrite Hln.
Qed.

Lemma added_doc_wf v t r d :
  Shape.doc_wf v ->
  Shape.doc_wf (with_debts v (debts_of v ++ [Trace.new_entry host t r d]))
  <-> structure_rejected d = false.
Proof.
  intros Hv. rewrite <- (new_entry_wf t r d). split.
  - intros H%Valid.doc_wf_entries.
    rewrite Valid.debts_of_with_debts in H by done.
    apply Forall_app in H as [_ H]. by inversion H.
  - intros H. apply Valid.doc_wf_with_debts; [done|].
    apply Forall_app. split; [by apply Valid.doc_wf_entries|].
    by repeat constructor.
Qed.

Lemma createDebt_layers s d :
  exists e,
    DebtService.createDebt host d s
    = if entry_rejected d then (inl e, s) else addDebt host d s.
Proof.
  destruct (validateDebtEntry_input d) as (errors & Herr & Hlen).
  unfold DebtService.createDebt, Eff.bind, Eff.lift.
  rewrite Herr, Hlen. eexists.
  destruct (entry_rejected d); [|done]. reflexivity.
Qed.

(** [createDebt] from a state whose storage file reads as [v]. *)
Lemma createDebt_read s v s0 d :
  readData host s = (inr v, s0) ->
  if rejected d
  then exists e s1, DebtService.createDebt host d s = (inl e, s1)
  else exists s1,
         DebtService.createDebt host d s
         = (inr (Trace.new_entry host (tick s0) (draws s0) d), s1)
         /\ readData host s1
            = (inr (jsonify
                      (stamp (clock host (S (S (S (tick s0)))))
                         (with_debts v
                            (debts_of v
                             ++ [Trace.new_entry host (tick s0) (draws s0)
                                   d])))),
               s1).
Proof.
  intros ER. rewrite rejected_layers.
  destruct (createDebt_layers s d) as (e0 & ->).
  destruct (entry_rejected d) eqn:E1; cbn [orb]; [eauto|].
  unfold addDebt. rewrite (Run.from_quiet host _ _ _ _ _ ER).
  pose proof (Run.readData_validates host _ _ _ ER) as Hv.
  apply Run.readData_inv in ER as (_ & m & t' & _ & -> & Ho).
  fold (addDebt host d).
  rewrite (Run.addDebt_quiet host _ _ _ v) by
    (done || apply lookup_delete_eq).
  cbn zeta. cbn [tick draws].
  apply Valid.validateDataStructure_iff in Hv.
  destruct (structure_rejected d) eqn:E2.
  - destruct (validateDataStructure _) as [e|[]] eqn:EV; [eauto|].
    apply Valid.validateDataStructure_iff, added_doc_wf in EV; [|done].
    congruence.
  - assert (Hwf : Shape.doc_wf
              (with_debts v
                 (debts_of v ++ [Trace.new_entry host t' (draws s) d])))
      by by apply added_doc_wf.
    pose proof Hwf as EV. apply Valid.validateDataStructure_iff in EV.
    rewrite EV. eexists. split; [done|].
    rewrite Run.readData_quiet
      by (apply Run.no_lock_after_write, lookup_delete_eq).
    rewrite Run.read_outcome_after_write; [done|].
    apply Run.read_outcome_inv in Ho as (f & _ & Hp & _).
    apply Run.JSON_parse_plain in Hp.
    apply Valid.doc_wf_jsonify.
    + by apply Valid.doc_wf_stamp.
    + apply Valid.structured_stamp_metadata.
      rewrite Valid.get_with_debts by done.
      destruct Hv as (props & debts & -> & _ & Hmeta & _).
      apply Valid.is_object_plain; [done|].
      intros x Hx. by eapply JsFacts.plain_get.
    + rewrite Valid.get_stamp, Valid.get_with_debts by done.
      destruct Hv as (props & debts & -> & _ & _ & Hset & _).
      apply Valid.is_object_plain; [done|].
      intros x Hx. by eapply JsFacts.plain_get.
Qed.

End Host.

(** C4, as amended.  From a state whose storage file can be read,
    [createDebt] fails exactly when the title, the description or the
    file path is empty or made of white space only, the title has more
    than 100 characters, the description more than 500, or the line
    number is below one (below zero is refused by the check of the
    service, the rest by the validation of the write).  On success the
    entry has the id [debt-<time>-<suffix>] made of the clock and of
    characters 2 to 7 of the random numeral, and [createdAt] and
    [updatedAt] hold the next two readings of the clock, equal when the
    clock did not move between them. *)
Theorem createDebt_outcome (host : Host) (s s0 : state) (v : jsval)
  (d : DebtInput) :
  readData host s = (inr v, s0) ->
  ((exists e, fst (DebtService.createDebt host d s) = inl e)
   <-> rejected d = true)
  /\ (rejected d = false ->
      exists created s1,
        DebtService.createDebt host d s = (inr created, s1)
        /\ get created "id"
           = Some (JStr ("debt-" +:+ Str.decimal (clock host (tick s0))
                         +:+ "-"
                         +:+ Str.substring 2 8 (random host (draws s0))))
        /\ get created "createdAt"
           = Some (JDate (clock host (S (tick s0))))
        /\ get created "updatedAt"
           = Some (JDate (clock host (S (S (tick s0)))))
        /\ (clock host (S (tick s0)) = clock host (S (S (tick s0))) ->
            get created "createdAt" = get created "updatedAt")).
Proof.
  intros ER. pose proof (createDebt_read host s v s0 d ER) as H.
  destruct (rejected d) eqn:E.
  - destruct H as (e & s1 & H). split; [|done].
    split; [done|]. intros _. exists e. by rewrite H.
  - destruct H as (s1 & H & _). split.
    + split; [|done]. intros (e & He). by rewrite H in He.
    + intros _. eexists _, s1. split; [exact H|].
      rewrite new_entry_id, new_entry_createdAt, new_entry_updatedAt.
      split_and!; try done. by intros ->.
Qed.

(** The theorem at the seeded store and the sample input. *)
Lemma createDebt_outcome_witness :
  exists created s1,
    DebtService.createDebt Sample.host Sample.input Sample.fresh
    = (inr created, s1)
    /\ get created "id" = Some (JStr "debt-1700000000000-k3x9q0")
    /\ get created "createdAt" = Some (JDate 1700000000007)
    /\ get created "updatedAt" = Some (JDate 1700000000014).
Proof.
  destruct (createDebt_outcome Sample.host Sample.fresh Sample.fresh
              Sample.emptyDocument Sample.input)
    as [_ H].
  - vm_compute. reflexivity.
  - destruct H as (created & s1 & Hc & Hid & Hca & Hua & _).
    + vm_compute. reflexivity.
    + exists created, s1. split_and!; [exact Hc|..].
      * rewrite Hid. vm_compute. reflexivity.
      * rewrite Hca. vm_compute. reflexivity.
      * rewrite Hua. vm_compute. reflexivity.
Defined.

(** C4 as stated fails: a title of one space is none of the cases the
    claim lists, and [createDebt] refuses it. *)
Lemma createDebt_refuses_blank_title :
  rejected_as_specified Sample.blankTitleInput = false
  /\ DebtService.createDebt Sample.host Sample.blankTitleInput Sample.fresh
     = (inl "Invalid debt entry: Title is required", Sample.fresh).
Proof. split; vm_compute; reflexivity. Qed.

(** The line number zero passes the check of the service and is refused
    by the validation of the write. *)
Lemma createDebt_line_zero :
  exists s1,
    DebtService.createDebt Sample.host
      {| in_title := "Test Debt"; in_description := "Test description";
         in_filePath := "test.ts"; in_lineNumber := 0;
         in_severity := SevMedium; in_category := CatCodeQuality;
         in_status := OPEN; in_priority := PrioNormal;
         in_dueDate := None; in_tags := []; in_context := None;
         in_assignee := None; in_estimatedEffort := None;
         in_notes := None |}
      Sample.fresh
    = (inl ("Failed to add debt: Failed to write storage data: "
            +:+ "Invalid debt structure: lineNumber must be a positive number"),
       s1).
Proof. eexists. vm_compute. reflexivity. Qed.

(** With a clock that moves, the two timestamps of a new entry differ. *)
Lemma createDebt_timestamps_may_differ :
  exists created s1,
    DebtService.createDebt Sample.host Sample.input Sample.fresh
    = (inr created, s1)
    /\ get created "createdAt" <> get created "updatedAt".
Proof.
  eexists _, _. split; [vm_compute; reflexivity|].
  vm_compute. intros [=].
Qed.

End CreateProps.

(** ** Updating, deleting and the status machine *)

Module LifecycleProps.

Import Js Storage.

Section Host.

Variable host : Host.






(** A change of status alone keeps an entry valid. *)
Lemma status_update_props newStatus :
  update_props (DebtService.status_update newStatus)
  = [("status", JStr (status_token newStatus))].
Proof. reflexivity. Qed.

Lemma status_updated_get t e newStatus k :
  k <> "status" -> k <> "updatedAt" ->
  get (Trace.updated_entry host t e (DebtService.status_update newStatus)) k
  = lookup k (own e).
Proof.
  intros H1 H2. unfold Trace.updated_entry. rewrite status_update_props.
  cbn [get spread foldl fst snd].
  by rewrite !JsFacts.lookup_set_ne.
Qed.

Lemma status_updated_status t e newStatus :
  get (Trace.updated_entry host t e (DebtService.status_update newStatus))
    "status"
  = Some (JStr (status_token newStatus)).
Proof.
  unfold Trace.updated_entry. rewrite status_update_props.
  cbn [get spread foldl fst snd].
  rewrite JsFacts.lookup_set_ne by done. apply JsFacts.lookup_set_eq.
Qed.


Lemma status_updated_wf t e newStatus :
  Shape.entry_wf e ->
  Shape.entry_wf
    (Trace.updated_entry host t e (DebtService.status_update newStatus)).
Proof.
  intros (props & -> & Hreq & Hid & Hti & Hfp & Hln).
  eexists. split; [reflexivity|].
  change (lookup ?k (set "updatedAt" ?a (spread ?b ?c)))
    with (get (JObj (set "updatedAt" a (spread b c))) k).
  fold (Trace.updated_entry host t (JObj props)
          (DebtService.status_update newStatus)).
  rewrite !status_updated_get by done. cbn [own].
  split_and!; try done.
  eapply Forall_impl; [exact Hreq|]. cbn beta. intros field Hf.
  unfold Trace.updated_entry. rewrite status_update_props.
  cbn [get spread foldl fst snd own].
  by do 2 apply JsFacts.set_is_Some.
Qed.

End Host.




(** Duplicate ids can come from the service itself: with a clock and a
    random source that stand still, two creations store two entries
    under one id. *)
Lemma createDebt_twice_can_share_an_id :
  let s1 := snd (DebtService.createDebt Sample.frozenHost Sample.input
                   Sample.fresh) in
  let s2 := snd (DebtService.createDebt Sample.frozenHost Sample.input s1) in
  exists entries,
    fst (DebtService.getAllDebts Sample.frozenHost s2) = inr entries
    /\ map (fun e => get e "id") entries
       = [Some (JStr "debt-1700000000000-k3x9q0");
          Some (JStr "debt-1700000000000-k3x9q0")].
Proof.
  intros s1 s2. eexists. split; [vm_compute; reflexivity|].
  vm_compute. reflexivity.
Qed.





End LifecycleProps.

(** * Properties of the rest of the code *)

(** ** Reading and writing from any unlocked state *)

Module Unlocked.

Import Js Storage Trace.

#[local] Arguments releaseLock : simpl never.
#[local] Arguments acquireLock : simpl never.

Section Host.

Variable host : Host.

(** The three ways an acquisition by a service that holds no lock ends. *)
Lemma acquireLock_unlocked d t r :
  acquireLock host (State d false t r)
  = match d with
    | None =>
        (inl ("Failed to acquire lock: " +:+ ENOENT), State None false t r)
    | Some m =>
        match m !! lockFile with
        | None =>
            (inr tt,
             State (Some (<[lockFile := File (lockText host) (clock host t)]> m))
               true t r)
        | Some f =>
            if (clock host t - mtime f <? 30000)%Z
            then (inl Outcome.contention, State (Some m) false (S t) r)
            else
              (inr tt,
               State (Some (<[lockFile :=
                               File (lockText host) (clock host (S t))]>
                              (delete lockFile m)))
                 true (S t) r)
        end
    end.
Proof.
  unfold acquireLock, Eff.bind, Eff.catch, Eff.gets, existsSync,
    writeFileSync, unlinkSync, statSync_mtime, Date_now, Eff.modify,
    Eff.throw, Eff.ret, files.
  cbn. destruct d as [m|]; cbn; [|by rewrite lookup_empty].
  destruct (m !! lockFile) as [f|] eqn:E; cbn; [|done].
  rewrite E. cbn.
  destruct (clock host t - mtime f <? 30000)%Z; cbn; [done|].
  rewrite E. done.
Qed.

(** The rest of [readData] once the lock is taken. *)
Lemma readData_locked m t r :
  (do present <- existsSync storageFile;
   if negb present then Eff.throw "Storage file not found"
   else
     do fileContent <- readFileSync storageFile;
     do parsed <- Eff.lift (JSON_parse fileContent);
     do_ Eff.lift (validateDataStructure parsed);
     Eff.ret parsed)
    (State (Some m) true t r)
  = (match m !! storageFile with
     | None => inl "Storage file not found"
     | Some f =>
         match JSON_parse (data f) with
         | inl e => inl e
         | inr parsed =>
             match validateDataStructure parsed with
             | inl e => inl e
             | inr _ => inr parsed
             end
         end
     end, State (Some m) true t r).
Proof.
  unfold Eff.bind, existsSync, readFileSync, Eff.gets, Eff.lift, Eff.throw,
    Eff.ret, files. cbn.
  destruct (m !! storageFile) as [f|] eqn:E; cbn; [|done].
  rewrite E.
  destruct (JSON_parse (data f)) as [e|parsed]; cbn; [done|].
  destruct (validateDataStructure parsed) as [e|[]]; done.
Qed.

(** [readData] from a state in which this service holds no lock. *)
Lemma readData_unlocked d t r :
  readData host (State d false t r)
  = match d with
    | None =>
        (inl ("Failed to read storage data: Failed to acquire lock: "
              +:+ ENOENT),
         State None false t r)
    | Some m =>
        match m !! lockFile with
        | None => (read_outcome m, State (Some m) false t r)
        | Some f =>
            if (clock host t - mtime f <? 30000)%Z
            then (inl ("Failed to read storage data: "
                       +:+ Outcome.contention),
                  State (Some m) false (S t) r)
            else (read_outcome m,
                  State (Some (delete lockFile m)) false (S t) r)
        end
    end.
Proof.
  destruct d as [m|].
  - destruct (m !! lockFile) as [f|] eqn:E.
    + unfold readData, Eff.finally, Eff.catch. unfold Eff.bind at 1.
      rewrite acquireLock_unlocked, E.
      destruct (clock host t - mtime f <? 30000)%Z; [done|].
      rewrite readData_locked.
      rewrite lookup_insert_ne, lookup_delete_ne by done.
      unfold read_outcome.
      destruct (m !! storageFile) as [sf|]; cbn;
        rewrite ?Run.releaseLock_locked, ?delete_insert_eq, ?delete_delete_eq; [|done].
      destruct (JSON_parse (data sf)) as [e|parsed]; cbn;
        rewrite ?Run.releaseLock_locked, ?delete_insert_eq, ?delete_delete_eq; [done|].
      destruct (validateDataStructure parsed) as [e|[]]; cbn;
        rewrite ?Run.releaseLock_locked, ?delete_insert_eq, ?delete_delete_eq; done.
    + by apply Run.readData_quiet.
  - unfold readData, Eff.finally, Eff.catch. unfold Eff.bind at 1.
    by rewrite acquireLock_unlocked.
Qed.

(** [writeData] from a state in which this service holds no lock. *)
Lemma writeData_unlocked d t r doc :
  writeData host doc (State d false t r)
  = match d with
    | None =>
        (inl ("Failed to write storage data: Failed to acquire lock: "
              +:+ ENOENT),
         State None false t r)
    | Some m =>
        match m !! lockFile with
        | None =>
            match validateDataStructure doc with
            | inr _ =>
                (inr tt, State (Some (written host m t doc)) false (S t) r)
            | inl e =>
                (inl ("Failed to write storage data: " +:+ e),
                 State (Some m) false t r)
            end
        | Some f =>
            if (clock host t - mtime f <? 30000)%Z
            then (inl ("Failed to write storage data: "
                       +:+ Outcome.contention),
                  State (Some m) false (S t) r)
            else
              match validateDataStructure doc with
              | inr _ =>
                  (inr tt,
                   State (Some (written host (delete lockFile m) (S t) doc))
                     false (S (S t)) r)
              | inl e =>
                  (inl ("Failed to write storage data: " +:+ e),
                   State (Some (delete lockFile m)) false (S t) r)
              end
        end
    end.
Proof.
  destruct d as [m|].
  - destruct (m !! lockFile) as [f|] eqn:E.
    + unfold writeData, Eff.finally, Eff.catch. unfold Eff.bind at 1.
      rewrite acquireLock_unlocked, E.
      destruct (clock host t - mtime f <? 30000)%Z; [done|].
      unfold Eff.bind, Eff.lift, Eff.throw, Eff.ret, Date_now,
        dirExistsSync, writeFileSync, Eff.gets. cbn.
      destruct (validateDataStructure doc) as [e|[]]; cbn;
        rewrite ?Run.releaseLock_locked, ?delete_insert_eq, ?delete_delete_eq; [done|].
      unfold set_dir. cbn. rewrite Run.releaseLock_locked.
      rewrite delete_insert_ne, delete_insert_eq, delete_delete_eq by done. done.
    + by apply Run.writeData_quiet.
  - unfold writeData, Eff.finally, Eff.catch. unfold Eff.bind at 1.
    by rewrite acquireLock_unlocked.
Qed.

(** A call by a service that holds the lock fails at the acquisition, and
    the [finally] of the call releases the lock all the same. *)
Lemma readData_holding d t r :
  readData host (State d true t r)
  = (inl "Failed to read storage data: Storage is already locked",
     State (delete lockFile <$> d) false t r).
Proof.
  unfold readData, Eff.finally, Eff.catch, Eff.bind, acquireLock, Eff.gets,
    Eff.throw. cbn.
  destruct d as [m|]; [by rewrite Run.releaseLock_locked | done].
Qed.

Lemma writeData_holding d t r doc :
  writeData host doc (State d true t r)
  = (inl "Failed to write storage data: Storage is already locked",
     State (delete lockFile <$> d) false t r).
Proof.
  unfold writeData, Eff.finally, Eff.catch, Eff.bind, acquireLock, Eff.gets,
    Eff.throw. cbn.
  destruct d as [m|]; [by rewrite Run.releaseLock_locked | done].
Qed.

End Host.

End Unlocked.

(** ** Locks, initialization and accessibility *)

Module HousekeepingProps.

Import Js Storage StorageApi Notions.

#[local] Arguments releaseLock : simpl never.
#[local] Arguments acquireLock : simpl never.
#[local] Arguments writeData : simpl never.
#[local] Arguments validateStorageFile : simpl never.
#[local] Arguments Trace.written : simpl never.
#[local] Arguments initialData : simpl never.

Section Host.

Variable host : Host.

Lemma validateStorageFile_readable m l t r v :
  Trace.read_outcome m = inr v ->
  validateStorageFile host (State (Some m) l t r)
  = (inr tt, State (Some m) l t r).
Proof.
  intros (f & E & Hp & Hv)%Run.read_outcome_inv.
  unfold validateStorageFile, Eff.catch, Eff.bind, existsSync, readFileSync,
    Eff.gets, Eff.lift, Eff.ret, files. cbn.
  rewrite E. cbn. rewrite E, Hp, Hv. done.
Qed.

Lemma backupName_fresh now :
  backupName now <> storageFile /\ backupName now <> lockFile.
Proof. split; intros [=]. Qed.

Lemma validateStorageFile_corrupt m l t r f e :
  m !! storageFile = Some f ->
  Trace.read_outcome m = inl e ->
  validateStorageFile host (State (Some m) l t r)
  = (inl "Storage file is corrupted and has been backed up",
     State (Some (<[backupName (clock host t) :=
                      File (data f) (clock host (S t))]> m))
       l (S t) r).
Proof.
  intros E Ho. unfold Trace.read_outcome in Ho. rewrite E in Ho.
  unfold validateStorageFile, backupCorruptedFile, copyFileSync,
    Eff.catch, Eff.bind, existsSync, readFileSync, writeFileSync, Date_now,
    Eff.gets, Eff.lift, Eff.ret, Eff.throw, files. cbn.
  rewrite E. cbn. rewrite E.
  destruct (JSON_parse (data f)) as [e1|parsed]; cbn.
  - rewrite E. cbn. rewrite E. done.
  - destruct (validateDataStructure parsed) as [e2|[]]; [|done]. cbn.
    rewrite E. cbn. rewrite E. done.
Qed.

Lemma initialData_valid projectName now now' :
  validateDataStructure
    (jsonify (stamp now (initialData projectName now'))) = inr tt.
Proof. reflexivity. Qed.

Lemma initialData_accepted projectName now :
  validateDataStructure (initialData projectName now) = inr tt.
Proof. reflexivity. Qed.

(** The state [initialize] leaves when it had to seed the storage file:
    [m] is the directory without a lock file, [t] the reading of the clock
    the seed was dated with and [w] the one the write took. *)
Lemma initialize_seeding projectName d t r :
  files (State d false t r) !! storageFile = None ->
  fresh_lock host (State d false (S t) r) = false ->
  exists w,
    initialize host projectName (State d false t r)
    = (inr tt,
       State (Some (Trace.written host (delete lockFile (default ∅ d)) w
                      (initialData projectName (clock host t))))
         false (S w) r).
Proof.
  unfold fresh_lock, files. cbn [dir tick]. intros Hs Hl.
  unfold initialize, Eff.catch, Eff.bind, dirExistsSync, existsSync,
    mkdirSync, Eff.modify, Eff.gets, Eff.ret, Date_now, set_dir, files.
  destruct d as [m|]; cbn [default] in *; unfold Datatypes.id in *.
  - cbn. rewrite Hs. cbn.
    rewrite Unlocked.writeData_unlocked.
    destruct (m !! lockFile) as [f|] eqn:E.
    + rewrite Hl. rewrite initialData_accepted.
      exists (S (S t)).
      erewrite validateStorageFile_readable; [done|].
      apply Run.read_outcome_after_write.
      apply Valid.validateDataStructure_iff, initialData_valid.
    + rewrite initialData_accepted. exists (S t).
      rewrite delete_id by done.
      erewrite validateStorageFile_readable; [done|].
      apply Run.read_outcome_after_write.
      apply Valid.validateDataStructure_iff, initialData_valid.
  - cbn. rewrite lookup_empty. cbn.
    rewrite Unlocked.writeData_unlocked. rewrite lookup_empty.
    rewrite initialData_accepted. exists (S t).
    rewrite delete_empty.
    erewrite validateStorageFile_readable; [done|].
    apply Run.read_outcome_after_write.
    apply Valid.validateDataStructure_iff, initialData_valid.
Qed.

End Host.

(** X1.  [readData] and [writeData], called by a service that does not
    hold the lock, leave it not holding the lock, whatever their outcome;
    the lock file they leave is the one of another process that made them
    fail (a lock file younger than thirty seconds), and no lock file in
    every other case. *)
Theorem lock_is_released (host : Host) (s : state) (doc : jsval) :
  isLocked s = false ->
  let kept := if fresh_lock host s then files s !! lockFile else None in
  (isLocked (snd (readData host s)) = false
   /\ files (snd (readData host s)) !! lockFile = kept)
  /\ (isLocked (snd (writeData host doc s)) = false
      /\ files (snd (writeData host doc s)) !! lockFile = kept).
Proof.
  destruct s as [d l t r]. cbn [isLocked]. intros ->.
  rewrite Unlocked.readData_unlocked, Unlocked.writeData_unlocked.
  unfold fresh_lock, files. cbn [dir tick].
  destruct d as [m|]; cbn [default]; [|by rewrite lookup_empty].
  unfold Datatypes.id.
  destruct (m !! lockFile) as [f|] eqn:E; rewrite ?E.
  - destruct (clock host t - mtime f <? 30000)%Z eqn:Ef; cbn;
      rewrite ?E, ?Ef; [done|].
    rewrite lookup_delete_eq.
    destruct (validateDataStructure doc) as [e|[]]; cbn.
    + by rewrite lookup_delete_eq.
    + unfold Trace.written. rewrite lookup_insert_ne by done.
      by rewrite lookup_delete_eq.
  - cbn. rewrite ?E.
    destruct (validateDataStructure doc) as [e|[]]; cbn; rewrite ?E;
      [done|].
    unfold Trace.written. by rewrite lookup_insert_ne.
Qed.

(** The theorem at a directory that holds a lock file of another process
    which is thirty seconds old. *)
Lemma lock_is_released_witness :
  isLocked (Sample.lockedByOther 30000) = false
  /\ files (snd (readData Sample.host (Sample.lockedByOther 30000)))
       !! lockFile = None
  /\ files (snd (writeData Sample.host Sample.emptyDocument
                   (Sample.lockedByOther 30000)))
       !! lockFile = None.
Proof.
  split; [reflexivity|].
  destruct (lock_is_released Sample.host (Sample.lockedByOther 30000)
              Sample.emptyDocument eq_refl) as [[_ Hr] [_ Hw]].
  split.
  - rewrite Hr. vm_compute. reflexivity.
  - rewrite Hw. vm_compute. reflexivity.
Defined.

(** X2.  A service that holds the lock and calls [readData] or
    [writeData] is refused at the acquisition, and the [finally] of the
    refused call releases the lock that was held: the lock file is gone
    and [isLocked] is false afterwards.  [dispose] releases a held lock
    in the same way and does nothing otherwise. *)
Theorem held_lock_is_dropped (host : Host) (d : option (gmap string file))
  (t r : nat) (doc : jsval) :
  readData host (State d true t r)
  = (inl "Failed to read storage data: Storage is already locked",
     State (delete lockFile <$> d) false t r)
  /\ writeData host doc (State d true t r)
     = (inl "Failed to write storage data: Storage is already locked",
        State (delete lockFile <$> d) false t r)
  /\ dispose (State d true t r)
     = (inr tt, State (delete lockFile <$> d) false t r)
  /\ dispose (State d false t r) = (inr tt, State d false t r).
Proof.
  split_and!.
  - apply Unlocked.readData_holding.
  - apply Unlocked.writeData_holding.
  - unfold dispose, Eff.bind, Eff.gets. cbn [isLocked].
    destruct d as [m|]; [by rewrite Run.releaseLock_locked | done].
  - done.
Qed.

(** X3.  Where there is no storage file and no lock file younger than
    thirty seconds (at the reading of the clock that follows the one the
    seed is dated with), [initialize] creates the directory if need be
    and seeds the storage file; afterwards the list of entries is empty,
    the settings are the defaults, the metadata name the project and
    count zero entries, and every other file of the directory is as it
    was. *)
Theorem initialize_seeds (host : Host) (projectName : string) (s : state) :
  isLocked s = false ->
  files s !! storageFile = None ->
  fresh_lock host (snd (Date_now host s)) = false ->
  exists s1 meta,
    initialize host projectName s = (inr tt, s1)
    /\ Storage.getAllDebts host s1 = (inr [], s1)
    /\ getSettings host s1 = (inr (Some defaultSettings), s1)
    /\ getMetadata host s1 = (inr (Some (JObj meta)), s1)
    /\ lookup "projectName" meta = Some (JStr projectName)
    /\ lookup "totalDebts" meta = Some (JNum 0)
    /\ lookup "version" meta = Some (JStr "1.0.0")
    /\ (forall name,
          name <> storageFile -> name <> lockFile ->
          files s1 !! name = files s !! name).
Proof.
  destruct s as [d l t r]. cbn [isLocked]. intros -> Hs Hl.
  destruct (initialize_seeding host projectName d t r Hs Hl) as (w & ->).
  set (m := delete lockFile (default ∅ d)).
  set (doc := initialData projectName (clock host t)).
  assert (Hm : Trace.written host m w doc !! lockFile = None).
  { apply Run.no_lock_after_write. apply lookup_delete_eq. }
  assert (Hr : readData host
                 (State (Some (Trace.written host m w doc)) false (S w) r)
               = (inr (jsonify (stamp (clock host w) doc)),
                  State (Some (Trace.written host m w doc)) false (S w) r)).
  { rewrite Run.readData_quiet by done.
    rewrite Run.read_outcome_after_write; [done|].
    apply Valid.validateDataStructure_iff, initialData_valid. }
  eexists _, _. split; [reflexivity|].
  unfold getSettings, getMetadata.
  rewrite (Run.getAllDebts_read host _ _ _ Hr).
  rewrite !(Run.after_read host _ _ _ _ _ Hr).
  split_and!; try reflexivity.
  intros name H1 H2. unfold files, Trace.written, m. cbn [dir default].
  unfold Datatypes.id.
  rewrite lookup_insert_ne by done. by rewrite lookup_delete_ne.
Qed.

(** The theorem at a workspace without a storage directory. *)
Lemma initialize_seeds_witness :
  exists s1,
    initialize Sample.host "demo" (State None false 0 0) = (inr tt, s1)
    /\ Storage.getAllDebts Sample.host s1 = (inr [], s1)
    /\ getSettings Sample.host s1 = (inr (Some defaultSettings), s1).
Proof.
  destruct (initialize_seeds Sample.host "demo" (State None false 0 0))
    as (s1 & meta & Hi & Ha & Hs & _); [reflexivity..|].
  exists s1. split; [exact Hi|]. split; [exact Ha | exact Hs].
Defined.

(** X4.  On a storage file that parses and passes the validation,
    [initialize] changes nothing, whoever holds the lock: the check it
    runs takes no lock and writes nothing. *)
Theorem initialize_keeps_valid_store (host : Host) (projectName : string)
  (s : state) :
  readable host s = true ->
  initialize host projectName s = (inr tt, s).
Proof.
  unfold readable. destruct s as [d l t r]. unfold files. cbn [dir].
  destruct (Trace.read_outcome (default ∅ d)) as [e|v] eqn:Ho; [done|].
  intros _. destruct d as [m|]; cbn [default] in Ho; [|done].
  unfold Datatypes.id in Ho.
  pose proof Ho as (f & E & _)%Run.read_outcome_inv.
  unfold initialize, Eff.catch, Eff.bind, dirExistsSync, existsSync,
    Eff.gets, Eff.ret, files. cbn. rewrite E. cbn.
  by rewrite (validateStorageFile_readable host _ _ _ _ _ Ho).
Qed.

(** The theorem at a valid store beside which another process has just
    left its lock file. *)
Lemma initialize_keeps_valid_store_witness :
  readable Sample.host (Sample.lockedByOther 5) = true
  /\ initialize Sample.host "demo" (Sample.lockedByOther 5)
     = (inr tt, Sample.lockedByOther 5).
Proof.
  split; [reflexivity|].
  apply (initialize_keeps_valid_store Sample.host "demo"
           (Sample.lockedByOther 5)).
  reflexivity.
Defined.

(** X5.  On a storage file that does not parse or does not pass the
    validation, [initialize] fails with the corruption error after it
    copied the file to a backup named after the time; the storage file
    itself stays as it is, so the next [initialize] fails in the same
    way. *)
Theorem initialize_backs_up_corrupt (host : Host) (projectName : string)
  (s : state) (f : file) :
  files s !! storageFile = Some f ->
  readable host s = false ->
  let failure : result unit :=
    inl ("Failed to initialize storage: "
         +:+ "Storage file is corrupted and has been backed up") in
  exists s1,
    initialize host projectName s = (failure, s1)
    /\ files s1 !! storageFile = Some f
    /\ data <$> files s1 !! backupName (clock host (tick s))
       = Some (data f)
    /\ (forall name,
          name <> backupName (clock host (tick s)) ->
          files s1 !! name = files s !! name)
    /\ fst (initialize host projectName s1) = failure.
Proof.
  unfold readable. destruct s as [d l t r]. unfold files. cbn [dir tick].
  intros E Hr.
  destruct (Trace.read_outcome (default ∅ d)) as [e|v] eqn:Ho; [|done].
  destruct d as [m|]; cbn [default] in *; [|by rewrite lookup_empty in E].
  unfold Datatypes.id in *.
  assert (Hinit : forall m' l' t' e',
    m' !! storageFile = Some f ->
    Trace.read_outcome m' = inl e' ->
    initialize host projectName (State (Some m') l' t' r)
    = (inl ("Failed to initialize storage: "
            +:+ "Storage file is corrupted and has been backed up"),
       State (Some (<[backupName (clock host t') :=
                        File (data f) (clock host (S t'))]> m'))
         l' (S t') r)).
  { intros m' l' t' e' E' Ho'.
    unfold initialize, Eff.catch, Eff.bind, dirExistsSync, existsSync,
      Eff.gets, Eff.ret, files. cbn. rewrite E'. cbn.
    by rewrite (validateStorageFile_corrupt host _ _ _ _ _ _ E' Ho'). }
  destruct (backupName_fresh (clock host t)) as [N1 N2].
  eexists. split; [by eapply Hinit|]. cbn [dir default].
  split_and!.
  - by rewrite lookup_insert_ne.
  - by rewrite lookup_insert_eq.
  - intros name Hn. by rewrite lookup_insert_ne.
  - erewrite Hinit; [done| |].
    + by rewrite lookup_insert_ne.
    + unfold Trace.read_outcome. rewrite lookup_insert_ne by done.
      exact Ho.
Qed.

(** The theorem at the storage file that holds no JSON. *)
Lemma initialize_backs_up_corrupt_witness :
  exists s1,
    initialize Sample.host "demo" Sample.corrupt
    = (inl ("Failed to initialize storage: "
            +:+ "Storage file is corrupted and has been backed up"), s1)
    /\ data <$> files s1 !! "debts.json.backup.1700000000000"
       = Some (OtherText "invalid json content").
Proof.
  destruct (initialize_backs_up_corrupt Sample.host "demo" Sample.corrupt
              (File (OtherText "invalid json content") 0))
    as (s1 & Hi & _ & Hb & _); [reflexivity..|].
  exists s1. split; [exact Hi | exact Hb].
Defined.

(** X6.  [isAccessible] never throws, and it answers [true] exactly when
    the service does not hold the lock, no lock file younger than thirty
    seconds is in the way, and the storage file parses and passes the
    validation. *)
Theorem isAccessible_exactly (host : Host) (s : state) :
  exists s',
    isAccessible host s
    = (inr (negb (isLocked s) && negb (fresh_lock host s)
            && readable host s), s').
Proof.
  destruct s as [d l t r]. unfold isAccessible, Eff.catch, Eff.bind.
  unfold fresh_lock, readable, files. cbn [isLocked dir tick].
  destruct l.
  - rewrite Unlocked.readData_holding. by eexists.
  - rewrite Unlocked.readData_unlocked.
    destruct d as [m|]; cbn [default]; unfold Datatypes.id.
    + destruct (m !! lockFile) as [f|].
      * destruct (clock host t - mtime f <? 30000)%Z; [by eexists|].
        destruct (Trace.read_outcome m); by eexists.
      * destruct (Trace.read_outcome m); by eexists.
    + unfold Trace.read_outcome. rewrite !lookup_empty. by eexists.
Qed.

End HousekeepingProps.

(** ** What the operations leave in the storage file *)

Module Outcomes.

Import Js Storage StorageApi.


Lemma find_none {A} (p : A -> bool) (l : list A) :
  (forall x, x ∈ l -> p x = false) -> find p l = None.
Proof.
  induction l as [|x l IH]; cbn; [done|]. intros H.
  rewrite (H x) by left. apply IH. intros y Hy. apply H. by right.
Qed.

Lemma findIndex_none p (l : list jsval) :
  (forall x, x ∈ l -> p x = false) -> findIndex p l = None.
Proof.
  induction l as [|x l IH]; cbn; [done|]. intros H.
  rewrite (H x) by left. rewrite IH; [done|].
  intros y Hy. apply H. by right.
Qed.


Lemma lookup_cons k k0 v0 props :
  lookup k ((k0, v0) :: props)
  = if bool_decide (k0 = k) then Some v0 else lookup k props.
Proof. unfold lookup. cbn. by destruct (bool_decide (k0 = k)). Qed.

Lemma lookup_absent k (props : list (string * jsval)) :
  k ∉ map fst props -> lookup k props = None.
Proof.
  induction props as [|[k0 v0] props IH]; [done|].
  cbn [map fst]. rewrite not_elem_of_cons. intros [Hk Hn].
  rewrite lookup_cons, bool_decide_eq_false_2 by done. by apply IH.
Qed.

(** In a spread, the second object wins where it defines the key. *)
Lemma lookup_spread k a b :
  NoDup (map fst b) ->
  lookup k (spread a b)
  = match lookup k b with
    | Some x => Some x
    | None => lookup k a
    end.
Proof.
  unfold spread. revert a.
  induction b as [|[k0 v0] b IH]; intros a Hnd; cbn [foldl]; [done|].
  cbn [map fst] in Hnd. apply NoDup_cons in Hnd as [Hk0 Hnd].
  rewrite IH by done. rewrite lookup_cons. cbn [fst snd].
  case_bool_decide as E.
  - subst k0. rewrite lookup_absent by done. apply JsFacts.lookup_set_eq.
  - destruct (lookup k b); [done|]. by apply JsFacts.lookup_set_ne.
Qed.


Section Host.

Variable host : Host.







End Host.

End Outcomes.

(** ** Creating, finding, listing and removing entries *)

Module QueryProps.

Import Js Storage StorageApi.

Section Host.

Variable host : Host.






End Host.

(** X7.  An id that no stored entry carries: [getDebt] answers [null];
    [updateDebt] and [deleteDebt] of the storage fail with their
    not-found errors, [updateDebt] and [transitionStatus] of the service
    with the bare not-found error; none of them writes the storage
    file. *)
Theorem unknown_id_outcomes (host : Host) (id : string) (s s0 : state)
  (v : jsval) (u : DebtUpdates) (newStatus : DebtStatus) :
  readData host s = (inr v, s0) ->
  (forall e, e ∈ debts_of v -> has_id id e = false) ->
  let missing := "Debt with id " +:+ id +:+ " not found" in
  Storage.getDebt host id s = (inr None, s0)
  /\ Storage.updateDebt host id u s
     = (inl ("Failed to update debt: " +:+ missing), s0)
  /\ Storage.deleteDebt host id s
     = (inl ("Failed to delete debt: " +:+ missing), s0)
  /\ DebtService.updateDebt host id u s = (inl missing, s0)
  /\ DebtService.transitionStatus host id newStatus s = (inl missing, s0)
  /\ files s0 !! storageFile = files s !! storageFile.
Proof.
  intros ER Hnone missing.
  assert (EG : Storage.getDebt host id s = (inr None, s0)).
  { rewrite (Run.getDebt_read host _ _ _ _ ER).
    by rewrite Outcomes.find_none. }
  pose proof ER as (m & Es0 & Hm & Ho & _ & _)%Entries.readData_facts.
  split_and!.
  - exact EG.
  - unfold updateDebt. rewrite (Run.from_quiet host _ _ _ _ _ ER).
    fold (updateDebt host id u). rewrite Es0.
    rewrite (Run.updateDebt_quiet host _ _ _ v) by done.
    by rewrite Outcomes.findIndex_none.
  - unfold deleteDebt. rewrite (Run.from_quiet host _ _ _ _ _ ER).
    fold (deleteDebt host id). rewrite Es0.
    rewrite (Run.deleteDebt_quiet host _ _ _ v) by done.
    by rewrite Outcomes.findIndex_none.
  - unfold DebtService.updateDebt, Eff.bind. by rewrite EG.
  - unfold DebtService.transitionStatus, Eff.bind. by rewrite EG.
  - apply Run.readData_inv in ER as (_ & m' & t' & Hd & -> & _).
    unfold files. rewrite Hd. cbn. by rewrite lookup_delete_ne.
Qed.

(** The theorem at a store with one entry, asked for another id. *)
Lemma unknown_id_outcomes_witness :
  let s := Sample.store [Sample.entry "debt-1" OPEN] in
  Storage.getDebt Sample.host "debt-2" s = (inr None, s)
  /\ Storage.deleteDebt Sample.host "debt-2" s
     = (inl "Failed to delete debt: Debt with id debt-2 not found", s)
  /\ DebtService.transitionStatus Sample.host "debt-2" CLOSED s
     = (inl "Debt with id debt-2 not found", s).
Proof.
  intros s.
  destruct (unknown_id_outcomes Sample.host "debt-2" s s
              (Sample.document [Sample.entry "debt-1" OPEN])
              Sample.retitle CLOSED)
    as (Hg & _ & Hd & _ & Ht & _).
  - vm_compute. reflexivity.
  - intros e He. vm_compute in He.
    apply list_elem_of_singleton in He. subst e. reflexivity.
  - split; [exact Hg|]. split; [exact Hd | exact Ht].
Defined.





End QueryProps.

(** ** What deleting, changing status and changing settings leave alone *)

Module FrameProps.

Import Js Storage StorageApi Notions.

Section Host.

Variable host : Host.





End Host.







End FrameProps.

(** ** The status machine and the checks of an update *)

Module StatusProps.

Import Js Storage StorageApi.



Lemma transitions_row_token current :
  DebtService.transitions_row (Some (JStr (status_token current)))
  = DebtService.Row (DebtService.allowedStatusTransitions current).
Proof. by destruct current. Qed.

(** No row of the table holds its own status, and every row but the
    one of [open] holds [open]. *)
Lemma no_self_transition current :
  current ∉ DebtService.allowedStatusTransitions current.
Proof.
  destruct current; apply (bool_decide_unpack _); vm_compute; exact I.
Qed.

Lemma reopening_allowed current :
  current <> OPEN -> OPEN ∈ DebtService.allowedStatusTransitions current.
Proof.
  destruct current; intros H; try done;
    apply (bool_decide_unpack _); vm_compute; exact I.
Qed.


Section Host.

Variable host : Host.

(** The outcome of a transition the table allows. *)
Lemma transition_accepted id s s0 e current newStatus :
  Storage.getDebt host id s = (inr (Some e), s0) ->
  get e "status" = Some (JStr (status_token current)) ->
  newStatus ∈ DebtService.allowedStatusTransitions current ->
  exists s1,
    DebtService.transitionStatus host id newStatus s
    = (inr (Trace.updated_entry host (tick s0) e
              (DebtService.status_update newStatus)), s1).
Proof.
  intros EG Hst Hin.
  unfold DebtService.transitionStatus. unfold Eff.bind. rewrite EG, Hst.
  rewrite transitions_row_token, bool_decide_eq_true_2 by done.
  apply Run.getDebt_inv in EG as (v & ER & Hfind). symmetry in Hfind.
  apply Entries.find_findIndex in Hfind as (i & Ei & Hi).
  pose proof ER as (m & Es0 & Hm & Ho & Hp & Hv)%Entries.readData_facts.
  rewrite Es0. rewrite (Run.updateDebt_quiet host _ _ _ v) by done.
  rewrite Ei, Hi. cbn [default]. cbn zeta. unfold Datatypes.id.
  assert (EV : Shape.doc_wf
    (with_debts v
       (<[i := Trace.updated_entry host (tick s0) e
                 (DebtService.status_update newStatus)]> (debts_of v)))).
  { apply Valid.doc_wf_with_debts; [done|].
    pose proof (Valid.doc_wf_entries _ Hv) as Hall.
    apply Forall_insert; [done|]. apply LifecycleProps.status_updated_wf.
    rewrite Forall_forall in Hall. apply Hall.
    by eapply list_elem_of_lookup_2. }
  apply Valid.validateDataStructure_iff in EV. rewrite EV. eauto.
Qed.

End Host.



(** X14.  Whatever the status of a stored entry, a transition to that
    same status is refused with the invalid-transition error; and an
    entry in any status but [open] can be reopened. *)
Theorem transitionStatus_same_and_reopen (host : Host) (id : string)
  (s s0 : state) (e : jsval) (current : DebtStatus) :
  DebtService.getDebt host id s = (inr (Some e), s0) ->
  get e "status" = Some (JStr (status_token current)) ->
  DebtService.transitionStatus host id current s
  = (inl ("Invalid status transition from '" +:+ status_token current
          +:+ "' to '" +:+ status_token current +:+ "'"), s0)
  /\ (current <> OPEN ->
      exists updated s1,
        DebtService.transitionStatus host id OPEN s = (inr updated, s1)
        /\ get updated "status" = Some (JStr "open")).
Proof.
  unfold DebtService.getDebt. intros EG Hst. split.
  - unfold DebtService.transitionStatus. unfold Eff.bind. rewrite EG, Hst.
    rewrite transitions_row_token. cbn [DebtService.status_text].
    rewrite bool_decide_eq_false_2; [done|]. apply no_self_transition.
  - intros Hne.
    destruct (transition_accepted host id s s0 e current OPEN EG Hst)
      as (s1 & ->); [by apply reopening_allowed|].
    eexists _, s1. split; [done|].
    apply LifecycleProps.status_updated_status.
Qed.

(** The theorem at an entry under review. *)
Lemma transitionStatus_same_and_reopen_witness :
  let s := Sample.store [Sample.entry "debt-1" REVIEW] in
  DebtService.transitionStatus Sample.host "debt-1" REVIEW s
  = (inl "Invalid status transition from 'review' to 'review'", s)
  /\ exists updated s1,
       DebtService.transitionStatus Sample.host "debt-1" OPEN s
       = (inr updated, s1)
       /\ get updated "status" = Some (JStr "open").
Proof.
  intros s.
  destruct (transitionStatus_same_and_reopen Sample.host "debt-1" s s
              (Sample.entry "debt-1" REVIEW) REVIEW)
    as [Hsame Hopen]; [vm_compute; reflexivity | reflexivity |].
  split; [exact Hsame|]. apply Hopen. discriminate.
Defined.

End StatusProps.

(** ** What an update changes *)

Module UpdateProps.

Import Js Storage StorageApi.

#[local] Arguments DebtService.blank : simpl never.

(** The names an update can define, in the order of [update_props]. *)
Lemma update_keys u :
  map fst (update_props u)
  `sublist_of` ["title"; "description"; "filePath"; "lineNumber";
                "severity"; "category"; "status"; "priority"; "updatedAt";
                "dueDate"; "tags"; "context"; "assignee";
                "estimatedEffort"; "notes"].
Proof.
  assert (Hone : forall k o, map fst (prop_opt k o) `sublist_of` [k]).
  { intros k [x|]; cbn; [done | apply sublist_nil_l]. }
  unfold update_props. rewrite !map_app.
  repeat (apply (sublist_app _ [_]); [apply Hone|]).
  apply Hone.
Qed.

Lemma update_keys_NoDup u : NoDup (map fst (update_props u)).
Proof.
  eapply sublist_NoDup; [|apply update_keys].
  apply (bool_decide_unpack _). vm_compute. exact I.
Qed.

Lemma update_title u t :
  up_title u = Some t -> lookup "title" (update_props u) = Some (JStr t).
Proof. intros H. unfold update_props. by rewrite H. Qed.

Lemma update_description u t :
  up_description u = Some t ->
  lookup "description" (update_props u) = Some (JStr t).
Proof.
  intros H. unfold update_props. rewrite H.
  rewrite JsFacts.lookup_app, Entries.lookup_prop_opt_ne by done. done.
Qed.

Section Host.

Variable host : Host.


End Host.



(** X16.  An update that sets the title or the description to a text
    that is empty or white space only is refused by the service, for
    every stored entry, and nothing is written: the state is the one the
    look-up of the entry left. *)
Theorem updateDebt_refuses_blank (host : Host) (id : string)
  (u : DebtUpdates) (s s0 : state) (e : jsval) (t : string) :
  DebtService.getDebt host id s = (inr (Some e), s0) ->
  Outcome.blank_text t = true ->
  up_title u = Some t \/ up_description u = Some t ->
  exists msg, DebtService.updateDebt host id u s = (inl msg, s0).
Proof.
  unfold DebtService.getDebt. intros EG Hb Hu.
  unfold DebtService.updateDebt, Eff.bind, Eff.lift. rewrite EG.
  unfold DebtService.validateDebtEntry. cbn [get].
  rewrite !Outcomes.lookup_spread by apply update_keys_NoDup.
  destruct Hu as [Hu|Hu].
  - rewrite (update_title _ _ Hu), CreateProps.blank_input, Hb.
    cbn [Res.bind].
    destruct (DebtService.blank _) as [err|noDescription]; cbn [Res.bind];
      by eexists.
  - rewrite (update_description _ _ Hu), CreateProps.blank_input, Hb.
    destruct (DebtService.blank _) as [err|noTitle]; cbn [Res.bind];
      [by eexists|].
    destruct noTitle; by eexists.
Qed.

(** The theorem at an update of the title to one space. *)
Lemma updateDebt_refuses_blank_witness :
  let s := Sample.store [Sample.entry "debt-1" OPEN] in
  let u :=
    {| up_title := Some " "; up_description := None;
       up_filePath := None; up_lineNumber := None; up_severity := None;
       up_category := None; up_status := None; up_priority := None;
       up_updatedAt := None; up_dueDate := None; up_tags := None;
       up_context := None; up_assignee := None;
       up_estimatedEffort := None; up_notes := None |} in
  exists msg, DebtService.updateDebt Sample.host "debt-1" u s = (inl msg, s).
Proof.
  intros s u.
  apply (updateDebt_refuses_blank Sample.host "debt-1" u s s
           (Sample.entry "debt-1" OPEN) " ").
  - vm_compute. reflexivity.
  - reflexivity.
  - left. reflexivity.
Defined.

End UpdateProps.

(** ** What the first group of a marker pattern captures *)

Module CaptureFacts.

Import RegExp Literal.

Lemma step_inv p st k res :
  step p st k = Some res ->
  exists c tl,
    rest st = c :: tl /\ p c = true
    /\ k (MState (c :: before st) tl (caps st)) = Some res.
Proof.
  unfold step. destruct (rest st) as [|c tl]; [done|].
  destruct (p c) eqn:E; [|done]. intros H. by exists c, tl.
Qed.

(** A word matches the characters it is made of, case apart. *)
Lemma lit_match ic w :
  forall st k res,
    rmatch ic (lit w) st k = Some res ->
    exists m tl,
      rest st = m ++ tl
      /\ map (canon ic) m = map (canon ic) w
      /\ k (MState (rev m ++ before st) tl (caps st)) = Some res.
Proof.
  induction w as [|c w IH]; intros st k res.
  - cbn. intros H. exists [], (rest st). by destruct st.
  - assert (Hone : forall st k res,
      rmatch ic (RChar c) st k = Some res ->
      exists m tl,
        rest st = m ++ tl
        /\ map (canon ic) m = [canon ic c]
        /\ k (MState (rev m ++ before st) tl (caps st)) = Some res).
    { intros st0 k0 res0 H. cbn in H.
      apply step_inv in H as (x & tl & Hr & Hx & Hk).
      apply bool_decide_eq_true_1 in Hx.
      exists [x], tl. cbn. by rewrite Hx. }
    destruct w as [|c' w'].
    + apply Hone.
    + change (lit (c :: c' :: w')) with (RSeq (RChar c) (lit (c' :: w'))).
      cbn [rmatch]. intros H.
      apply Hone in H as (m1 & tl1 & Hr1 & Hm1 & H).
      apply IH in H as (m2 & tl2 & Hr2 & Hm2 & H). cbn in Hr2, H.
      exists (m1 ++ m2), tl2. split_and!.
      * by rewrite Hr1, Hr2, app_assoc.
      * by rewrite map_app, Hm1, Hm2.
      * by rewrite rev_app_distr, <- app_assoc.
Qed.

Lemma alts_match ic ws :
  ws <> [] ->
  forall st k res,
    rmatch ic (alts ws) st k = Some res ->
    exists w m tl,
      w ∈ ws
      /\ rest st = m ++ tl
      /\ map (canon ic) m = map (canon ic) w
      /\ k (MState (rev m ++ before st) tl (caps st)) = Some res.
Proof.
  induction ws as [|w ws IH]; [done|]. intros _ st k res.
  destruct ws as [|w' ws'].
  - cbn [alts]. intros (m & tl & H)%lit_match. exists w, m, tl.
    split; [left | done].
  - change (alts (w :: w' :: ws')) with (RAlt (lit w) (alts (w' :: ws'))).
    cbn [rmatch].
    destruct (rmatch ic (lit w) st k) as [res'|] eqn:E.
    + intros [= ->]. apply lit_match in E as (m & tl & H).
      exists w, m, tl. split; [left | done].
    + intros H. apply IH in H as (w0 & m & tl & Hin & H); [|done].
      exists w0, m, tl. split; [by right | done].
Qed.

Lemma consumed_after m bef tl tl' cs cs' :
  consumed (MState bef tl cs) (MState (rev m ++ bef) tl' cs')
  = Str.of_chars m.
Proof.
  unfold consumed. cbn. rewrite length_app, length_rev.
  replace (length m + length bef - length bef)%nat with (length m) by lia.
  rewrite take_app_length'; [|by rewrite length_rev].
  by rewrite rev_involutive.
Qed.

(** A group around an alternation of words records the characters the
    word matched. *)
Lemma group_alts_match ic n ws st k res :
  ws <> [] ->
  rmatch ic (RGroup n (alts ws)) st k = Some res ->
  exists w m tl,
    w ∈ ws
    /\ rest st = m ++ tl
    /\ map (canon ic) m = map (canon ic) w
    /\ k (MState (rev m ++ before st) tl
            ((n, Str.of_chars m) :: caps st)) = Some res.
Proof.
  intros Hws. cbn [rmatch]. intros H.
  apply alts_match in H as (w & m & tl & Hin & Hr & Hm & H); [|done].
  exists w, m, tl. split_and!; try done.
  cbn [before rest caps] in H. destruct st as [bef rst cs].
  by rewrite consumed_after in H.
Qed.

(** A match adds captures of its own groups only, in front of those
    recorded before. *)
Lemma rmatch_caps ic r :
  forall st k res,
    rmatch ic r st k = Some res ->
    exists st' new,
      k st' = Some res
      /\ caps st' = new ++ caps st
      /\ Forall (fun p => fst p ∈ groups r) new.
Proof.
  assert (Hstep : forall p st k res,
    step p st k = Some res ->
    exists st' new,
      k st' = Some res /\ caps st' = new ++ caps st
      /\ Forall (fun p : nat * string => fst p ∈ @nil nat) new).
  { intros p st k res (c & tl & _ & _ & H)%step_inv.
    eexists _, []. split; [exact H|]. split; [done | constructor]. }
  assert (Hguard : forall b st k res,
    guard b st k = Some res ->
    exists st' new,
      k st' = Some res /\ caps st' = new ++ caps st
      /\ Forall (fun p : nat * string => fst p ∈ @nil nat) new).
  { intros [] st k res; unfold guard; [|done]. intros H.
    exists st, []. split; [exact H|]. split; [done | constructor]. }
  assert (Hloop : forall r1,
    (forall st k res,
       rmatch ic r1 st k = Some res ->
       exists st' new,
         k st' = Some res /\ caps st' = new ++ caps st
         /\ Forall (fun p => fst p ∈ groups r1) new) ->
    forall k res fuel cur,
      (fix loop (fuel : nat) (cur : mstate) : option mstate :=
         match fuel with
         | O => k cur
         | S fuel' =>
             match rmatch ic r1 cur (fun nxt =>
                     if (length (rest nxt) <? length (rest cur))%nat
                     then loop fuel' nxt else None) with
             | Some res => Some res
             | None => k cur
             end
         end) fuel cur = Some res ->
      exists st' new,
        k st' = Some res /\ caps st' = new ++ caps cur
        /\ Forall (fun p => fst p ∈ groups r1) new).
  { intros r1 IH k res fuel.
    induction fuel as [|fuel IHf]; intros cur.
    - intros H. exists cur, []. split; [exact H|].
      split; [done | constructor].
    - destruct (rmatch ic r1 cur _) as [res'|] eqn:E.
      + intros [= ->]. apply IH in E as (nxt & new1 & Hn & Hc1 & Hg1).
        destruct (length (rest nxt) <? length (rest cur))%nat; [|done].
        apply IHf in Hn as (st' & new2 & Hk & Hc2 & Hg2).
        exists st', (new2 ++ new1). split; [done|]. split.
        * by rewrite Hc2, Hc1, app_assoc.
        * by apply Forall_app.
      + intros H. exists cur, []. split; [exact H|].
        split; [done | constructor]. }
  induction r as [|x| |neg items| | |neg|r1 IH1 r2 IH2|r1 IH1 r2 IH2
                  |r1 IH1|r1 IH1|r1 IH1|n r1 IH1];
    intros st k res; cbn [rmatch groups].
  - intros H. exists st, []. split; [exact H|]. split; [done|constructor].
  - apply Hstep.
  - apply Hstep.
  - apply Hstep.
  - apply Hguard.
  - apply Hguard.
  - apply Hguard.
  - intros H. apply IH1 in H as (st1 & new1 & H & Hc1 & Hg1).
    apply IH2 in H as (st2 & new2 & H & Hc2 & Hg2).
    exists st2, (new2 ++ new1). split; [done|]. split.
    + by rewrite Hc2, Hc1, app_assoc.
    + apply Forall_app. split.
      * eapply Forall_impl; [exact Hg2|]. cbn. intros p Hp.
        apply elem_of_app. by right.
      * eapply Forall_impl; [exact Hg1|]. cbn. intros p Hp.
        apply elem_of_app. by left.
  - destruct (rmatch ic r1 st k) as [res'|] eqn:E.
    + intros [= ->]. apply IH1 in E as (st1 & new1 & H & Hc1 & Hg1).
      exists st1, new1. split_and!; try done.
      eapply Forall_impl; [exact Hg1|]. cbn. intros p Hp.
      apply elem_of_app. by left.
    + intros H. apply IH2 in H as (st2 & new2 & H & Hc2 & Hg2).
      exists st2, new2. split_and!; try done.
      eapply Forall_impl; [exact Hg2|]. cbn. intros p Hp.
      apply elem_of_app. by right.
  - by apply Hloop.
  - intros H. apply IH1 in H as (st1 & new1 & H & Hc1 & Hg1).
    apply Hloop in H as (st2 & new2 & H & Hc2 & Hg2); [|done].
    exists st2, (new2 ++ new1). split; [done|]. split.
    + by rewrite Hc2, Hc1, app_assoc.
    + by apply Forall_app.
  - destruct (rmatch ic r1 st k) as [res'|] eqn:E.
    + intros [= ->]. by apply IH1.
    + intros H. exists st, []. split; [exact H|].
      split; [done | constructor].
  - intros H. apply IH1 in H as (st1 & new1 & H & Hc1 & Hg1).
    eexists _, ((n, consumed st st1) :: new1). split; [exact H|].
    cbn [caps]. split; [by rewrite Hc1|].
    constructor; [cbn; left|].
    eapply Forall_impl; [exact Hg1|]. cbn. intros p Hp. by right.
Qed.

Lemma capture_skips n new text cs :
  Forall (fun p : nat * string => fst p <> n) new ->
  capture n (MState [] [] (new ++ (n, text) :: cs)) = Some text.
Proof.
  intros Hnew. unfold capture. cbn [caps].
  induction Hnew as [|[k x] new Hk _ IH]; cbn.
  - by rewrite Nat.eqb_refl.
  - cbn in Hk. apply Nat.eqb_neq in Hk. by rewrite Hk.
Qed.

Lemma capture_caps n st : capture n st = capture n (MState [] [] (caps st)).
Proof. done. Qed.

(** The first group of [(w1|w2|...)post] holds one of the words, case
    apart, when [post] has no group numbered one. *)
Lemma first_group_word ic ws post st res :
  ws <> [] ->
  1%nat ∉ groups post ->
  rmatch ic (RSeq (RGroup 1 (alts ws)) post) st Some = Some res ->
  exists w m st1,
    w ∈ ws
    /\ map (canon ic) m = map (canon ic) w
    /\ capture 1 res = Some (Str.of_chars m)
    /\ rest st1 `suffix_of` rest st
    /\ rmatch ic post st1 Some = Some res.
Proof.
  intros Hws Hpost. cbn [rmatch]. intros H.
  change (rmatch ic (alts ws) st ?k) with (rmatch ic (RGroup 1 (alts ws)) st
    (fun st1 => rmatch ic post st1 Some)) in H.
  apply group_alts_match in H as (w & m & tl & Hin & Hr & Hm & H); [|done].
  pose proof H as (st' & new & [= <-] & Hc & Hg)%rmatch_caps.
  eexists w, m, _. split_and!; [done|done| | |exact H].
  - rewrite capture_caps, Hc. cbn [caps]. apply capture_skips.
    eapply Forall_impl; [exact Hg|]. cbn. intros p Hp E.
    rewrite E in Hp. done.
  - cbn [rest]. rewrite Hr. by apply suffix_app_r.
Qed.

Lemma search_found ic r bef l st res :
  search ic r bef l = Some (st, res) ->
  rmatch ic r st Some = Some res
  /\ exists pre, l = pre ++ rest st.
Proof.
  revert bef. induction l as [|c l IH]; intros bef; cbn [search].
  - destruct (rmatch ic r (MState bef [] []) Some) as [res'|] eqn:E;
      [|done].
    intros H. injection H as <- <-. split; [done|]. by exists [].
  - destruct (rmatch ic r (MState bef (c :: l) []) Some) as [res'|] eqn:E.
    + intros H. injection H as <- <-. split; [done|]. by exists [].
    + intros H. apply IH in H as [H [pre Hp]]. split; [done|].
      exists (c :: pre). by rewrite Hp.
Qed.

Lemma toUpperCase_canon m w :
  map (canon true) m = map (canon true) w ->
  Str.toUpperCase (Str.of_chars m) = Str.toUpperCase (Str.of_chars w).
Proof.
  intros H. unfold Str.toUpperCase. rewrite !MatchFacts.chars_of_chars.
  f_equal. exact H.
Qed.

Lemma upper_colon c : Str.upper ":" = Str.upper c -> c = ":"%char.
Proof.
  destruct c as [[] [] [] [] [] [] [] []]; vm_compute; congruence.
Qed.

(** The same after a part that has to match first. *)
Lemma marker_group ic pre ws post st res :
  ws <> [] ->
  1%nat ∉ groups post ->
  rmatch ic (RSeq pre (RSeq (RGroup 1 (alts ws)) post)) st Some = Some res ->
  exists w m,
    w ∈ ws
    /\ map (canon ic) m = map (canon ic) w
    /\ capture 1 res = Some (Str.of_chars m).
Proof.
  intros Hws Hpost H. cbn [rmatch] in H.
  apply MatchFacts.rmatch_reaches in H as (st1 & H & _).
  change (rmatch ic (alts ws) st1 ?k)
    with (rmatch ic (RSeq (RGroup 1 (alts ws)) post) st1 Some) in H.
  apply first_group_word in H as (w & m & _ & Hw & Hm & Hc & _); [|done..].
  by exists w, m.
Qed.

Lemma length_of_chars l : String.length (Str.of_chars l) = length l.
Proof.
  unfold Str.of_chars. induction l as [|c l IH]; cbn; [done | by rewrite IH].
Qed.

Lemma slice0_length n s : (String.length (Str.slice0 n s) <= n)%nat.
Proof.
  unfold Str.slice0. rewrite length_of_chars, length_take. lia.
Qed.

Lemma default_marker_upper x :
  x ∈ Scanner.DEBT_MARKERS ->
  Str.toUpperCase (Str.of_chars (Str.chars x)) ∈ Scanner.DEBT_MARKERS.
Proof.
  intros H.
  repeat (apply elem_of_cons in H as [->|H];
          [apply (bool_decide_unpack _); vm_compute; exact I|]).
  by apply elem_of_nil in H.
Qed.

End CaptureFacts.

(** ** The utilities *)

Module UtilsProps.

Import Utils.

Lemma DEBT_MARKER_compiles :
  RegExp.compile DEBT_MARKER = Some DEBT_MARKER_regex.
Proof. vm_compute. reflexivity. Qed.

Lemma slice_inside {A} (start finish : Z) (l : list A) :
  (0 <= start <= finish)%Z ->
  (finish <= Z.of_nat (length l))%Z ->
  slice start finish l
  = take (Z.to_nat (finish - start)) (drop (Z.to_nat start) l).
Proof.
  intros H1 H2. unfold slice.
  destruct (Z.ltb_spec start 0); [lia|].
  destruct (Z.ltb_spec finish 0); [lia|].
  by rewrite !Z.min_l by lia.
Qed.

(** X17.  For a line number and a number of context lines that are not
    negative, [getContextLines] returns the lines of the file from
    [lineNumber - contextLines] (or the first line) up to
    [lineNumber + contextLines] (or the last line): at most
    [2 * contextLines + 1] lines, with the line [lineNumber] among them
    at the place [min lineNumber contextLines] when the file has such a
    line; a file that cannot be read gives no lines. *)
Theorem getContextLines_window (readFileSync : string -> option string)
  (filePath : string) (lineNumber contextLines : Z) :
  (0 <= lineNumber)%Z -> (0 <= contextLines)%Z ->
  let got := getContextLines readFileSync filePath lineNumber contextLines in
  (readFileSync filePath = None -> got = [])
  /\ (forall content,
        readFileSync filePath = Some content ->
        let lines := split_on Str.LF content in
        let first := Z.to_nat (Z.max 0 (lineNumber - contextLines)) in
        got = take (Z.to_nat (lineNumber + contextLines + 1) - first)
                (drop first lines)
        /\ (Z.of_nat (length got) <= 2 * contextLines + 1)%Z
        /\ got !! Z.to_nat (Z.min lineNumber contextLines)
           = lines !! Z.to_nat lineNumber).
Proof.
  intros Hn Hc got. unfold got, getContextLines. split.
  - by intros ->.
  - intros content ->. cbn zeta.
    set (lines := split_on Str.LF content).
    set (len := Z.of_nat (length lines)).
    set (start := Z.max 0 (lineNumber - contextLines)).
    set (finish := Z.min len (lineNumber + contextLines + 1)).
    assert (Hlen : (0 <= len)%Z) by (unfold len; lia).
    assert (Eq : slice start finish lines
                 = take (Z.to_nat (lineNumber + contextLines + 1)
                         - Z.to_nat start)
                     (drop (Z.to_nat start) lines)).
    { unfold slice. fold len.
      destruct (Z.ltb_spec start 0); [unfold start in *; lia|].
      destruct (Z.ltb_spec finish 0); [unfold finish in *; lia|].
      destruct (Z.le_gt_cases start len) as [Hs|Hs].
      - rewrite (Z.min_l start) by done.
        rewrite (Z.min_l finish) by (unfold finish; lia).
        destruct (Z.le_gt_cases (lineNumber + contextLines + 1) len)
          as [Hf|Hf].
        + unfold finish. rewrite Z.min_r by done. f_equal. lia.
        + unfold finish. rewrite Z.min_l by lia.
          rewrite !take_ge; [done|rewrite length_drop; unfold len in *; lia..].
      - rewrite !drop_ge by (unfold len in *; lia).
        by rewrite !take_nil. }
    rewrite Eq. split_and!.
    + done.
    + rewrite length_take, length_drop. unfold start. lia.
    + rewrite lookup_take_lt by (unfold start; lia).
      rewrite lookup_drop. f_equal. unfold start. lia.
Qed.

(** The theorem at the third line of a file of four lines, with one line
    of context. *)
Lemma getContextLines_window_witness :
  let file := fun _ : string =>
    Some (Str.join (String Str.LF "") ["a"; "b"; "c"; "d"]) in
  let got := getContextLines file "x.ts" 2 1 in
  got = ["b"; "c"; "d"]
  /\ got !! 1%nat = Some "c".
Proof.
  intros file got.
  destruct (getContextLines_window file "x.ts" 2 1) as [_ H];
    [lia | lia |].
  destruct (H _ eq_refl) as (Hgot & _ & Hat).
  split.
  - fold got in Hgot. rewrite Hgot. vm_compute. reflexivity.
  - etrans; [exact Hat|]. vm_compute. reflexivity.
Defined.

(** The pattern is an alternation of ten words in a group, a colon,
    white space and a second group. *)
Lemma DEBT_MARKER_shape :
  DEBT_MARKER_regex
  = RegExp.RSeq
      (RegExp.RGroup 1
         (Literal.words ["TODO"; "FIXME"; "HACK"; "BUG"; "NOTE"; "XXX";
                         "HACK"; "WARN"; "PERF"; "OPTIMIZE"]))
      (RegExp.RSeq (RegExp.RChar ":")
         (RegExp.RSeq (RegExp.RStar (RegExp.RSet false [RegExp.CSpace]))
            (RegExp.RGroup 2 (RegExp.RPlus RegExp.RAny)))).
Proof. reflexivity. Qed.

Lemma exec2_inv ic r subject whole m1 m2 :
  RegExp.exec2 ic r subject = Some (whole, m1, m2) ->
  exists st res pre,
    RegExp.rmatch ic r st Some = Some res
    /\ Str.chars subject = pre ++ RegExp.rest st
    /\ m1 = RegExp.capture 1 res
    /\ m2 = RegExp.capture 2 res.
Proof.
  unfold RegExp.exec2.
  destruct (RegExp.search ic r [] (Str.chars subject)) as [[st res]|] eqn:E;
    [|done].
  intros [= _ <- <-]. apply CaptureFacts.search_found in E as [H [pre Hp]].
  by exists st, res, pre.
Qed.

Lemma markers_from_inv lineNumber index lines m :
  m ∈ markers_from lineNumber index lines ->
  exists j text whole m1 m2,
    lines !! j = Some text
    /\ RegExp.exec2 true DEBT_MARKER_regex text = Some (whole, m1, m2)
    /\ marker m = Str.toUpperCase (default "" m1)
    /\ description m = Str.trim (default "" m2)
    /\ line m = (lineNumber + Z.of_nat (index + j))%Z.
Proof.
  revert index. induction lines as [|text more IH]; intros index; cbn.
  - by intros H%elem_of_nil.
  - assert (Hmore : m ∈ markers_from lineNumber (S index) more ->
      exists j text0 whole m1 m2,
        (text :: more) !! j = Some text0
        /\ RegExp.exec2 true DEBT_MARKER_regex text0 = Some (whole, m1, m2)
        /\ marker m = Str.toUpperCase (default "" m1)
        /\ description m = Str.trim (default "" m2)
        /\ line m = (lineNumber + Z.of_nat (index + j))%Z).
    { intros (j & t0 & whole & m1 & m2 & Hj & He & Hm & Hd & Hl)%IH.
      exists (S j), t0, whole, m1, m2. split_and!; try done.
      rewrite Hl. f_equal. lia. }
    destruct (RegExp.exec2 true DEBT_MARKER_regex text)
      as [[[whole m1] m2]|] eqn:E; [|exact Hmore].
    intros [->|H]%elem_of_cons; [|by apply Hmore].
    exists 0%nat, text, whole, m1, m2. cbn. split_and!; try done.
    f_equal. lia.
Qed.

Lemma keyword_upper x :
  x ∈ ["TODO"; "FIXME"; "HACK"; "BUG"; "NOTE"; "XXX"; "HACK"; "WARN";
       "PERF"; "OPTIMIZE"] ->
  Str.toUpperCase (Str.of_chars (Str.chars x)) ∈ KEYWORDS.
Proof.
  intros H.
  repeat (apply elem_of_cons in H as [->|H];
          [apply (bool_decide_unpack _); vm_compute; exact I|]).
  by apply elem_of_nil in H.
Qed.

(** X18.  Every marker [parseDebtMarkers] reports carries one of the
    nine keywords of the pattern, in upper case whatever the case in the
    text; it stems from a line of the text that has a colon, and its line
    number is the number given plus the index of that line. *)
Theorem parseDebtMarkers_markers (content : string) (lineNumber : Z)
  (m : Marker) :
  m ∈ parseDebtMarkers content lineNumber ->
  marker m ∈ KEYWORDS
  /\ exists index text,
       split_on Str.LF content !! index = Some text
       /\ line m = (lineNumber + Z.of_nat index)%Z
       /\ ":"%char ∈ Str.chars text.
Proof.
  unfold parseDebtMarkers.
  intros (j & text & whole & m1 & m2 & Hj & He & Hm & _ & Hl)%markers_from_inv.
  apply exec2_inv in He as (st & res & pre & Hr & Hp & -> & _).
  rewrite DEBT_MARKER_shape in Hr. unfold Literal.words in Hr.
  apply CaptureFacts.first_group_word in Hr
    as (w & got & st1 & Hw & Hc & Hcap & Hsuf & Hpost);
    [|done|cbn; apply (bool_decide_unpack _); vm_compute; exact I].
  split.
  - rewrite Hm, Hcap. cbn [default]. unfold Datatypes.id.
    rewrite (CaptureFacts.toUpperCase_canon _ _ Hc).
    apply list_elem_of_fmap in Hw as (x & -> & Hx).
    by apply keyword_upper.
  - exists j, text. split_and!; [done|by rewrite Hl|].
    cbn [RegExp.rmatch] in Hpost.
    apply CaptureFacts.step_inv in Hpost as (c & tl & Hrest & Hcol & _).
    apply bool_decide_eq_true_1, CaptureFacts.upper_colon in Hcol.
    subst c. rewrite Hp. destruct Hsuf as [mid Hmid].
    rewrite Hmid, Hrest. rewrite !elem_of_app. right. right. left.
Qed.

(** The theorem at a text of three lines, two of them with markers. *)
Lemma parseDebtMarkers_markers_witness :
  let content :=
    Str.join (String Str.LF "")
      ["// todo: first"; "let x = 1;"; "/* Fixme:second */"] in
  parseDebtMarkers content 10
  = [{| marker := "TODO"; description := "first"; line := 10 |};
     {| marker := "FIXME"; description := "second */"; line := 12 |}]
  /\ "FIXME" ∈ KEYWORDS.
Proof.
  intros content.
  assert (E : parseDebtMarkers content 10
              = [{| marker := "TODO"; description := "first"; line := 10 |};
                 {| marker := "FIXME"; description := "second */";
                    line := 12 |}])
    by (vm_compute; reflexivity).
  split; [exact E|].
  destruct (parseDebtMarkers_markers content 10
              {| marker := "FIXME"; description := "second */";
                 line := 12 |}) as [H _].
  - rewrite E. right. left.
  - exact H.
Defined.

End UtilsProps.

(** ** The results of a scan and the defaults of a conversion *)

Module ScanShapeProps.

Import Scanner.

Section Path.

Variable getRelativePath : string -> string.

Lemma scan_lines_inv re path index lines r :
  r ∈ scan_lines getRelativePath re path index lines ->
  exists j m1 m2 whole,
    lines !! j = Some (content r)
    /\ RegExp.exec2 true re (content r) = Some (whole, m1, m2)
    /\ lineNumber r = S (index + j)
    /\ marker r = Str.toUpperCase (default "" m1)
    /\ filePath r = getRelativePath path
    /\ suggestedDebt r
       = buildSuggestedDebt getRelativePath path (lineNumber r) (marker r)
           (Str.trim (default "" m2)).
Proof.
  revert index. induction lines as [|text more IH]; intros index; cbn.
  - by intros H%elem_of_nil.
  - assert (Hmore :
      r ∈ scan_lines getRelativePath re path (S index) more ->
      exists j m1 m2 whole,
        (text :: more) !! j = Some (content r)
        /\ RegExp.exec2 true re (content r) = Some (whole, m1, m2)
        /\ lineNumber r = S (index + j)
        /\ marker r = Str.toUpperCase (default "" m1)
        /\ filePath r = getRelativePath path
        /\ suggestedDebt r
           = buildSuggestedDebt getRelativePath path (lineNumber r)
               (marker r) (Str.trim (default "" m2))).
    { intros (j & m1 & m2 & whole & Hj & He & Hl & Hm & Hf & Hs)%IH.
      exists (S j), m1, m2, whole. split_and!; try done.
      rewrite Hl. lia. }
    destruct (RegExp.exec2 true re text) as [[[whole m1] m2]|] eqn:E;
      [|exact Hmore].
    intros [->|H]%elem_of_cons; [|by apply Hmore].
    exists 0%nat, m1, m2, whole. cbn. split_and!; try done; lia.
Qed.

End Path.

(** The pattern of the scanner under the default markers: a part before
    the marker, the group of the five markers, and the rest. *)
Lemma default_regex_shape :
  exists pre post,
    regex_of template_head template_tail DEBT_MARKERS
    = Some (RegExp.RSeq pre
              (RegExp.RSeq (RegExp.RGroup 1 (Literal.words DEBT_MARKERS))
                 post))
    /\ 1%nat ∉ Literal.groups post.
Proof.
  eexists _, _. split; [vm_compute; reflexivity|].
  apply (bool_decide_unpack _). vm_compute. exact I.
Qed.

Lemma markerRegex_shape :
  exists pre post,
    Convert.markerRegex
    = RegExp.RSeq pre
        (RegExp.RSeq (RegExp.RGroup 1 (Literal.words DEBT_MARKERS)) post)
    /\ 1%nat ∉ Literal.groups post.
Proof.
  eexists _, _. split; [vm_compute; reflexivity|].
  apply (bool_decide_unpack _). vm_compute. exact I.
Qed.

Lemma markerRegex_built :
  regex_of convert_template_head convert_template_tail DEBT_MARKERS
  = Some Convert.markerRegex.
Proof. vm_compute. reflexivity. Qed.

(** The first capture of a pattern of that shape, in upper case, is one
    of the default markers. *)
Lemma default_marker_captured pre post text whole m1 m2 :
  1%nat ∉ Literal.groups post ->
  RegExp.exec2 true
    (RegExp.RSeq pre
       (RegExp.RSeq (RegExp.RGroup 1 (Literal.words DEBT_MARKERS)) post))
    text = Some (whole, m1, m2) ->
  Str.toUpperCase (default "" m1) ∈ DEBT_MARKERS.
Proof.
  intros Hpost He.
  apply UtilsProps.exec2_inv in He as (st & res & bef & Hr & _ & -> & _).
  unfold Literal.words in Hr.
  apply CaptureFacts.marker_group in Hr as (w & got & Hw & Hc & Hcap);
    [|done..].
  rewrite Hcap. cbn [default]. unfold Datatypes.id.
  rewrite (CaptureFacts.toUpperCase_canon _ _ Hc).
  apply list_elem_of_fmap in Hw as (x & -> & Hx).
  by apply CaptureFacts.default_marker_upper.
Qed.

(** X19.  Every result of [extractScanResults] quotes a line of the
    text and gives its number counted from one; its file path is the
    relative path; the suggested entry has the same line number, the
    marker as its only tag, a title of at most 100 characters cut from
    the marker, a colon, a space and the description, and the lowest
    severity, the category code quality, the status open and the normal
    priority.  Under the
    default markers the marker is one of the five, in upper case. *)
Theorem scan_results_shape (getRelativePath : string -> string)
  (path text : string) (config : ProjectConfig) (rs : list ScanResult)
  (r : ScanResult) :
  extractScanResults getRelativePath path text config = Some rs ->
  r ∈ rs ->
  (exists index,
     Str.split_lines text !! index = Some (content r)
     /\ lineNumber r = S index)
  /\ filePath r = getRelativePath path
  /\ sd_filePath (suggestedDebt r) = getRelativePath path
  /\ sd_lineNumber (suggestedDebt r) = lineNumber r
  /\ sd_tags (suggestedDebt r) = [marker r]
  /\ sd_title (suggestedDebt r)
     = Str.slice0 100
         (marker r +:+ ": " +:+ sd_description (suggestedDebt r))
  /\ (String.length (sd_title (suggestedDebt r)) <= 100)%nat
  /\ (sd_severity (suggestedDebt r), sd_category (suggestedDebt r),
      sd_status (suggestedDebt r), sd_priority (suggestedDebt r))
     = (SevLow, CatCodeQuality, OPEN, PrioNormal)
  /\ (debtMarkers config = [] -> marker r ∈ DEBT_MARKERS).
Proof.
  unfold extractScanResults, extract_with.
  destruct (regex_of _ _ _) as [re|] eqn:Ere; [|done].
  cbn [mbind option_bind]. intros [= <-] Hr.
  apply scan_lines_inv in Hr
    as (j & m1 & m2 & whole & Hj & He & Hl & Hm & Hf & Hs).
  rewrite Hs. cbn [sd_filePath sd_lineNumber sd_tags sd_title
                   sd_description sd_severity sd_category sd_status
                   sd_priority buildSuggestedDebt].
  split_and!; try done.
  - by exists j.
  - apply CaptureFacts.slice0_length.
  - intros Hcfg. rewrite Hcfg in Ere.
    destruct default_regex_shape as (pre & post & Eshape & Hpost).
    rewrite Eshape in Ere. injection Ere as <-.
    rewrite Hm. by eapply default_marker_captured.
Qed.

(** The theorem at a line whose marker is followed by the backspace
    character the pattern of the scanner asks for. *)
Lemma scan_results_shape_witness :
  let text := "let x;" +:+ String Str.LF ""
              +:+ "// fixme" +:+ String Str.BS "" +:+ ": later" in
  exists r,
    extractScanResults (fun filePath => filePath) "a.ts" text defaultConfig
    = Some [r]
    /\ marker r ∈ DEBT_MARKERS
    /\ lineNumber r = 2%nat
    /\ sd_tags (suggestedDebt r) = [marker r].
Proof.
  intros text. eexists.
  assert (E : extractScanResults (fun filePath => filePath) "a.ts" text
                defaultConfig
              = Some [{| filePath := "a.ts";
                         lineNumber := 2;
                         marker := "FIXME";
                         content := "// fixme" +:+ String Str.BS ""
                                    +:+ ": later";
                         suggestedDebt :=
                           buildSuggestedDebt (fun filePath => filePath)
                             "a.ts" 2 "FIXME" "later" |}])
    by (vm_compute; reflexivity).
  split; [exact E|].
  destruct (scan_results_shape (fun filePath => filePath) "a.ts" text
              defaultConfig _ _ E ltac:(left))
    as (_ & _ & _ & _ & Htags & _ & _ & _ & Hmarker).
  split; [by apply Hmarker|]. split; [reflexivity | exact Htags].
Defined.

End ScanShapeProps.

(** ** The conversion of a marker comment *)

Module ConvertProps.

Import Scanner Convert.

Lemma tagRegex_compiles : RegExp.compile TAG_PATTERN = Some tagRegex.
Proof. vm_compute. reflexivity. Qed.

Lemma chars_append a b : Str.chars (a +:+ b) = Str.chars a ++ Str.chars b.
Proof.
  unfold Str.chars. induction a as [|c a IH]; [done|].
  change (list_ascii_of_string (String c a +:+ b))
    with (c :: list_ascii_of_string (a +:+ b)).
  by rewrite IH.
Qed.

Lemma append_assoc (a b c : string) : (a +:+ b) +:+ c = a +:+ b +:+ c.
Proof.
  induction a as [|x a IH]; [done|].
  change (String x (a +:+ b) +:+ c = String x (a +:+ b +:+ c)).
  change (String x ((a +:+ b) +:+ c) = String x (a +:+ b +:+ c)).
  by rewrite IH.
Qed.

Lemma starts_with_app needle post :
  starts_with needle (needle ++ post) = true.
Proof.
  induction needle as [|c needle IH]; cbn; [done|].
  by rewrite bool_decide_eq_true_2, IH.
Qed.

Lemma includes_chars_app needle pre post :
  includes_chars needle (pre ++ needle ++ post) = true.
Proof.
  induction pre as [|c pre IH].
  - cbn [app]. destruct (needle ++ post) eqn:E; cbn;
      rewrite <- ?E, starts_with_app; done.
  - cbn [app includes_chars]. rewrite IH. apply orb_true_r.
Qed.

Lemma includes_app needle a b :
  includes needle (a +:+ needle +:+ b) = true.
Proof.
  unfold includes. rewrite !chars_append. apply includes_chars_app.
Qed.

(** What the replacement of a match looks like. *)
Lemma replaced_has_tag before prefix baseDesc id after :
  let updated :=
    before +:+ (prefix +:+ baseDesc +:+ " [FixFlow:" +:+ id +:+ "]")
    +:+ after in
  includes "[FixFlow:" updated = true
  /\ includes ("[FixFlow:" +:+ id +:+ "]") updated = true.
Proof.
  intros updated. unfold updated. split.
  - replace (before +:+ (prefix +:+ baseDesc +:+ " [FixFlow:" +:+ id
                        +:+ "]") +:+ after)
      with ((before +:+ prefix +:+ baseDesc +:+ " ")
            +:+ "[FixFlow:" +:+ (id +:+ "]" +:+ after)).
    + apply includes_app.
    + by rewrite !append_assoc.
  - replace (before +:+ (prefix +:+ baseDesc +:+ " [FixFlow:" +:+ id
                        +:+ "]") +:+ after)
      with ((before +:+ prefix +:+ baseDesc +:+ " ")
            +:+ ("[FixFlow:" +:+ id +:+ "]") +:+ after).
    + apply includes_app.
    + by rewrite !append_assoc.
Qed.

(** X20.  When [replaceCommentWithId] rewrites a line, the line had no
    [[FixFlow:] tag and the text it is replaced by holds the tag
    [[FixFlow:<id>]]; a second run on the rewritten line, with any id,
    leaves it alone.  A line is tagged at most once. *)
Theorem replaceCommentWithId_tags_once (id id' text updated : string) :
  replaceCommentWithId id text = Some updated ->
  includes "[FixFlow:" text = false
  /\ includes ("[FixFlow:" +:+ id +:+ "]") updated = true
  /\ replaceCommentWithId id' updated = None.
Proof.
  unfold replaceCommentWithId.
  destruct (includes "[FixFlow:" text) eqn:Etag; [done|].
  case_bool_decide as Hsame; [done|]. intros [= <-].
  unfold replace_first in *.
  destruct (RegExp.search true tagRegex [] (Str.chars text))
    as [[st res]|]; [|done].
  pose proof (replaced_has_tag (Str.of_chars (rev (RegExp.before st)))
                (default "" (RegExp.capture 1 res))
                (Str.trim (default "" (RegExp.capture 2 res))) id
                (Str.of_chars (RegExp.rest res))) as [H1 H2].
  cbn zeta in H1, H2. split_and!; [done|exact H2|].
  by rewrite H1.
Qed.

(** The theorem at a marker comment. *)
Lemma replaceCommentWithId_tags_once_witness :
  replaceCommentWithId "debt-7" "  // TODO: fix null check  "
  = Some "  // TODO: fix null check [FixFlow:debt-7]"
  /\ replaceCommentWithId "debt-8"
       "  // TODO: fix null check [FixFlow:debt-7]" = None.
Proof.
  assert (E : replaceCommentWithId "debt-7" "  // TODO: fix null check  "
              = Some "  // TODO: fix null check [FixFlow:debt-7]")
    by (vm_compute; reflexivity).
  split; [exact E|].
  by destruct (replaceCommentWithId_tags_once "debt-7" "debt-8" _ _ E)
    as (_ & _ & H).
Defined.

Lemma upper_dash c : Str.upper "-" = Str.upper c -> c = "-"%char.
Proof.
  destruct c as [[] [] [] [] [] [] [] []]; vm_compute; congruence.
Qed.

(** The pattern of the command asks for a colon or a dash after the
    marker. *)
Lemma markerRegex_separator :
  exists r1 r2 r3 r4 r5,
    markerRegex
    = RegExp.RSeq r1
        (RegExp.RSeq r2
           (RegExp.RSeq r3
              (RegExp.RSeq r4
                 (RegExp.RSeq
                    (RegExp.RSet false [RegExp.CChar ":"; RegExp.CChar "-"])
                    r5)))).
Proof. eexists _, _, _, _, _. vm_compute. reflexivity. Qed.

Lemma separator_needed text :
  ":"%char ∉ Str.chars text -> "-"%char ∉ Str.chars text ->
  RegExp.exec2 true markerRegex text = None.
Proof.
  intros Hc Hd.
  destruct (RegExp.exec2 true markerRegex text) as [[[whole m1] m2]|] eqn:E;
    [|done].
  exfalso.
  apply UtilsProps.exec2_inv in E as (st & res & pre & Hr & Hp & _).
  destruct markerRegex_separator as (r1 & r2 & r3 & r4 & r5 & Es).
  rewrite Es in Hr. cbn [RegExp.rmatch] in Hr.
  apply MatchFacts.rmatch_reaches in Hr as (st1 & Hr & S1).
  apply MatchFacts.rmatch_reaches in Hr as (st2 & Hr & S2).
  apply MatchFacts.rmatch_reaches in Hr as (st3 & Hr & S3).
  apply MatchFacts.rmatch_reaches in Hr as (st4 & Hr & S4).
  apply CaptureFacts.step_inv in Hr as (c & tl & Hrest & Hset & _).
  assert (Hin : c ∈ Str.chars text).
  { rewrite Hp. destruct S1 as [l1 ->], S2 as [l2 ->], S3 as [l3 ->],
      S4 as [l4 ->]. rewrite Hrest. rewrite !elem_of_app.
    do 5 right. left. }
  cbn in Hset. rewrite orb_false_r in Hset.
  apply orb_prop in Hset as [H|H]; apply bool_decide_eq_true_1 in H.
  - apply CaptureFacts.upper_colon in H. by subst c.
  - apply upper_dash in H. by subst c.
Qed.

(** X21.  The defaults the conversion fills the form with: the line
    number is the index of the line plus one, the file path the relative
    path, the only tag the marker, the title the marker, a colon, a space
    and the description, cut to at most 100 characters.  The marker is the
    one the caller passes, in upper case, and one of the five default
    markers when the caller passes none.  A line with neither a colon nor
    a dash has no marker for the command. *)
Theorem conversion_defaults (getRelativePath : string -> string)
  (readFileSync : string -> option string) (args : ConvertTodoArgs)
  (absPath : string) (lineIndex : nat) (lineText : string) :
  (":"%char ∉ Str.chars lineText -> "-"%char ∉ Str.chars lineText ->
   defaults_for getRelativePath readFileSync args absPath lineIndex lineText
   = None)
  /\ (forall d,
        defaults_for getRelativePath readFileSync args absPath lineIndex
          lineText = Some d ->
        df_lineNumber d = S lineIndex
        /\ df_filePath d = getRelativePath absPath
        /\ (String.length (df_title d) <= 100)%nat
        /\ exists marker,
             df_tags d = [marker]
             /\ df_title d
                = Str.slice0 100 (marker +:+ ": " +:+ df_description d)
             /\ (arg_marker args = None -> marker ∈ DEBT_MARKERS)
             /\ (forall given,
                   arg_marker args = Some given ->
                   marker = Str.toUpperCase given)).
Proof.
  unfold defaults_for. split.
  - intros Hc Hd. by rewrite separator_needed.
  - intros d.
    destruct (RegExp.exec2 true markerRegex lineText)
      as [[[whole m1] m2]|] eqn:E; [|done].
    intros [= <-]. cbn. split_and!; [lia|done| |].
    + apply CaptureFacts.slice0_length.
    + eexists. split_and!; [done|done| |].
      * intros ->. cbn [default]. unfold Datatypes.id.
        destruct ScanShapeProps.markerRegex_shape
          as (pre & post & Eshape & Hpost).
        rewrite Eshape in E.
        by eapply ScanShapeProps.default_marker_captured.
      * by intros given ->.
Qed.

(** The theorem at a marker comment in lower case. *)
Lemma conversion_defaults_witness :
  let args := {| arg_marker := None; arg_description := None |} in
  let relative := fun filePath : string => filePath in
  let read := fun _ : string => None in
  exists d,
    defaults_for relative read args "/w/a.ts" 4 "// hack - tidy up" = Some d
    /\ df_tags d = ["HACK"]
    /\ df_lineNumber d = 5%nat
    /\ defaults_for relative read args "/w/a.ts" 4 "// hack tidy up" = None.
Proof.
  intros args relative read.
  destruct (conversion_defaults relative read args "/w/a.ts" 4
              "// hack - tidy up") as [_ Hd].
  destruct (conversion_defaults relative read args "/w/a.ts" 4
              "// hack tidy up") as [Hnone _].
  eexists. split; [vm_compute; reflexivity|].
  split; [reflexivity|]. split; [reflexivity|].
  apply Hnone; vm_compute; intros H;
    repeat (apply elem_of_cons in H as [H|H]; [discriminate H|]);
    by apply elem_of_nil in H.
Defined.

End ConvertProps.

(** ** The pattern of the scanner under any markers *)

Module EscapeProps.

Import RegExp Literal Scanner.

Lemma quantified_plain a c cs g :
  bool_decide (c ∈ Str.chars "*+?{") = false ->
  quantified a (c :: cs) g = Some (a, c :: cs, g).
Proof.
  intros H.
  destruct c as [[] [] [] [] [] [] [] []];
    first [reflexivity | exfalso; vm_compute in H; discriminate H].
Qed.

Lemma parse_term_escaped f c cs g :
  bool_decide (c ∈ Str.chars ".*+?^${}()|[]\") = true ->
  parse_term (S f) ("\"%char :: c :: cs) g = quantified (RChar c) cs g.
Proof.
  intros H.
  destruct c as [[] [] [] [] [] [] [] []];
    first [exfalso; vm_compute in H; discriminate H | reflexivity].
Qed.

Lemma parse_term_plain f c cs g :
  bool_decide (c ∈ Str.chars ".*+?^${}()|[]\") = false ->
  parse_term (S f) (c :: cs) g = quantified (RChar c) cs g.
Proof.
  intros H.
  destruct c as [[] [] [] [] [] [] [] []];
    first [exfalso; vm_compute in H; discriminate H | reflexivity].
Qed.

Lemma parse_alt_cons f c cs g :
  c <> "|"%char -> c <> ")"%char ->
  parse_alt (S f) (c :: cs) g
  = match parse_term f (c :: cs) g with
    | Some (t, cs1, g1) =>
        match parse_alt f cs1 g1 with
        | Some (REmpty, cs2, g2) => Some (t, cs2, g2)
        | Some (r, cs2, g2) => Some (RSeq t r, cs2, g2)
        | None => None
        end
    | None => None
    end.
Proof.
  intros H1 H2.
  destruct c as [[] [] [] [] [] [] [] []];
    first [reflexivity | done].
Qed.

Lemma parse_term_group f cs g :
  match cs with
  | c :: _ => c <> "?"%char
  | [] => True
  end ->
  parse_term (S f) ("("%char :: cs) g
  = match close_paren (RGroup (S g)) (parse_disj f cs (S g)) with
    | Some (r, cs1, g1) => quantified r cs1 g1
    | None => None
    end.
Proof.
  destruct cs as [|c cs]; [done|]. intros H.
  destruct c as [[] [] [] [] [] [] [] []];
    first [reflexivity | done].
Qed.

(** The characters of an escaped word, followed by the end of the word,
    never start with a quantifier. *)
Lemma escaped_head w stop :
  ends stop ->
  exists c cs,
    escaped w ++ stop = c :: cs
    /\ bool_decide (c ∈ Str.chars "*+?{") = false.
Proof.
  intros [rest Hs]. destruct w as [|c w].
  - destruct Hs as [-> | ->]; by eexists _, _.
  - cbn [escaped flat_map].
    destruct (bool_decide (c ∈ Str.chars ".*+?^${}()|[]\")) eqn:E.
    + by eexists _, _.
    + eexists _, _. split; [done|].
      destruct c as [[] [] [] [] [] [] [] []];
        first [reflexivity | exfalso; vm_compute in E; discriminate E].
Qed.

(** An escaped word parses to the word, character by character. *)
Lemma parse_alt_word w :
  forall stop g f,
    ends stop ->
    (length w < f)%nat ->
    parse_alt f (escaped w ++ stop) g = Some (lit w, stop, g).
Proof.
  induction w as [|c w IH]; intros stop g f Hstop Hf.
  - destruct f as [|f]; [lia|]. by destruct Hstop as [rest [-> | ->]].
  - destruct f as [|f]; [cbn in Hf; lia|]. cbn [length] in Hf.
    destruct f as [|f]; [lia|].
    destruct (escaped_head w stop Hstop) as (c1 & cs1 & E1 & Hq).
    pose proof (IH stop g (S f) Hstop ltac:(lia)) as Hw.
    cbn [escaped flat_map].
    destruct (bool_decide (c ∈ Str.chars ".*+?^${}()|[]\")) eqn:E;
      cbn [app]; fold (escaped w).
    + rewrite parse_alt_cons by done.
      rewrite parse_term_escaped by done.
      rewrite E1, quantified_plain by done.
      rewrite <- E1, Hw. by destruct w as [|? [|? ?]].
    + rewrite parse_alt_cons.
      * rewrite parse_term_plain by done.
        rewrite E1, quantified_plain by done.
        rewrite <- E1, Hw. by destruct w as [|? [|? ?]].
      * intros ->. vm_compute in E. discriminate E.
      * intros ->. vm_compute in E. discriminate E.
Qed.

Lemma chars_escapeRegExp w :
  Str.chars (escapeRegExp w) = escaped (Str.chars w).
Proof. apply MatchFacts.chars_of_chars. Qed.

Lemma chars_joined w w2 ws :
  Str.chars (Str.join "|" (map escapeRegExp (w :: w2 :: ws)))
  = escaped (Str.chars w)
    ++ "|"%char :: Str.chars (Str.join "|" (map escapeRegExp (w2 :: ws))).
Proof.
  change (Str.join "|" (map escapeRegExp (w :: w2 :: ws)))
    with (escapeRegExp w +:+ "|"
          +:+ Str.join "|" (map escapeRegExp (w2 :: ws))).
  by rewrite !ConvertProps.chars_append, chars_escapeRegExp.
Qed.

Lemma length_escaped w : (length w <= length (escaped w))%nat.
Proof.
  induction w as [|c w IH]; [done|]. cbn [escaped flat_map].
  fold (escaped w). rewrite length_app.
  destruct (bool_decide _); cbn; lia.
Qed.

(** The escaped markers, joined by bars, parse to the alternation of the
    markers as they are. *)
Lemma parse_disj_words w ws :
  forall rest g f,
    (length (Str.chars (Str.join "|" (map escapeRegExp (w :: ws)))) + 1
     < f)%nat ->
    parse_disj f
      (Str.chars (Str.join "|" (map escapeRegExp (w :: ws)))
       ++ ")"%char :: rest) g
    = Some (words (w :: ws), ")"%char :: rest, g).
Proof.
  revert w. induction ws as [|w2 ws IH]; intros w rest g f Hf.
  - destruct f as [|f]; [lia|].
    change (Str.join "|" (map escapeRegExp [w])) with (escapeRegExp w)
      in *.
    rewrite chars_escapeRegExp in *.
    pose proof (length_escaped (Str.chars w)).
    cbn [parse_disj]. rewrite parse_alt_word; [done| |lia].
    eexists. by right.
  - destruct f as [|f]; [lia|].
    rewrite chars_joined in *. rewrite length_app in Hf. cbn [length] in Hf.
    pose proof (length_escaped (Str.chars w)).
    cbn [parse_disj]. rewrite <- app_assoc. cbn [app].
    rewrite parse_alt_word; [| |lia].
    + rewrite IH by lia. done.
    + eexists. by left.
Qed.

Lemma joined_head w ws rest :
  exists c cs,
    Str.chars (Str.join "|" (map escapeRegExp (w :: ws)))
    ++ ")"%char :: rest = c :: cs
    /\ bool_decide (c ∈ Str.chars "*+?{") = false.
Proof.
  destruct ws as [|w2 ws].
  - change (Str.join "|" (map escapeRegExp [w])) with (escapeRegExp w).
    rewrite chars_escapeRegExp. apply escaped_head. eexists. by right.
  - rewrite chars_joined, <- app_assoc. apply escaped_head.
    eexists. by left.
Qed.

(** The part of the template before the markers. *)
Lemma head_parses :
  exists pre,
    cook template_head = Some "(?:^|[^w])("
    /\ forall f rest g,
         (6 <= f)%nat ->
         parse_disj f (Str.chars "^|[^w])" ++ rest) g
         = Some (pre, ")"%char :: rest, g).
Proof.
  eexists. split; [vm_compute; reflexivity|].
  intros f rest g Hf. do 6 (destruct f as [|f]; [lia|]).
  vm_compute. reflexivity.
Qed.

(** The part of the template after the markers. *)
Lemma tail_parses :
  exists tail post,
    cook template_tail = Some (String ")" (String "(" tail))
    /\ (forall f,
          (12 <= f)%nat ->
          parse_alt f ("("%char :: Str.chars tail) 1
          = Some (post, [], 2%nat))
    /\ (1%nat ∉ groups post)
    /\ post <> REmpty.
Proof.
  eexists _, _. split; [vm_compute; reflexivity|]. split.
  - intros f Hf. do 12 (destruct f as [|f]; [lia|]).
    vm_compute. reflexivity.
  - split; [|done]. apply (bool_decide_unpack _). vm_compute. exact I.
Qed.

(** Whatever the markers, the pattern of the scanner compiles, to a part
    before the marker, the group of the markers as they are written, and
    the rest. *)
Lemma regex_of_markers w ws :
  exists pre post,
    regex_of template_head template_tail (w :: ws)
    = Some (RSeq pre (RSeq (RGroup 1 (words (w :: ws))) post))
    /\ 1%nat ∉ groups post.
Proof.
  destruct head_parses as (pre & Eh & Hpre).
  destruct tail_parses as (tail & post & Et & Hpost & Hg & Hne).
  exists pre, post. split; [|done].
  unfold regex_of, pattern_of. rewrite Eh, Et.
  cbn [mbind option_bind]. unfold compile.
  rewrite !ConvertProps.chars_append.
  set (M := Str.chars (Str.join "|" (map escapeRegExp (w :: ws)))).
  change (Str.chars "(?:^|[^w])(")
    with ("("%char :: "?"%char :: ":"%char
          :: Str.chars "^|[^w])" ++ ["("%char]).
  change (Str.chars (String ")" (String "(" tail)))
    with (")"%char :: "("%char :: Str.chars tail).
  cbn [app]. rewrite <- !app_assoc. cbn [app].
  set (T := "("%char :: Str.chars tail) in *.
  assert (exists f,
    (3 * S (length ("("%char :: "?"%char :: ":"%char
                    :: Str.chars "^|[^w])" ++ "("%char :: M
                       ++ ")"%char :: T)))%nat
    = S (S (S (S f))) /\ (length M + 12 < f)%nat) as (f & -> & Hf).
  { eexists (3 * S (length ("("%char :: "?"%char :: ":"%char
                    :: Str.chars "^|[^w])" ++ "("%char :: M
                       ++ ")"%char :: T)) - 4)%nat.
    cbn [length]. rewrite !length_app. cbn [length].
    rewrite !length_app. cbn [length]. lia. }
  destruct (joined_head w ws T) as (c & cs & Ec & Hc). fold M in Ec.
  assert (Hq : c <> "?"%char).
  { intros ->. vm_compute in Hc. discriminate Hc. }
  change (parse_disj (S (S (S (S f)))) ?l 0%nat)
    with (match parse_alt (S (S (S f))) l 0%nat with
          | Some (r1, "|"%char :: cs1, g1) =>
              match parse_disj (S (S (S f))) cs1 g1 with
              | Some (r2, cs2, g2) => Some (RAlt r1 r2, cs2, g2)
              | None => None
              end
          | other => other
          end).
  rewrite parse_alt_cons by done.
  change (parse_term (S (S f)) ("("%char :: "?"%char :: ":"%char :: ?l) 0%nat)
    with (match close_paren (fun r => r) (parse_disj (S f) l 0%nat) with
          | Some (r, cs1, g1) => quantified r cs1 g1
          | None => None
          end).
  rewrite Hpre by lia. cbn [close_paren quantified].
  rewrite parse_alt_cons by done.
  rewrite parse_term_group by (by rewrite Ec).
  unfold M. rewrite parse_disj_words by (fold M; lia). fold M.
  cbn [close_paren]. unfold T at 1. cbn [quantified].
  fold T. rewrite Hpost by lia.
  by destruct post.
Qed.

(** X27.  Whatever markers the settings hold, [extractScanResults]
    returns: [escapeRegExp] makes every marker a pattern the constructor
    of the regular expression accepts.  Each result carries, in upper
    case, one of the markers in use, the configured ones or, when none is
    configured, the five defaults: a marker is matched as it is written,
    whatever characters it is made of, letter case apart. *)
Theorem markers_are_matched_literally (getRelativePath : string -> string)
  (path text : string) (config : ProjectConfig) :
  exists rs,
    extractScanResults getRelativePath path text config = Some rs
    /\ forall r,
         r ∈ rs ->
         exists m,
           m ∈ match debtMarkers config with
               | [] => DEBT_MARKERS
               | ms => ms
               end
           /\ marker r = Str.toUpperCase m.
Proof.
  unfold extractScanResults, extract_with.
  set (markers := match debtMarkers config with
                  | [] => DEBT_MARKERS
                  | ms => ms
                  end).
  assert (exists w ws, markers = w :: ws) as (w & ws & E).
  { unfold markers. destruct (debtMarkers config); by eexists _, _. }
  rewrite E.
  destruct (regex_of_markers w ws) as (pre & post & -> & Hg).
  cbn [mbind option_bind]. eexists. split; [done|].
  intros r Hr.
  apply ScanShapeProps.scan_lines_inv in Hr
    as (j & m1 & m2 & whole & _ & He & _ & Hm & _).
  apply UtilsProps.exec2_inv in He as (st & res & bef & Hres & _ & -> & _).
  unfold words in Hres.
  apply CaptureFacts.marker_group in Hres as (x & got & Hx & Hc & Hcap);
    [|done..].
  apply list_elem_of_fmap in Hx as (m & -> & Hin).
  exists m. split; [done|].
  rewrite Hm, Hcap. cbn [default]. unfold Datatypes.id.
  rewrite (CaptureFacts.toUpperCase_canon _ _ Hc).
  unfold Str.of_chars, Str.chars.
  by rewrite string_of_list_ascii_of_string.
Qed.

End EscapeProps.

(** ** Scanning the workspace *)

Module WorkspaceProps.

Import Scanner Workspace.

Lemma add_uris_inv (acc : gset string * list string) (uris : list string) :
  NoDup (snd acc) ->
  (forall uri, uri ∈ fst acc <-> uri ∈ snd acc) ->
  let out := add_uris acc uris in
  NoDup (snd out)
  /\ (forall uri, uri ∈ fst out <-> uri ∈ snd out)
  /\ (forall uri, uri ∈ snd out <-> uri ∈ snd acc \/ uri ∈ uris).
Proof.
  revert acc. induction uris as [|x uris IH]; intros [seen files] Hnd Hset.
  - cbn. split_and!; [done..|]. intros uri. rewrite elem_of_nil. tauto.
  - cbn [add_uris foldl]. cbn [fst snd] in Hnd, Hset.
    case_bool_decide as Hx.
    + destruct (IH (seen, files) Hnd Hset) as (H1 & H2 & H3).
      split_and!; [done..|]. intros uri. cbn [fst snd].
      unfold add_uris in H3. rewrite H3. cbn [snd].
      rewrite elem_of_cons. apply Hset in Hx.
      split; [tauto|]. intros [H|[->|H]]; tauto.
    + destruct (IH ({[x]} ∪ seen, files ++ [x])) as (H1 & H2 & H3).
      * cbn [snd]. apply NoDup_app. split_and!; [done| |apply NoDup_singleton].
        intros y Hy ->%list_elem_of_singleton. apply Hx. by apply Hset.
      * intros uri. cbn [fst snd].
        rewrite elem_of_union, elem_of_singleton, elem_of_app,
          list_elem_of_singleton, Hset. tauto.
      * split_and!; [done..|]. intros uri. unfold add_uris in H3.
        rewrite H3. cbn [snd].
        rewrite elem_of_app, list_elem_of_singleton, elem_of_cons. tauto.
Qed.

Section Host.

Variable findFiles : string -> option string -> list string.

Lemma gather_inv includes exclude :
  let out := gather findFiles includes exclude in
  NoDup (snd out)
  /\ (forall uri, uri ∈ fst out <-> uri ∈ snd out)
  /\ (forall uri,
        uri ∈ snd out
        <-> exists include,
              include ∈ includes /\ uri ∈ findFiles include exclude).
Proof.
  unfold gather.
  assert (Hgen : forall acc found,
    NoDup (snd acc) ->
    (forall uri, uri ∈ fst acc <-> uri ∈ snd acc) ->
    (forall uri, uri ∈ snd acc <-> found uri) ->
    let out :=
      foldl (fun acc include => add_uris acc (findFiles include exclude))
        acc includes in
    NoDup (snd out)
    /\ (forall uri, uri ∈ fst out <-> uri ∈ snd out)
    /\ (forall uri,
          uri ∈ snd out
          <-> found uri
              \/ exists include,
                   include ∈ includes /\ uri ∈ findFiles include exclude)).
  { induction includes as [|p includes IH]; intros acc found Hnd Hset Hf.
    - cbn. split_and!; [done..|]. intros uri. rewrite Hf.
      split; [tauto|]. intros [H|(p & Hp & _)]; [done|].
      by apply elem_of_nil in Hp.
    - cbn [foldl].
      destruct (add_uris_inv acc (findFiles p exclude) Hnd Hset)
        as (H1 & H2 & H3).
      destruct (IH (add_uris acc (findFiles p exclude))
                  (fun uri => found uri \/ uri ∈ findFiles p exclude)
                  H1 H2) as (G1 & G2 & G3).
      { intros uri. rewrite H3, Hf. tauto. }
      split_and!; [done..|]. intros uri. rewrite G3. split.
      + intros [[H|H]|(q & Hq & H)]; [by left| |].
        * right. exists p. split; [left | done].
        * right. exists q. split; [by right | done].
      + intros [H|(q & Hq & H)]; [by left; left|].
        apply elem_of_cons in Hq as [->|Hq]; [by left; right|].
        right. by exists q. }
  destruct (Hgen (∅, []) (fun _ => False)) as (H1 & H2 & H3).
  - apply NoDup_nil_2.
  - intros uri. cbn. rewrite elem_of_empty, elem_of_nil. tauto.
  - intros uri. cbn. rewrite elem_of_nil. tauto.
  - split_and!; [done..|]. intros uri. rewrite H3. tauto.
Qed.

Variable getRelativePath : string -> string.
Variable readFile : string -> option string.

Lemma scan_all_uncancelled (cancelled : nat -> bool) n files config :
  (forall k, cancelled k = false) ->
  scan_all getRelativePath readFile cancelled n files config
  = flat_map (fun uri => scanFileUri getRelativePath readFile uri config)
      files.
Proof.
  intros Hc. revert n. induction files as [|uri files IH]; intros n; cbn.
  - done.
  - by rewrite Hc, IH.
Qed.

Lemma scan_all_nothing (cancelled : nat -> bool) n files config :
  (forall uri,
     uri ∈ files -> scanFileUri getRelativePath readFile uri config = []) ->
  scan_all getRelativePath readFile cancelled n files config = [].
Proof.
  revert n. induction files as [|uri files IH]; intros n H; cbn; [done|].
  destruct (cancelled n); [done|].
  rewrite (H uri) by left. cbn. apply IH. intros u Hu. apply H. by right.
Qed.

End Host.

(** X22.  [scanWorkspace] scans no file twice, however many include
    patterns match it: the files it scans are those some include pattern
    finds, each once.  When the scan is not cancelled its results are
    those of the files, file after file; without a workspace folder, and
    when it is cancelled before the first file, there are none. *)
Theorem scanWorkspace_scans_each_file_once
  (getRelativePath : string -> string)
  (workspaceFolders : option (list string))
  (findFiles : string -> option string -> list string)
  (readFile : string -> option string) (cancelled : nat -> bool)
  (config : ScanConfig) :
  let files := files_to_scan findFiles config in
  let scan :=
    scanWorkspace getRelativePath workspaceFolders findFiles readFile
      cancelled config in
  NoDup files
  /\ (forall uri,
        uri ∈ files ->
        exists include exclude, uri ∈ findFiles include exclude)
  /\ (workspaceFolders = None \/ workspaceFolders = Some [] -> scan = [])
  /\ (cancelled 0%nat = true -> scan = [])
  /\ (forall folder folders,
        workspaceFolders = Some (folder :: folders) ->
        (forall n, cancelled n = false) ->
        scan
        = flat_map
            (fun uri =>
               scanFileUri getRelativePath readFile uri (project config))
            files).
Proof.
  intros files scan. unfold files, scan, files_to_scan, scanWorkspace.
  match goal with
  | |- context [gather findFiles ?i ?e] =>
      destruct (gather_inv findFiles i e) as (Hnd & _ & Hin)
  end.
  split_and!.
  - exact Hnd.
  - intros uri (include & _ & H)%Hin. eauto.
  - by intros [->| ->].
  - intros Hc. destruct workspaceFolders as [[|f fs]|]; [done| |done].
    match goal with
    | |- scan_all _ _ _ _ ?l _ = _ => destruct l; cbn; [done|]
    end.
    by rewrite Hc.
  - intros folder folders -> Hc. by apply scan_all_uncancelled.
Qed.

(** The theorem at a workspace in which two include patterns find the
    same file. *)
Lemma scanWorkspace_scans_each_file_once_witness :
  let findFiles := fun (include : string) (_ : option string) =>
    if bool_decide (include = "**/*.ts") then ["/w/a.ts"; "/w/b.ts"]
    else ["/w/b.ts"; "/w/c.js"] in
  let config :=
    {| project := defaultConfig; scanPatterns := ["**/*.ts"; "**/*"];
       excludePatterns := [] |} in
  files_to_scan findFiles config = ["/w/a.ts"; "/w/b.ts"; "/w/c.js"]
  /\ NoDup (files_to_scan findFiles config)
  /\ scanWorkspace (fun p => p) (Some ["/w"]) findFiles (fun _ => None)
       (fun _ => false) config
     = [].
Proof.
  intros findFiles config.
  destruct (scanWorkspace_scans_each_file_once (fun p => p) (Some ["/w"])
              findFiles (fun _ => None) (fun _ => false) config)
    as (Hnd & _ & _ & _ & Hscan).
  split; [vm_compute; reflexivity|]. split; [exact Hnd|].
  rewrite (Hscan "/w" []) by done.
  vm_compute. reflexivity.
Defined.

(** X23.  Under the default markers a scan of the workspace, and a scan
    of one file, report nothing unless a file holds a backspace
    character: the pattern of the scanner asks for one after the
    marker. *)
Theorem scans_find_nothing_without_backspace
  (getRelativePath : string -> string)
  (workspaceFolders : option (list string))
  (findFiles : string -> option string -> list string)
  (readFile : string -> option string) (cancelled : nat -> bool)
  (config : ScanConfig) :
  debtMarkers (project config) = [] ->
  (forall uri text, readFile uri = Some text -> Str.BS ∉ Str.chars text) ->
  scanWorkspace getRelativePath workspaceFolders findFiles readFile
    cancelled config = []
  /\ forall filePath,
       scanFile getRelativePath readFile (project config) filePath = [].
Proof.
  intros Hcfg Hbs.
  assert (Hfile : forall uri,
    scanFileUri getRelativePath readFile uri (project config) = []).
  { intros uri. unfold scanFileUri.
    destruct (readFile uri) as [text|] eqn:E; [|done].
    destruct (project config) as [markers]. cbn in Hcfg. subst markers.
    fold defaultConfig.
    rewrite ScannerProps.scan_without_backspace_is_empty; [done|].
    by eapply Hbs. }
  split.
  - unfold scanWorkspace. destruct workspaceFolders as [[|f fs]|]; try done.
    apply scan_all_nothing. intros uri _. apply Hfile.
  - intros filePath. apply Hfile.
Qed.

(** The theorem at the file of the scanner's own test. *)
Lemma scans_find_nothing_without_backspace_witness :
  let text :=
    Str.join (String Str.LF "")
      ["// This is a file"; "// TODO: Refactor this function";
       "function demo() {"; "  // FIXME: handle edge cases";
       "  return 1;"; "}"] in
  let config :=
    {| project := defaultConfig; scanPatterns := []; excludePatterns := [] |} in
  scanWorkspace (fun p => p) (Some ["/w"]) (fun _ _ => ["/w/demo.ts"])
    (fun _ => Some text) (fun _ => false) config = []
  /\ scanFile (fun p => p) (fun _ => Some text) defaultConfig "/w/demo.ts"
     = [].
Proof.
  intros text config.
  destruct (scans_find_nothing_without_backspace (fun p => p) (Some ["/w"])
              (fun _ _ => ["/w/demo.ts"]) (fun _ => Some text)
              (fun _ => false) config) as [Hw Hf].
  - reflexivity.
  - intros uri t [= <-]. vm_compute. intros H.
    repeat (apply elem_of_cons in H as [H|H]; [discriminate H|]).
    by apply elem_of_nil in H.
  - split; [exact Hw | exact (Hf "/w/demo.ts")].
Defined.

End WorkspaceProps.

(** ** The configuration service *)

Module ConfigProps.

Import Config.

Section Settings.

Variable workspaceConfig : string -> option jsval.

(** The object [getProjectConfig] returns has the seven properties of
    [ProjectConfig] and no other. *)
Lemma getProjectConfig_inv config :
  getProjectConfig workspaceConfig = inr config ->
  exists enabled autoScan debtMarkers storagePath notifications
         scanPatterns excludePatterns,
    config = JObj [("enabled", enabled);
                   ("autoScan", autoScan);
                   ("debtMarkers", JArr debtMarkers);
                   ("storagePath", storagePath);
                   ("notifications", notifications);
                   ("scanPatterns", JArr scanPatterns);
                   ("excludePatterns", JArr excludePatterns)].
Proof.
  unfold getProjectConfig.
  destruct (spread_elements (getConfigValue _ DEBT_MARKERS _)) as [e|dm];
    [done|].
  cbn [Res.bind].
  destruct (spread_elements (getConfigValue _ SCAN_PATTERNS _)) as [e|sp];
    [done|].
  cbn [Res.bind].
  destruct (spread_elements (getConfigValue _ EXCLUDE_PATTERNS _)) as [e|ep];
    [done|].
  cbn [Res.bind]. intros [= <-]. by eexists _, _, _, _, _, _, _.
Qed.

End Settings.

(** X24.  [validateConfiguration] applies no check of
    [validateConfigValue] to the configuration: the keys it passes are
    the names of the properties of [ProjectConfig], and none of them is a
    key [validateConfigValue] knows.  With a storage path that is a
    string, its verdict rests on two tests alone: auto-scan enabled with
    no scan pattern, and a storage path that holds two dots in a row. *)
Theorem validateConfiguration_checks_two_things
  (workspaceConfig : string -> option jsval) (config : jsval) :
  getProjectConfig workspaceConfig = inr config ->
  validate_entries (Js.own config) = inr tt
  /\ forall path,
       Js.get config "storagePath" = Some (JStr path) ->
       let found :=
         auto_scan_errors config
         ++ (if Convert.includes ".." path then [TRAVERSAL_ERROR] else []) in
       validateConfiguration workspaceConfig
       = inr {| isValid := (length found =? 0)%nat; errors := found |}.
Proof.
  intros Hc.
  pose proof (getProjectConfig_inv _ _ Hc)
    as (e & a & dm & sp & n & scp & exp & E).
  assert (Hall : validate_entries (Js.own config) = inr tt)
    by (by rewrite E).
  split; [exact Hall|].
  intros path Hp found. unfold validateConfiguration.
  rewrite Hc. cbn [Res.bind]. rewrite Hall, Hp. done.
Qed.

(** The theorem at settings in which [enabled] is a string and the list
    of markers is empty: [validateConfigValue] refuses both values under
    their keys, and [validateConfiguration] finds the configuration
    valid. *)
Lemma validateConfiguration_checks_two_things_witness :
  let settings := fun k : string =>
    if bool_decide (k = ENABLED) then Some (JStr "yes")
    else if bool_decide (k = DEBT_MARKERS) then Some (JArr [])
    else None in
  validateConfigValue ENABLED (JStr "yes")
  = inl "enabled must be a boolean value"
  /\ validateConfigValue DEBT_MARKERS (JArr [])
     = inl "debtMarkers cannot be empty"
  /\ validateConfiguration settings = inr {| isValid := true; errors := [] |}.
Proof.
  intros settings.
  split; [reflexivity|]. split; [reflexivity|].
  destruct (validateConfiguration_checks_two_things settings
              (JObj [("enabled", JStr "yes");
                     ("autoScan", JBool false);
                     ("debtMarkers", JArr []);
                     ("storagePath", JStr ".fixflow");
                     ("notifications", JBool true);
                     ("scanPatterns", strings Workspace.SCAN_PATTERNS);
                     ("excludePatterns", strings Workspace.EXCLUDE_PATTERNS)]))
    as [_ H]; [reflexivity|].
  rewrite (H ".fixflow") by reflexivity. reflexivity.
Defined.

(** X25.  Whatever the settings, [hasModifiedDefaults] answers [true]
    and [getConfigDifferences] lists all seven keys with no current
    value: both look the configuration up under the keys of the settings
    ([fixflow.enabled] and so on), and the configuration object has none
    of them. *)
Theorem defaults_always_reported_modified
  (workspaceConfig : string -> option jsval) (config : jsval) :
  getProjectConfig workspaceConfig = inr config ->
  hasModifiedDefaults workspaceConfig = inr true
  /\ getConfigDifferences workspaceConfig
     = inr (map (fun d => {| key := fst d; current := None;
                             default_value := snd d |})
              getDefaultConfigValues).
Proof.
  intros Hc.
  pose proof (getProjectConfig_inv _ _ Hc)
    as (e & a & dm & sp & n & scp & exp & E).
  unfold hasModifiedDefaults, getConfigDifferences. rewrite Hc.
  cbn [Res.bind]. by rewrite E.
Qed.

(** The theorem at the empty settings, where every value is the
    default. *)
Lemma defaults_always_reported_modified_witness :
  hasModifiedDefaults (fun _ => None) = inr true
  /\ exists found,
       getConfigDifferences (fun _ => None) = inr found
       /\ length found = 7%nat.
Proof.
  destruct (defaults_always_reported_modified (fun _ => None)
              (JObj [("enabled", JBool true);
                     ("autoScan", JBool false);
                     ("debtMarkers", strings Scanner.DEBT_MARKERS);
                     ("storagePath", JStr ".fixflow");
                     ("notifications", JBool true);
                     ("scanPatterns", strings Workspace.SCAN_PATTERNS);
                     ("excludePatterns", strings Workspace.EXCLUDE_PATTERNS)]))
    as [H1 H2]; [reflexivity|].
  split; [exact H1|]. eexists. split; [exact H2 | reflexivity].
Defined.

End ConfigProps.

(** ** From an empty workspace to the first entry *)

Module FlowProps.

Import Js Storage StorageApi Notions.



End FlowProps.
